(** * SecretShare: the Worker API (src/worker.ts) and the browser crypto
      helper (frontend/crypto.js), embedded in Rocq.

    The strings of the worker (identifiers, tokens, base64 text) are
    modelled as [string], a sequence of code units below 256.  The
    plaintext of a secret is any JavaScript string: it is taken as a
    [string] with the text codec left to the platform class
    ([SecretShareCryptoOps]), and in full, as its UTF-16 code units with
    the UTF-8 codec written out ([JsText], [SecretShareCryptoText]).  A
    [Uint8Array] is a [list byte], a millisecond timestamp a [Z], and the
    numbers of a JSON body are rationals [Q]: every finite double is a
    rational and comparisons agree; sums and products are exact here, where
    JavaScript rounds to a double, which makes no difference on the view
    counts the worker writes (whole numbers below 100).

    The platform primitives that are not part of the repository (the
    WebCrypto digest, HMAC and AES-GCM, the text codec) are the fields of
    the class [WebPlatform]; [btoa] and [atob] are modelled after RFC 4648
    and the forgiving-base64 decoder.  A handler is a program over the
    effects it awaits (clock, random bytes, key-value store); [Runtime]
    runs such programs one after the other or interleaved. *)

From Stdlib Require Import ZArith QArith Lia Lqa ZifyNat ZifyN.
From Stdlib.Strings Require Import Ascii String Byte.
From Stdlib Require Import DecimalString DecimalPos.
From stdpp Require Import gmap strings list.

Local Open Scope string_scope.
Local Open Scope list_scope.

#[global] Instance byte_eq_decision : EqDecision byte := Byte.byte_eq_dec.

(** ** JavaScript string helpers *)

Module Js.

(** [s.replace(/c/g, d)] for single characters [c] and [d]. *)
Definition replace_char (c d : ascii) (l : list ascii) : list ascii :=
  map (fun x => if Ascii.eqb x c then d else x) l.

(** [s.replace(/c+$/, '')]: drop the run of [c] that ends the string. *)
Fixpoint drop_leading (c : ascii) (l : list ascii) : list ascii :=
  match l with
  | x :: r => if Ascii.eqb x c then drop_leading c r else l
  | [] => []
  end.

Definition strip_trailing (c : ascii) (l : list ascii) : list ascii :=
  rev (drop_leading c (rev l)).

(** [s.replace(/c/g, '')]. *)
Definition remove_char (c : ascii) (l : list ascii) : list ascii :=
  filter (fun x => x <> c) l.

(** [c.repeat(n)]. *)
Definition repeat_char (c : ascii) (n : nat) : list ascii := repeat c n.

(** [s.split(c)] for a one-character separator: the pieces between
    occurrences of [c], at least one piece. *)
Fixpoint split_on (c : ascii) (s : string) : list string :=
  match s with
  | EmptyString => [EmptyString]
  | String x r =>
      if Ascii.eqb x c then EmptyString :: split_on c r
      else match split_on c r with
           | p :: ps => String x p :: ps
           | [] => [String x EmptyString]
           end
  end.

(** [s.includes(c)] for a character [c]. *)
Fixpoint has_char (c : ascii) (s : string) : bool :=
  match s with
  | EmptyString => false
  | String x r => Ascii.eqb x c || has_char c r
  end.

(** Truthiness of a string value: the empty string is falsy. *)
Definition truthy (s : string) : bool :=
  match s with EmptyString => false | _ => true end.

End Js.

(** ** The platform's [btoa] and [atob] *)

Module Base64.

Definition alphabet : list ascii :=
  list_ascii_of_string
    "ABCDEFGHIJKLMNOPQRSTUVWXYZabcdefghijklmnopqrstuvwxyz0123456789+/".

Definition pad_char : ascii := "="%char.

(** The character of a 6-bit value. *)
Definition b64char (n : N) : ascii := nth (N.to_nat n) alphabet pad_char.

Fixpoint index_of (c : ascii) (l : list ascii) (i : N) : option N :=
  match l with
  | [] => None
  | x :: r => if Ascii.eqb x c then Some i else index_of c r (N.succ i)
  end.

(** The 6-bit value of an alphabet character. *)
Definition b64index (c : ascii) : option N := index_of c alphabet 0%N.

(** Regrouping of 8-bit values into 6-bit values, the last group zero
    filled. *)
Fixpoint sextets_of (l : list N) : list N :=
  match l with
  | [] => []
  | [a] => [a / 4; (a mod 4) * 16]%N
  | [a; b] => [a / 4; (a mod 4) * 16 + b / 16; (b mod 16) * 4]%N
  | a :: b :: c :: r =>
      [a / 4; (a mod 4) * 16 + b / 16; (b mod 16) * 4 + c / 64; c mod 64]%N
        ++ sextets_of r
  end.

Definition padding_of (n : nat) : list ascii :=
  match (n mod 3)%nat with
  | 1%nat => [pad_char; pad_char]
  | 2%nat => [pad_char]
  | _ => []
  end.

(** [btoa(binary)]: every code unit of a [string] is below 256, so the
    call never throws. *)
Definition btoa_list (l : list ascii) : list ascii :=
  map b64char (sextets_of (map N_of_ascii l)) ++ padding_of (length l).

Definition btoa (s : string) : string :=
  string_of_list_ascii (btoa_list (list_ascii_of_string s)).

(** Tab, line feed, form feed, carriage return and space. *)
Definition is_ascii_whitespace (c : ascii) : bool :=
  let n := N_of_ascii c in
  (n =? 9)%N || (n =? 10)%N || (n =? 12)%N || (n =? 13)%N || (n =? 32)%N.

(** Step 2 of forgiving-base64 decode: when the length is a multiple of
    four, one or two closing pad characters are removed. *)
Definition remove_padding (l : list ascii) : list ascii :=
  if (length l mod 4 =? 0)%nat then
    match rev l with
    | x :: y :: r =>
        if Ascii.eqb x pad_char then
          if Ascii.eqb y pad_char then rev r else rev (y :: r)
        else l
    | [x] => if Ascii.eqb x pad_char then [] else l
    | [] => l
    end
  else l.

Fixpoint indices (l : list ascii) : option (list N) :=
  match l with
  | [] => Some []
  | c :: r =>
      match b64index c, indices r with
      | Some i, Some r' => Some (i :: r')
      | _, _ => None
      end
  end.

(** Regrouping of 6-bit values into bytes; 12 left-over bits give one
    byte, 18 give two, the spare low bits are discarded. *)
Fixpoint octets_of (l : list N) : list N :=
  match l with
  | s1 :: s2 :: s3 :: s4 :: r =>
      [s1 * 4 + s2 / 16; (s2 mod 16) * 16 + s3 / 4; (s3 mod 4) * 64 + s4]%N
        ++ octets_of r
  | [s1; s2; s3] => [s1 * 4 + s2 / 16; (s2 mod 16) * 16 + s3 / 4]%N
  | [s1; s2] => [s1 * 4 + s2 / 16]%N
  | _ => []
  end.

(** [atob(text)]: [None] stands for the [InvalidCharacterError]. *)
Definition atob_list (l : list ascii) : option (list ascii) :=
  let data := remove_padding (filter (fun c => is_ascii_whitespace c = false) l) in
  if (length data mod 4 =? 1)%nat then None
  else match indices data with
       | Some sx => Some (map ascii_of_N (octets_of sx))
       | None => None
       end.

Definition atob (s : string) : option string :=
  option_map string_of_list_ascii (atob_list (list_ascii_of_string s)).

End Base64.

(** ** Auxiliary notions on base64 text *)

Module Base64Notions.
Import Base64.

(** The two character substitutions of the URL-safe form, and back. *)
Definition url (c : ascii) : ascii :=
  let c1 := if Ascii.eqb c "+" then "-"%char else c in
  if Ascii.eqb c1 "/" then "_"%char else c1.

Definition unurl (c : ascii) : ascii :=
  let c1 := if Ascii.eqb c "-" then "+"%char else c in
  if Ascii.eqb c1 "_" then "/"%char else c1.

(** The table facts checked for each 6-bit value. *)
Definition sextet_ok (n : N) : bool :=
  let c := b64char n in
  match b64index c with Some m => (m =? n)%N | None => false end
  && negb (Ascii.eqb c pad_char)
  && negb (Ascii.eqb (url c) pad_char)
  && negb (Ascii.eqb (url c) "+")
  && negb (Ascii.eqb (url c) "/")
  && Ascii.eqb (unurl (url c)) c
  && negb (is_ascii_whitespace c).

Definition small (bound : N) (l : list N) : Prop := Forall (fun n => (n < bound)%N) l.

(** The number of pad characters that [btoa] appends for [n] bytes. *)
Definition pad_count (n : nat) : nat :=
  match (n mod 3)%nat with
  | 1%nat => 2%nat
  | 2%nat => 1%nat
  | _ => 0%nat
  end.

End Base64Notions.

(** ** frontend/crypto.js: the text form of binary data *)

Module SecretShareCrypto.

(** [arrayBufferToBase64(buffer)] *)
Definition arrayBufferToBase64 (buffer : list byte) : string :=
  let binary := map ascii_of_byte buffer in
  string_of_list_ascii
    (Js.strip_trailing "="
       (Js.replace_char "/" "_"
          (Js.replace_char "+" "-" (Base64.btoa_list binary)))).

(** [base64ToArrayBuffer(base64url)]; [None] when [atob] throws. *)
Definition base64ToArrayBuffer (base64url : string) : option (list byte) :=
  let base64 :=
    Js.replace_char "_" "/"
      (Js.replace_char "-" "+" (list_ascii_of_string base64url)) in
  let padding := (4 - length base64 mod 4)%nat in
  let base64 :=
    if (padding =? 4)%nat then base64
    else base64 ++ Js.repeat_char "=" padding in
  match Base64.atob_list base64 with
  | Some binary => Some (map byte_of_ascii binary)
  | None => None
  end.

End SecretShareCrypto.


(** ** The platform interface

    What the code obtains from WebCrypto and the Encoding API.  An HMAC key
    imported from raw bytes is identified with those bytes. *)

Class WebPlatform := {
  CryptoKey : Type;
  TextEncoder_encode : string -> list byte;
  TextDecoder_decode : list byte -> string;
  (** [crypto.subtle.encrypt({name: 'AES-GCM', iv, tagLength: 128}, key, data)] *)
  AES_GCM_encrypt : CryptoKey -> list byte -> list byte -> list byte;
  (** [crypto.subtle.decrypt(...)]; [None] when the promise rejects. *)
  AES_GCM_decrypt : CryptoKey -> list byte -> list byte -> option (list byte);
  (** [crypto.subtle.sign('HMAC', key, data)] with hash SHA-256. *)
  HMAC_SHA256 : list byte -> list byte -> list byte;
  (** [crypto.subtle.digest('SHA-256', data)] *)
  SHA256 : list byte -> list byte
}.

(** [crypto.getRandomValues(new Uint8Array(n))], the random source being
    given as the function from positions to the bytes it yields. *)
Definition getRandomValues (source : nat -> byte) (n : nat) : list byte :=
  map source (seq 0 n).

(** ** frontend/crypto.js: encrypt and decrypt *)

Module SecretShareCryptoOps.
Import SecretShareCrypto.

Section WithPlatform.
Context `{WebPlatform}.

Definition ivLength : nat := 12.

(** [encrypt(plaintext, key)] *)
Definition encrypt (source : nat -> byte) (plaintext : string)
    (key : CryptoKey) : string :=
  let iv := getRandomValues source ivLength in
  let encodedText := TextEncoder_encode plaintext in
  let encrypted := AES_GCM_encrypt key iv encodedText in
  let combined := iv ++ encrypted in
  arrayBufferToBase64 combined.

(** [decrypt(encryptedData, key)]; [None] is the
    'Decryption failed. Invalid key or corrupted data.' error, thrown
    for every exception caught in the body. *)
Definition decrypt (encryptedData : string) (key : CryptoKey)
    : option string :=
  match base64ToArrayBuffer encryptedData with
  | None => None
  | Some combined =>
      let iv := take ivLength combined in
      let ciphertext := drop ivLength combined in
      match AES_GCM_decrypt key iv ciphertext with
      | Some decrypted => Some (TextDecoder_decode decrypted)
      | None => None
      end
  end.

End WithPlatform.
End SecretShareCryptoOps.

(** ** src/worker.ts *)

Module Worker.

(** *** Numbers *)

(** [a < b] on finite numbers. *)
Definition Qlt_bool (a b : Q) : bool := negb (Qle_bool b a).

(** A number that may be [NaN]: [None] is [NaN], on which every
    comparison is false. *)
Definition js_sub (a : Z) (b : option Z) : option Z :=
  match b with Some y => Some (a - y)%Z | None => None end.

Definition js_gt (a : option Z) (b : Z) : bool :=
  match a with Some x => (b <? x)%Z | None => false end.

Definition js_lt (a : option Z) (b : Z) : bool :=
  match a with Some x => (x <? b)%Z | None => false end.

(** White space skipped by [parseInt], among code units below 256. *)
Definition is_js_whitespace (c : ascii) : bool :=
  let n := N_of_ascii c in
  (n =? 9)%N || (n =? 10)%N || (n =? 11)%N || (n =? 12)%N || (n =? 13)%N
  || (n =? 32)%N || (n =? 160)%N.

Fixpoint skip_whitespace (l : list ascii) : list ascii :=
  match l with
  | c :: r => if is_js_whitespace c then skip_whitespace r else l
  | [] => []
  end.

(** The value of a digit in the given radix (10 or 16). *)
Definition digit_value (radix : Z) (c : ascii) : option Z :=
  let n := Z.of_N (N_of_ascii c) in
  if ((48 <=? n) && (n <=? 57))%Z then Some (n - 48)%Z
  else if (radix =? 16)%Z && ((97 <=? n) && (n <=? 102))%Z then Some (n - 87)%Z
  else if (radix =? 16)%Z && ((65 <=? n) && (n <=? 70))%Z then Some (n - 55)%Z
  else None.

(** The digits that start [l], most significant first. *)
Fixpoint leading_digits (radix : Z) (l : list ascii) : list Z :=
  match l with
  | c :: r =>
      match digit_value radix c with
      | Some d => d :: leading_digits radix r
      | None => []
      end
  | [] => []
  end.

Definition digits_value (radix : Z) (ds : list Z) : Z :=
  fold_left (fun acc d => acc * radix + d)%Z ds 0%Z.

(** [parseInt(s)] without a radix argument.  The result is the exact
    integer; beyond 2^53 JavaScript rounds it, which changes none of the
    comparisons made on it below. *)
Definition parseInt (s : string) : option Z :=
  let l := skip_whitespace (list_ascii_of_string s) in
  let '(sign, l) :=
    match l with
    | c :: r =>
        if Ascii.eqb c "-" then ((-1)%Z, r)
        else if Ascii.eqb c "+" then (1%Z, r)
        else (1%Z, l)
    | [] => (1%Z, l)
    end in
  let '(radix, l) :=
    match l with
    | c0 :: cx :: r =>
        if Ascii.eqb c0 "0" && (Ascii.eqb cx "x" || Ascii.eqb cx "X")
        then (16%Z, r) else (10%Z, l)
    | _ => (10%Z, l)
    end in
  match leading_digits radix l with
  | [] => None
  | ds => Some (sign * digits_value radix ds)%Z
  end.

(** [n.toString()] for an integer. *)
Definition toString (n : Z) : string :=
  DecimalString.NilZero.string_of_int (Z.to_int n).

Definition hex_digit (n : N) : ascii :=
  nth (N.to_nat n) (list_ascii_of_string "0123456789abcdef") "0"%char.

(** [Array.from(bytes).map(b => b.toString(16).padStart(2, '0')).join('')] *)
Definition hex_of_bytes (bytes : list byte) : string :=
  string_of_list_ascii
    (flat_map (fun b => [hex_digit (Byte.to_N b / 16); hex_digit (Byte.to_N b mod 16)])
       bytes).

(** *** Data *)

Record SecretData := {
  encryptedData : string;
  maxViews : Q;
  viewCount : Q;
  createdAt : Z
}.

(** Parsed request bodies: a JSON object whose fields, where present,
    have the declared types; an absent field is [None].  A body that is
    JSON but not such an object ([null], or a field of another type) is
    outside these types. *)
Record CreateSecretRequest := {
  create_encryptedData : option string;
  create_maxViews : option Q;
  create_expirationHours : option Q;
  create_csrfToken : option string
}.

Record RetrieveSecretRequest := {
  retrieve_secretId : option string;
  retrieve_csrfToken : option string
}.

Record Env := { CSRF_SECRET : string }.

(** The JSON document of a response. *)
Inductive Body :=
| ErrorBody (error : string)
| TokenBody (csrfToken : string)
| CreatedBody (secretId : string) (expiresAt : Q) (maxViews : Q)
| SecretBody (encryptedData : string) (viewCount maxViews : Q)
             (isLastView : bool) (createdAt : Z).

Record Response := { status : Z; body : Body }.

(** [!value] for an optional string field: absent or empty. *)
Definition falsy (v : option string) : bool :=
  match v with Some s => negb (Js.truthy s) | None => true end.

Definition field (v : option string) : string :=
  match v with Some s => s | None => EmptyString end.

(** *** The key-value namespace

    A stored text is identified with what [JSON.parse] makes of it: the
    record that [JSON.stringify] wrote, or nothing when the text is not
    JSON ([NotJson], a text on which [JSON.parse] throws).  A text that is
    JSON but not a record ([null], [{}], a number) is outside this type:
    the worker never writes one. *)
Inductive kv_text :=
| Json (d : SecretData)
| NotJson (raw : string).

Definition JSON_stringify (d : SecretData) : kv_text := Json d.

Definition JSON_parse (t : kv_text) : option SecretData :=
  match t with Json d => Some d | NotJson _ => None end.

(** [!text]: only the empty text is falsy. *)
Definition empty_text (t : kv_text) : bool :=
  match t with Json _ => false | NotJson raw => negb (Js.truthy raw) end.

Record kv_entry := { kv_value : kv_text; kv_expirationTtl : option Q }.

(** *** Programs over the platform's effects

    A handler is a tree of the effects it awaits.  [settled] is the
    outcome of a store promise. *)
Inductive settled (A : Type) :=
| Fulfilled (a : A)
| Rejected.
Arguments Fulfilled {A} a.
Arguments Rejected {A}.

Inductive prog (A : Type) : Type :=
| Ret (a : A)
| Throw
| DateNow (k : Z -> prog A)
| RandomValues (n : nat) (k : list byte -> prog A)
| KvGet (key : string) (k : settled (option kv_text) -> prog A)
| KvPut (key : string) (value : kv_text) (expirationTtl : option Q)
        (k : settled unit -> prog A)
| KvDelete (key : string) (k : settled unit -> prog A).
Arguments Ret {A} a.
Arguments Throw {A}.
Arguments DateNow {A} k.
Arguments RandomValues {A} n k.
Arguments KvGet {A} key k.
Arguments KvPut {A} key value expirationTtl k.
Arguments KvDelete {A} key k.

Fixpoint bind {A B : Type} (p : prog A) (f : A -> prog B) : prog B :=
  match p with
  | Ret a => f a
  | Throw => Throw
  | DateNow k => DateNow (fun t => bind (k t) f)
  | RandomValues n k => RandomValues n (fun bs => bind (k bs) f)
  | KvGet key k => KvGet key (fun r => bind (k r) f)
  | KvPut key v ttl k => KvPut key v ttl (fun r => bind (k r) f)
  | KvDelete key k => KvDelete key (fun r => bind (k r) f)
  end.

#[global] Instance prog_ret : MRet prog := fun A a => Ret a.
#[global] Instance prog_bind : MBind prog := fun A B f p => bind p f.

Definition Date_now : prog Z := DateNow Ret.
Definition crypto_getRandomValues (n : nat) : prog (list byte) :=
  RandomValues n Ret.
Definition SECRETS_KV_get (key : string) : prog (settled (option kv_text)) :=
  KvGet key Ret.
Definition SECRETS_KV_put (key : string) (value : kv_text)
    (expirationTtl : option Q) : prog (settled unit) :=
  KvPut key value expirationTtl Ret.
Definition SECRETS_KV_delete (key : string) : prog (settled unit) :=
  KvDelete key Ret.

Definition json (st : Z) (b : Body) : Response := {| status := st; body := b |}.

Section WithPlatform.
Context `{WebPlatform}.

(** [base64urlEncode(buffer)].  The bytes are the arguments of the one
    call [String.fromCharCode(...buffer)], which an engine refuses for a
    very long buffer; the worker encodes the 32 bytes of an identifier or
    of a digest. *)
Definition base64urlEncode (buffer : list byte) : string :=
  string_of_list_ascii
    (Js.remove_char "="
       (Js.replace_char "/" "_"
          (Js.replace_char "+" "-"
             (Base64.btoa_list (map ascii_of_byte buffer))))).

(** [base64urlDecode(str)]; [None] when [atob] throws. *)
Definition base64urlDecode (str : string) : option (list byte) :=
  let chars := list_ascii_of_string str in
  let padding := Js.repeat_char "=" ((4 - length chars mod 4) mod 4) in
  let base64 := Js.replace_char "_" "/" (Js.replace_char "-" "+" chars) ++ padding in
  match Base64.atob_list base64 with
  | Some binary => Some (map byte_of_ascii binary)
  | None => None
  end.

(** [generateSecretId()] *)
Definition generateSecretId : prog string :=
  randomBytes ← crypto_getRandomValues 32;
  mret (base64urlEncode randomBytes).

(** [hashSecretId(secretId)] *)
Definition hashSecretId (secretId : string) : string :=
  let data := TextEncoder_encode secretId in
  let hashBuffer := SHA256 data in
  base64urlEncode hashBuffer.

(** The signature string computed in both token functions. *)
Definition signatureHex (secret timestamp : string) : string :=
  let data := TextEncoder_encode timestamp in
  let key := TextEncoder_encode secret in
  hex_of_bytes (HMAC_SHA256 key data).

(** [generateCSRFToken(secret)] *)
Definition generateCSRFToken (secret : string) : prog string :=
  now ← Date_now;
  let timestamp := toString now in
  mret (timestamp +:+ "." +:+ signatureHex secret timestamp).

(** [validateCSRFToken(token, secret)] *)
Definition validateCSRFToken (token secret : string) : prog bool :=
  match Js.split_on "." token with
  | [timestamp; providedSignature] =>
      if negb (Js.truthy timestamp) || negb (Js.truthy providedSignature)
      then mret false
      else
        now ← Date_now;
        let tokenAge := js_sub now (parseInt timestamp) in
        if js_gt tokenAge (30 * 60 * 1000) || js_lt tokenAge 0
        then mret false
        else mret (String.eqb (signatureHex secret timestamp) providedSignature)
  | _ => mret false
  end.

(** [handleGetCSRFToken(env, corsHeaders)] *)
Definition handleGetCSRFToken (env : Env) : prog Response :=
  token ← generateCSRFToken (CSRF_SECRET env);
  mret (json 200 (TokenBody token)).

(** [handleCreateSecret(request, env, corsHeaders)]; the argument is the
    outcome of [request.json()], [None] when it throws. *)
Definition handleCreateSecret (request : option CreateSecretRequest)
    (env : Env) : prog Response :=
  match request with
  | None => mret (json 400 (ErrorBody "Invalid JSON"))
  | Some data =>
    match create_maxViews data, create_expirationHours data with
    | Some data_maxViews, Some data_expirationHours =>
      if falsy (create_encryptedData data) || falsy (create_csrfToken data)
      then mret (json 400 (ErrorBody "Missing required fields"))
      else if Qlt_bool data_maxViews 1 || Qlt_bool 100 data_maxViews
      then mret (json 400 (ErrorBody "Max views must be between 1 and 100"))
      else if Qlt_bool data_expirationHours 1 || Qlt_bool 8760 data_expirationHours
      then mret (json 400 (ErrorBody "Expiration hours must be between 1 and 8760"))
      else
        valid ← validateCSRFToken (field (create_csrfToken data)) (CSRF_SECRET env);
        if negb valid then mret (json 403 (ErrorBody "Invalid CSRF token"))
        else
          secretId ← generateSecretId;
          let hashedSecretId := hashSecretId secretId in
          createdAt ← Date_now;
          let secretData :=
            {| encryptedData := field (create_encryptedData data);
               maxViews := data_maxViews;
               viewCount := 0%Q;
               createdAt := createdAt |} in
          (* exact here; JavaScript rounds the product to a double *)
          let expirationSeconds := (data_expirationHours * 3600)%Q in
          stored ← SECRETS_KV_put hashedSecretId (JSON_stringify secretData)
                     (Some expirationSeconds);
          match stored with
          | Rejected => mret (json 500 (ErrorBody "Failed to store secret"))
          | Fulfilled _ =>
              now ← Date_now;
              mret (json 200
                      (CreatedBody secretId
                         (inject_Z now + expirationSeconds * 1000)%Q
                         data_maxViews))
          end
    | _, _ => mret (json 400 (ErrorBody "Missing required fields"))
    end
  end.

(** [handleRetrieveSecret(request, env, corsHeaders)] *)
Definition handleRetrieveSecret (request : option RetrieveSecretRequest)
    (env : Env) : prog Response :=
  match request with
  | None => mret (json 400 (ErrorBody "Invalid JSON"))
  | Some data =>
    if falsy (retrieve_secretId data) || falsy (retrieve_csrfToken data)
    then mret (json 400 (ErrorBody "Missing secretId or csrfToken"))
    else
      valid ← validateCSRFToken (field (retrieve_csrfToken data)) (CSRF_SECRET env);
      if negb valid then mret (json 403 (ErrorBody "Invalid CSRF token"))
      else
        let hashedSecretId := hashSecretId (field (retrieve_secretId data)) in
        got ← SECRETS_KV_get hashedSecretId;
        match got with
        | Rejected => mret (json 500 (ErrorBody "Failed to retrieve secret"))
        | Fulfilled None =>
            mret (json 404 (ErrorBody "Secret not found or expired"))
        | Fulfilled (Some storedData) =>
          if empty_text storedData
          then mret (json 404 (ErrorBody "Secret not found or expired"))
          else
          match JSON_parse storedData with
          | None => mret (json 500 (ErrorBody "Invalid secret data"))
          | Some secretData =>
            if Qle_bool (maxViews secretData) (viewCount secretData)
            then
              (* awaited outside any try: a rejection escapes the handler *)
              deleted ← SECRETS_KV_delete hashedSecretId;
              match deleted with
              | Rejected => Throw
              | Fulfilled _ =>
                  mret (json 410 (ErrorBody "Secret has exceeded maximum views"))
              end
            else
              let secretData :=
                {| encryptedData := encryptedData secretData;
                   maxViews := maxViews secretData;
                   viewCount := (viewCount secretData + 1)%Q;
                   createdAt := createdAt secretData |} in
              let clientEncryptedData := encryptedData secretData in
              (* both store calls sit in a try whose catch only logs:
                 the outcome of the promise is dropped *)
              _ ← (if Qle_bool (maxViews secretData) (viewCount secretData)
                   then SECRETS_KV_delete hashedSecretId
                   else SECRETS_KV_put hashedSecretId
                          (JSON_stringify secretData) None);
              mret (json 200
                      (SecretBody clientEncryptedData
                         (viewCount secretData)
                         (maxViews secretData)
                         (Qle_bool (maxViews secretData) (viewCount secretData))
                         (createdAt secretData)))
          end
        end
  end.

End WithPlatform.

End Worker.

(** ** Running handlers against a store *)

Module Runtime.
Import Worker.

(** What the environment answers: the clock reading, the random bytes and
    whether a store call is rejected, each indexed by the number of
    effects performed so far. *)
Record Oracle := {
  clock : nat -> Z;
  entropy : nat -> nat -> byte;
  rejects : nat -> bool
}.

Record World := {
  store : gmap string kv_entry;
  tick : nat
}.

Inductive outcome (A : Type) :=
| Returned (a : A)
| Threw.
Arguments Returned {A} a.
Arguments Threw {A}.

Definition advance (w : World) (st : gmap string kv_entry) : World :=
  {| store := st; tick := S (tick w) |}.

(** A rejected store call leaves the namespace as it was. *)
Definition do_get (o : Oracle) (w : World) (key : string)
    : settled (option kv_text) * World :=
  if rejects o (tick w) then (Rejected, advance w (store w))
  else (Fulfilled (kv_value <$> store w !! key), advance w (store w)).

Definition do_put (o : Oracle) (w : World) (key : string) (v : kv_text)
    (ttl : option Q) : settled unit * World :=
  if rejects o (tick w) then (Rejected, advance w (store w))
  else (Fulfilled tt,
        advance w (<[key := {| kv_value := v; kv_expirationTtl := ttl |}]> (store w))).

Definition do_delete (o : Oracle) (w : World) (key : string)
    : settled unit * World :=
  if rejects o (tick w) then (Rejected, advance w (store w))
  else (Fulfilled tt, advance w (delete key (store w))).

(** One awaited effect of a handler. *)
Definition step {A : Type} (o : Oracle) (p : prog A) (w : World)
    : prog A * World :=
  match p with
  | Ret _ | Throw => (p, w)
  | DateNow k => (k (clock o (tick w)), advance w (store w))
  | RandomValues n k =>
      (k (getRandomValues (entropy o (tick w)) n), advance w (store w))
  | KvGet key k => let '(r, w') := do_get o w key in (k r, w')
  | KvPut key v ttl k => let '(r, w') := do_put o w key v ttl in (k r, w')
  | KvDelete key k => let '(r, w') := do_delete o w key in (k r, w')
  end.

(** A handler run to completion with no other call in between. *)
Fixpoint run {A : Type} (o : Oracle) (p : prog A) (w : World)
    : outcome A * World :=
  match p with
  | Ret a => (Returned a, w)
  | Throw => (Threw, w)
  | DateNow k => run o (k (clock o (tick w))) (advance w (store w))
  | RandomValues n k =>
      run o (k (getRandomValues (entropy o (tick w)) n)) (advance w (store w))
  | KvGet key k => let '(r, w') := do_get o w key in run o (k r) w'
  | KvPut key v ttl k => let '(r, w') := do_put o w key v ttl in run o (k r) w'
  | KvDelete key k => let '(r, w') := do_delete o w key in run o (k r) w'
  end.

(** Calls handled one after the other. *)
Fixpoint run_calls {A : Type} (o : Oracle) (calls : list (prog A)) (w : World)
    : list (outcome A) * World :=
  match calls with
  | [] => ([], w)
  | p :: rest =>
      let '(r, w') := run o p w in
      let '(rs, w'') := run_calls o rest w' in
      (r :: rs, w'')
  end.

(** Calls in flight together: the schedule names, effect by effect, the
    call that proceeds. *)
Fixpoint run_schedule {A : Type} (o : Oracle) (schedule : list nat)
    (pool : list (prog A)) (w : World) : list (prog A) * World :=
  match schedule with
  | [] => (pool, w)
  | i :: rest =>
      match pool !! i with
      | Some p =>
          let '(p', w') := step o p w in
          run_schedule o rest (<[i := p']> pool) w'
      | None => run_schedule o rest pool w
      end
  end.

(** The response is a success carrying an envelope. *)
Definition carries_envelope (r : Response) : bool :=
  match body r with
  | SecretBody _ _ _ _ _ => (status r =? 200)%Z
  | _ => false
  end.

Definition returns_envelope (r : outcome Response) : bool :=
  match r with
  | Returned resp => carries_envelope resp
  | Threw => false
  end.

Definition finished_with_envelope (p : prog Response) : bool :=
  match p with
  | Ret resp => carries_envelope resp
  | _ => false
  end.

(** The number of calls that returned the envelope. *)
Definition envelopes (rs : list (outcome Response)) : nat :=
  length (filter (fun r => returns_envelope r = true) rs).

(** An oracle under which no store call is rejected. *)
Definition reliable (o : Oracle) : Prop := forall n, rejects o n = false.

End Runtime.

(** ** A small platform for running examples

    Stand-ins with the shape of the primitives: the "cipher" appends a
    16-byte tag made of the first key byte and removes it again when it
    matches, the "MAC" and the "digest" give 32 bytes taken from their
    input. *)

Module TestPlatform.

Definition fit32 (l : list byte) : list byte := take 32 (l ++ repeat x00%byte 32).

Definition tag (key : list byte) : list byte :=
  repeat (match key with b :: _ => b | [] => x00%byte end) 16.

Definition seal (key iv data : list byte) : list byte := data ++ tag key.

Definition unseal (key iv data : list byte) : option (list byte) :=
  let n := (length data - 16)%nat in
  if decide (drop n data = tag key /\ 16 <= length data)%nat
  then Some (take n data) else None.

#[global] Instance platform : WebPlatform := {|
  CryptoKey := list byte;
  TextEncoder_encode := list_byte_of_string;
  TextDecoder_decode := string_of_list_byte;
  AES_GCM_encrypt := seal;
  AES_GCM_decrypt := unseal;
  HMAC_SHA256 := fun key data => fit32 (key ++ data);
  SHA256 := fun data => fit32 (rev data)
|}.

(** A clock stuck at [t], a random source yielding byte [b], and a store
    that rejects exactly the effects listed. *)
Definition oracle (t : Z) (b : byte) (failing : list nat) : Runtime.Oracle :=
  {| Runtime.clock := fun _ => t;
     Runtime.entropy := fun _ _ => b;
     Runtime.rejects := fun n => bool_decide (n ∈ failing) |}.

End TestPlatform.

(** ** Notions used in the statements *)

Module Notions.
Import Worker Runtime.

(** An oracle whose clock always reads [now]. *)
Definition at_time (now : Z) : Oracle :=
  {| clock := fun _ => now; entropy := fun _ _ => x00%byte; rejects := fun _ => false |}.

Definition fresh : World := {| store := ∅; tick := 0 |}.

(** The verdict of [validateCSRFToken] when [Date.now()] reads [now]. *)
Definition validates_at `{WebPlatform} (token secret : string) (now : Z) : bool :=
  match fst (run (at_time now) (validateCSRFToken token secret) fresh) with
  | Returned b => b
  | Threw => false
  end.

(** The token that [generateCSRFToken] returns when the clock reads [t]. *)
Definition issued `{WebPlatform} (secret : string) (t : Z) : string :=
  toString t +:+ "." +:+ signatureHex secret (toString t).

(** The decimal digits of a numeral, most significant first. *)
Fixpoint digits_of (d : Decimal.uint) : list Z :=
  match d with
  | Decimal.Nil => []
  | Decimal.D0 r => 0%Z :: digits_of r
  | Decimal.D1 r => 1%Z :: digits_of r
  | Decimal.D2 r => 2%Z :: digits_of r
  | Decimal.D3 r => 3%Z :: digits_of r
  | Decimal.D4 r => 4%Z :: digits_of r
  | Decimal.D5 r => 5%Z :: digits_of r
  | Decimal.D6 r => 6%Z :: digits_of r
  | Decimal.D7 r => 7%Z :: digits_of r
  | Decimal.D8 r => 8%Z :: digits_of r
  | Decimal.D9 r => 9%Z :: digits_of r
  end.

(** The request of a retrieval of [secretId] presenting [token]. *)
Definition retrieval (secretId token : string) : option RetrieveSecretRequest :=
  Some {| retrieve_secretId := Some secretId; retrieve_csrfToken := Some token |}.

(** An error response: not found, exhausted, or a refused request. *)
Definition refused (r : outcome Response) : Prop :=
  exists st msg, r = Returned (json st (ErrorBody msg)) /\
                 (st = 400 \/ st = 403 \/ st = 404 \/ st = 410)%Z.

(** The number [n] of further views that the stored state grants under the
    limit [m]: none when the key is absent, else [m] minus the stored count
    of a record whose limit is [m]. *)
Definition views_left (m : Z) (key : string) (w : World) (n : Z) : Prop :=
  match store w !! key with
  | None => n = 0%Z
  | Some e =>
      exists d v, kv_value e = Json d /\
                  (maxViews d == inject_Z m)%Q /\
                  (viewCount d == inject_Z v)%Q /\
                  n = Z.max 0 (m - v)
  end.

(** The handlers of a list of retrieve requests. *)
Definition retrievals `{WebPlatform} (env : Env) (reqs : list RetrieveSecretRequest)
    : list (prog Response) :=
  map (fun data => handleRetrieveSecret (Some data) env) reqs.

(** What is left of a retrieval once its read has returned the record [d]
    with views to spare: the write of the incremented record, or the delete
    when this view is the last, then the response. *)
Definition write_back (key : string) (d : SecretData) : prog Response :=
  let d' := {| encryptedData := encryptedData d;
               maxViews := maxViews d;
               viewCount := (viewCount d + 1)%Q;
               createdAt := createdAt d |} in
  bind (if Qle_bool (maxViews d') (viewCount d')
        then SECRETS_KV_delete key
        else SECRETS_KV_put key (JSON_stringify d') None)
       (fun _ =>
          Ret (json 200
                 (SecretBody (encryptedData d') (viewCount d') (maxViews d')
                    (Qle_bool (maxViews d') (viewCount d')) (createdAt d')))).

(** The response of a retrieval that read the record [d]. *)
Definition envelope_response (d : SecretData) : Response :=
  json 200 (SecretBody (encryptedData d) (viewCount d + 1) (maxViews d)
              (Qle_bool (maxViews d) (viewCount d + 1)) (createdAt d)).

(** The schedule of [n] calls in flight together in which every call
    checks its token and reads the store before any call writes. *)
Definition reads_before_writes (n : nat) : list nat :=
  flat_map (fun i => [i; i]) (seq 0 n) ++ seq 0 n.

End Notions.

(** ** Concrete data for the examples *)

Module Fixtures.
Import Worker Runtime Notions.

Definition env : Env := {| CSRF_SECRET := "s" |}.

(** The token that [generateCSRFToken] issues at time 1000 on the test
    platform. *)
Definition token : string :=
  Eval vm_compute in
    match fst (run (TestPlatform.oracle 1000 x01%byte [])
                 (generateCSRFToken (CSRF_SECRET env)) fresh) with
    | Returned t => t
    | Threw => EmptyString
    end.

Definition secretId : string := "abc".

Definition key : string := Eval vm_compute in hashSecretId secretId.

Definition record (limit count : Q) : SecretData :=
  {| encryptedData := "ENVELOPE"; maxViews := limit; viewCount := count;
     createdAt := 1000 |}.

(** A store holding one record for [secretId]. *)
Definition holding (limit count : Q) : World :=
  {| store := {[ key := {| kv_value := Json (record limit count);
                           kv_expirationTtl := Some 3600%Q |} ]};
     tick := 0 |}.

Definition request : RetrieveSecretRequest :=
  {| retrieve_secretId := Some secretId; retrieve_csrfToken := Some token |}.

End Fixtures.
(** ** The text codec on JavaScript strings

    The plaintext of a secret is an arbitrary JavaScript string.  Such a
    string is a sequence of UTF-16 code units; [TextEncoder] and
    [TextDecoder] are the UTF-8 encoder and decoder of the Encoding
    Standard, written out here on code units and bytes as numbers. *)

Module JsText.

(** A JavaScript string: its code units, each below 65536. *)
Definition text : Type := list N.

Definition code_units (s : text) : Prop := Forall (fun u => (u < 65536)%N) s.

(** Leading surrogates D800..DBFF and trailing surrogates DC00..DFFF. *)
Definition is_lead (u : N) : bool := ((55296 <=? u) && (u <=? 56319))%N.
Definition is_trail (u : N) : bool := ((56320 <=? u) && (u <=? 57343))%N.

(** The scalar values that the encoder reads from a string: a surrogate
    pair gives its code point, a surrogate without its partner gives
    U+FFFD. *)
Fixpoint scalar_values (s : text) : list N :=
  match s with
  | [] => []
  | u :: r =>
      if is_lead u then
        match r with
        | l :: r' =>
            if is_trail l
            then (65536 + (u - 55296) * 1024 + (l - 56320))%N :: scalar_values r'
            else 65533%N :: scalar_values r
        | [] => [65533%N]
        end
      else if is_trail u then 65533%N :: scalar_values r
      else u :: scalar_values r
  end.

(** The UTF-8 bytes of a scalar value. *)
Definition utf8_of (c : N) : list N :=
  if (c <? 128)%N then [c]
  else if (c <? 2048)%N then [192 + c / 64; 128 + c mod 64]%N
  else if (c <? 65536)%N
  then [224 + c / 4096; 128 + (c / 64) mod 64; 128 + c mod 64]%N
  else [240 + c / 262144; 128 + (c / 4096) mod 64; 128 + (c / 64) mod 64;
        128 + c mod 64]%N.

Definition to_byte (n : N) : byte :=
  match Byte.of_N n with Some b => b | None => x00%byte end.

(** [new TextEncoder().encode(s)] *)
Definition TextEncoder_encode (s : text) : list byte :=
  map to_byte (flat_map utf8_of (scalar_values s)).

(** The state of the UTF-8 decoder: the code point under construction,
    the number of continuation bytes still expected, and the bounds on the
    next byte. *)
Record decoder := {
  code_point : N;
  bytes_expected : nat;
  lower_boundary : N;
  upper_boundary : N
}.

Definition initial : decoder :=
  {| code_point := 0; bytes_expected := 0; lower_boundary := 128;
     upper_boundary := 191 |}.

(** A byte read while no sequence is open: the code points put out and
    the next state. *)
Definition first_byte (b : N) : list N * decoder :=
  if (b <=? 127)%N then ([b], initial)
  else if ((194 <=? b) && (b <=? 223))%N
  then ([], {| code_point := b mod 32; bytes_expected := 1;
               lower_boundary := 128; upper_boundary := 191 |})
  else if ((224 <=? b) && (b <=? 239))%N
  then ([], {| code_point := b mod 16; bytes_expected := 2;
               lower_boundary := if (b =? 224)%N then 160 else 128;
               upper_boundary := if (b =? 237)%N then 159 else 191 |})
  else if ((240 <=? b) && (b <=? 244))%N
  then ([], {| code_point := b mod 8; bytes_expected := 3;
               lower_boundary := if (b =? 240)%N then 144 else 128;
               upper_boundary := if (b =? 244)%N then 143 else 191 |})
  else ([65533%N], initial).

(** One step of the decoder.  A byte outside the bounds ends the open
    sequence with U+FFFD and is then read again as a first byte. *)
Definition decode_byte (st : decoder) (b : N) : list N * decoder :=
  match bytes_expected st with
  | O => first_byte b
  | S k =>
      if ((lower_boundary st <=? b) && (b <=? upper_boundary st))%N
      then
        let cp := (code_point st * 64 + b mod 64)%N in
        match k with
        | O => ([cp], initial)
        | S _ => ([], {| code_point := cp; bytes_expected := k;
                         lower_boundary := 128; upper_boundary := 191 |})
        end
      else
        let '(out, st') := first_byte b in (65533%N :: out, st')
  end.

Fixpoint decode_from (st : decoder) (bytes : list N) : list N :=
  match bytes with
  | [] => match bytes_expected st with O => [] | S _ => [65533%N] end
  | b :: r =>
      let '(out, st') := decode_byte st b in
      out ++ decode_from st' r
  end.

(** With [ignoreBOM] false, a first code point U+FEFF is left out. *)
Definition drop_bom (cs : list N) : list N :=
  match cs with
  | c :: r => if (c =? 65279)%N then r else cs
  | [] => []
  end.

(** The code units of a scalar value. *)
Definition utf16_of (c : N) : list N :=
  if (c <? 65536)%N then [c]
  else [55296 + (c - 65536) / 1024; 56320 + (c - 65536) mod 1024]%N.

(** [new TextDecoder().decode(bytes)] *)
Definition TextDecoder_decode (bytes : list byte) : text :=
  flat_map utf16_of (drop_bom (decode_from initial (map Byte.to_N bytes))).

(** A string in which every surrogate is half of a pair. *)
Fixpoint well_formed (s : text) : bool :=
  match s with
  | [] => true
  | u :: r =>
      if is_lead u then
        match r with
        | l :: r' => is_trail l && well_formed r'
        | [] => false
        end
      else negb (is_trail u) && well_formed r
  end.

(** The string starts with U+FEFF. *)
Definition starts_with_bom (s : text) : bool :=
  match s with
  | u :: _ => (u =? 65279)%N
  | [] => false
  end.

(** A Unicode scalar value. *)
Definition scalar (c : N) : Prop :=
  (c < 1114112)%N /\ ~ (55296 <= c <= 57343)%N.

End JsText.

(** ** frontend/crypto.js: encrypt and decrypt of a secret

    The class [WebPlatform] leaves the text codec open, on strings of
    code units below 256, which is what the identifiers and tokens of the
    worker are.  The plaintext of a secret is any JavaScript string: here
    [encrypt] and [decrypt] are taken at that type, with the codec of
    [JsText]. *)

Module SecretShareCryptoText.
Import SecretShareCrypto.

Section WithPlatform.
Context `{WebPlatform}.

Definition ivLength : nat := 12.

(** [encrypt(plaintext, key)] *)
Definition encrypt (source : nat -> byte) (plaintext : JsText.text)
    (key : CryptoKey) : string :=
  let iv := getRandomValues source ivLength in
  let encodedText := JsText.TextEncoder_encode plaintext in
  let encrypted := AES_GCM_encrypt key iv encodedText in
  let combined := iv ++ encrypted in
  arrayBufferToBase64 combined.

(** [decrypt(encryptedData, key)]; [None] is the
    'Decryption failed. Invalid key or corrupted data.' error, thrown
    for every exception caught in the body. *)
Definition decrypt (encryptedData : string) (key : CryptoKey)
    : option JsText.text :=
  match base64ToArrayBuffer encryptedData with
  | None => None
  | Some combined =>
      let iv := take ivLength combined in
      let ciphertext := drop ivLength combined in
      match AES_GCM_decrypt key iv ciphertext with
      | Some decrypted => Some (JsText.TextDecoder_decode decrypted)
      | None => None
      end
  end.

End WithPlatform.
End SecretShareCryptoText.

(** ** src/worker.ts: the [fetch] entry point *)

Module Router.
Import Worker.

(** The bindings of the worker: those that the handlers read, and the
    optional list of origins. *)
Record FetchEnv := {
  bindings : Env;
  ALLOWED_ORIGINS : option string
}.

(** The JSON document of a request body; an absent field is [None]. *)
Record RequestBody := {
  body_encryptedData : option string;
  body_maxViews : option Q;
  body_expirationHours : option Q;
  body_csrfToken : option string;
  body_secretId : option string
}.

(** What [fetch] reads of a request: the method, the path of its URL, the
    [Origin] header ([None] when the header is absent) and the outcome of
    [request.json()] ([None] when it throws). *)
Record Request := {
  method : string;
  pathname : string;
  origin : option string;
  request_json : option RequestBody
}.

Definition as_create (b : RequestBody) : CreateSecretRequest :=
  {| create_encryptedData := body_encryptedData b;
     create_maxViews := body_maxViews b;
     create_expirationHours := body_expirationHours b;
     create_csrfToken := body_csrfToken b |}.

Definition as_retrieve (b : RequestBody) : RetrieveSecretRequest :=
  {| retrieve_secretId := body_secretId b;
     retrieve_csrfToken := body_csrfToken b |}.

Inductive Content :=
| NoContent
| PlainText (text : string)
| HealthBody (timestamp : Z)
| JsonBody (b : Body).

(** A response with the headers that [fetch] sets. *)
Record Reply := {
  reply_status : Z;
  allow_origin : string;
  content_type : option string;
  content : Content
}.

(** [s.trim()], among code units below 256. *)
Definition trim (s : string) : string :=
  string_of_list_ascii
    (rev (skip_whitespace (rev (skip_whitespace (list_ascii_of_string s))))).

(** [list.includes(x)] *)
Definition includes (x : string) (l : list string) : bool :=
  existsb (String.eqb x) l.

(** The handlers' responses carry the CORS headers and the JSON type. *)
Definition with_cors (allow : string) (r : Response) : Reply :=
  {| reply_status := status r;
     allow_origin := allow;
     content_type := Some "application/json";
     content := JsonBody (body r) |}.

(** [env.ALLOWED_ORIGINS?.split(',').map(o => o.trim()) || ['*']] *)
Definition allowedOrigins (env : FetchEnv) : list string :=
  match ALLOWED_ORIGINS env with
  | Some s => map trim (Js.split_on "," s)
  | None => ["*"]
  end.

Definition isOriginAllowed (request : Request) (env : FetchEnv) : bool :=
  includes "*" (allowedOrigins env)
  || (negb (falsy (origin request))
      && includes (field (origin request)) (allowedOrigins env)).

(** The value of [Access-Control-Allow-Origin]. *)
Definition allowOriginHeader (request : Request) (env : FetchEnv) : string :=
  if isOriginAllowed request env
  then (if falsy (origin request) then "*" else field (origin request))
  else "null".

(** The string that the [switch] compares. *)
Definition route (request : Request) : string :=
  method request +:+ " " +:+ pathname request.

Section WithPlatform.
Context `{WebPlatform}.

(** [fetch(request, env)].  The handlers' promises are returned without
    being awaited, so the [catch] around the routes does not see their
    rejection: a handler that throws makes [fetch] throw.  Nothing else in
    the [try] block throws. *)
Definition fetch (request : Request) (env : FetchEnv) : prog Reply :=
  let allow := allowOriginHeader request env in
  if String.eqb (method request) "OPTIONS"
  then mret {| reply_status := 200; allow_origin := allow;
               content_type := None; content := NoContent |}
  else if negb (isOriginAllowed request env) && negb (falsy (origin request))
  then mret (with_cors allow (json 403 (ErrorBody "Origin not allowed")))
  else if String.prefix "/api/" (pathname request)
  then
    if String.eqb (route request) "GET /api/csrf-token"
    then
      r ← handleGetCSRFToken (bindings env);
      mret (with_cors allow r)
    else if String.eqb (route request) "POST /api/create"
    then
      r ← handleCreateSecret (as_create <$> request_json request) (bindings env);
      mret (with_cors allow r)
    else if String.eqb (route request) "POST /api/retrieve"
    then
      r ← handleRetrieveSecret (as_retrieve <$> request_json request) (bindings env);
      mret (with_cors allow r)
    else if String.eqb (route request) "GET /api/health"
    then
      now ← Date_now;
      mret {| reply_status := 200; allow_origin := allow;
              content_type := Some "application/json";
              content := HealthBody now |}
    else mret (with_cors allow (json 404 (ErrorBody "API endpoint not found")))
  else mret {| reply_status := 404; allow_origin := allow;
               content_type := Some "text/plain";
               content := PlainText "Page not found" |}.

End WithPlatform.

End Router.

(** ** frontend/crypto.js: keys, passwords and random strings *)

(** The key operations of WebCrypto that the class calls besides
    encryption and decryption. *)
Class KeyPlatform `{WebPlatform} := {
  (** [crypto.subtle.deriveKey] with PBKDF2 and SHA-256 from the key
      material imported from the encoded password: material, salt,
      iterations. *)
  PBKDF2_deriveKey : list byte -> list byte -> N -> CryptoKey;
  (** [crypto.subtle.exportKey('raw', key)]; [None] when the promise
      rejects. *)
  exportKey_raw : CryptoKey -> option (list byte);
  (** [crypto.subtle.importKey('raw', keyData, {name: 'AES-GCM', length:
      256}, false, ['encrypt', 'decrypt'])]; [None] when the promise
      rejects. *)
  importKey_raw : list byte -> option CryptoKey
}.

Module SecretShareCryptoKeys.
Import SecretShareCrypto SecretShareCryptoOps.

(** The errors that leave the functions below. *)
Inductive failure :=
| InvalidCharacterError
| DecryptionFailed
| WebCryptoUnavailable
| KeyOperationError
| NoCharacterType
| QuotaExceededError.

Inductive attempt (A : Type) :=
| Done (a : A)
| Failed (e : failure).
Arguments Done {A} a.
Arguments Failed {A} e.

(** What [isWebCryptoAvailable] looks at. *)
Record Browser := {
  has_crypto : bool;
  has_subtle : bool;
  protocol : string;
  hostname : string
}.

(** [isWebCryptoAvailable()] *)
Definition isWebCryptoAvailable (b : Browser) : bool :=
  has_crypto b && has_subtle b
  && (String.eqb (protocol b) "https:" || String.eqb (hostname b) "localhost").

(** [crypto.getRandomValues(new Uint8Array(n))] for any length; [None]
    when the call fails.  The platform refuses more than 65536 bytes with
    its quota error; for a length beyond what the engine allocates,
    [new Uint8Array(n)] fails before that. *)
Definition getRandomValues_checked (source : nat -> byte) (n : nat)
    : option (list byte) :=
  if (N.of_nat n <=? 65536)%N then Some (getRandomValues source n) else None.

(** [generateRandomId(length)]; the failure stands for either error of
    the draw. *)
Definition generateRandomId (source : nat -> byte) (length : nat) : attempt string :=
  match getRandomValues_checked source length with
  | Some bytes => Done (Worker.hex_of_bytes bytes)
  | None => Failed QuotaExceededError
  end.

(** The [options] of [generatePassword]. *)
Record PasswordOptions := {
  includeUppercase : bool;
  includeLowercase : bool;
  includeNumbers : bool;
  includeSymbols : bool;
  excludeSimilar : bool
}.

(** The options when none is given. *)
Definition defaultOptions : PasswordOptions :=
  {| includeUppercase := true; includeLowercase := true; includeNumbers := true;
     includeSymbols := true; excludeSimilar := true |}.

Definition charset_of (options : PasswordOptions) : string :=
  let charset := EmptyString in
  let charset :=
    if includeUppercase options
    then charset +:+ (if excludeSimilar options then "ABCDEFGHJKMNPQRSTUVWXYZ"
                      else "ABCDEFGHIJKLMNOPQRSTUVWXYZ")
    else charset in
  let charset :=
    if includeLowercase options
    then charset +:+ (if excludeSimilar options then "abcdefghijkmnpqrstuvwxyz"
                      else "abcdefghijklmnopqrstuvwxyz")
    else charset in
  let charset :=
    if includeNumbers options
    then charset +:+ (if excludeSimilar options then "23456789" else "0123456789")
    else charset in
  if includeSymbols options
  then charset +:+ "!@#$%^&*()_+-=[]{}|;:,.<>?"
  else charset.

(** [charset[b % charset.length]], for a charset that is not empty. *)
Definition pick (charset : string) (b : byte) : ascii :=
  nth (N.to_nat (Byte.to_N b) mod String.length charset)
    (list_ascii_of_string charset) "000"%char.

(** [generatePassword(length, options)] *)
Definition generatePassword (source : nat -> byte) (length : nat)
    (options : PasswordOptions) : attempt string :=
  let charset := charset_of options in
  if String.eqb charset EmptyString then Failed NoCharacterType
  else
    match getRandomValues_checked source length with
    | None => Failed QuotaExceededError
    | Some randomBytes =>
        Done (string_of_list_ascii (map (pick charset) randomBytes))
    end.

Section WithPlatform.
Context `{KeyPlatform}.

Definition pbkdf2Iterations : N := 100000.

(** [deriveKeyFromPassword(password, salt)]; [salt] is [None] for the
    default [null], and a typed array is truthy whatever its length. *)
Definition deriveKeyFromPassword (source : nat -> byte) (password : string)
    (salt : option (list byte)) : CryptoKey * list byte :=
  let salt :=
    match salt with
    | Some given => given
    | None => getRandomValues source 32
    end in
  let keyMaterial := TextEncoder_encode password in
  let key := PBKDF2_deriveKey keyMaterial salt pbkdf2Iterations in
  (key, salt).

(** [exportKeyToBase64(key)] *)
Definition exportKeyToBase64 (key : CryptoKey) : attempt string :=
  match exportKey_raw key with
  | Some exported => Done (arrayBufferToBase64 exported)
  | None => Failed KeyOperationError
  end.

(** [importKeyFromBase64(base64urlKey)] *)
Definition importKeyFromBase64 (base64urlKey : string) : attempt CryptoKey :=
  match base64ToArrayBuffer base64urlKey with
  | None => Failed InvalidCharacterError
  | Some keyData =>
      match importKey_raw keyData with
      | Some key => Done key
      | None => Failed KeyOperationError
      end
  end.

(** [encryptWithPassword(plaintext, password)]: the pair of
    [encryptedData] and [salt].  The two random sources are those of the
    two calls of [crypto.getRandomValues], for the salt and for the
    nonce. *)
Definition encryptWithPassword (saltSource ivSource : nat -> byte)
    (plaintext password : string) : string * string :=
  let '(key, salt) := deriveKeyFromPassword saltSource password None in
  let encryptedData := encrypt ivSource plaintext key in
  (encryptedData, arrayBufferToBase64 salt).

(** [decryptWithPassword(encryptedData, password, saltBase64)] *)
Definition decryptWithPassword (source : nat -> byte)
    (encryptedData password saltBase64 : string) : attempt string :=
  match base64ToArrayBuffer saltBase64 with
  | None => Failed InvalidCharacterError
  | Some salt =>
      let '(key, _) := deriveKeyFromPassword source password (Some salt) in
      match decrypt encryptedData key with
      | Some plaintext => Done plaintext
      | None => Failed DecryptionFailed
      end
  end.

(** [encryptSecret(secret)]: the pair of [encryptedData] and [key].
    [generated] is the key that [generateKey()] yields. *)
Definition encryptSecret (browser : Browser) (generated : CryptoKey)
    (source : nat -> byte) (secret : string) : attempt (string * string) :=
  if negb (isWebCryptoAvailable browser) then Failed WebCryptoUnavailable
  else
    let key := generated in
    let encryptedData := encrypt source secret key in
    match exportKeyToBase64 key with
    | Done keyBase64 => Done (encryptedData, keyBase64)
    | Failed e => Failed e
    end.

(** [decryptSecret(encryptedData, keyBase64)] *)
Definition decryptSecret (browser : Browser) (encryptedData keyBase64 : string)
    : attempt string :=
  if negb (isWebCryptoAvailable browser) then Failed WebCryptoUnavailable
  else
    match importKeyFromBase64 keyBase64 with
    | Failed e => Failed e
    | Done key =>
        match decrypt encryptedData key with
        | Some plaintext => Done plaintext
        | None => Failed DecryptionFailed
        end
    end.

(** [encryptSecretWithPassword(secret, password)] *)
Definition encryptSecretWithPassword (browser : Browser)
    (saltSource ivSource : nat -> byte) (secret password : string)
    : attempt (string * string) :=
  if negb (isWebCryptoAvailable browser) then Failed WebCryptoUnavailable
  else Done (encryptWithPassword saltSource ivSource secret password).

(** [decryptSecretWithPassword(encryptedData, password, salt)] *)
Definition decryptSecretWithPassword (browser : Browser) (source : nat -> byte)
    (encryptedData password salt : string) : attempt string :=
  if negb (isWebCryptoAvailable browser) then Failed WebCryptoUnavailable
  else decryptWithPassword source encryptedData password salt.

End WithPlatform.

End SecretShareCryptoKeys.

(** Stand-ins for the key operations on the test platform: a key is its
    raw bytes. *)
Module TestKeys.

#[global] Instance keys : @KeyPlatform TestPlatform.platform := {|
  PBKDF2_deriveKey := fun material salt _ => TestPlatform.fit32 (material ++ salt);
  exportKey_raw := fun key => Some key;
  importKey_raw := fun keyData => Some keyData
|}.

Definition browser : SecretShareCryptoKeys.Browser :=
  {| SecretShareCryptoKeys.has_crypto := true;
     SecretShareCryptoKeys.has_subtle := true;
     SecretShareCryptoKeys.protocol := "https:";
     SecretShareCryptoKeys.hostname := "example.org" |}.

End TestKeys.

(** ** The frontend application (app.js) *)

Module App.
Import Worker Router.

(** *** Requests *)

(** The [options] that a caller hands to [apiCall]. *)
Record CallOptions := {
  call_method : string;
  call_body : RequestBody
}.

(** What [apiCall] hands to the platform's [fetch]. *)
Record Outgoing := {
  out_path : string;
  out_method : string;
  out_headers : list (string * string);
  out_body : RequestBody
}.

(** The request that [apiCall(endpoint, options)] sends once it holds the
    token [csrfToken]: the caller's options, with the token in a header. *)
Definition apiCall_request (endpoint : string) (options : CallOptions)
    (csrfToken : string) : Outgoing :=
  {| out_path := endpoint;
     out_method := call_method options;
     out_headers := [("Content-Type", "application/json");
                     ("X-CSRF-Token", csrfToken)];
     out_body := call_body options |}.

(** The request as the worker reads it: the browser adds the [Origin]
    header of the page, and [fetch] in the worker looks at the method, the
    path, that header and the body. *)
Definition arriving (page_origin : option string) (r : Outgoing) : Request :=
  {| method := out_method r;
     pathname := out_path r;
     origin := page_origin;
     request_json := Some (out_body r) |}.

(** [requestData] of the create form, for the whole numbers chosen in the
    form. *)
Definition create_requestData (encryptedData : string)
    (maxViews expirationHours : Z) : RequestBody :=
  {| body_encryptedData := Some encryptedData;
     body_maxViews := Some (inject_Z maxViews);
     body_expirationHours := Some (inject_Z expirationHours);
     body_csrfToken := None;
     body_secretId := None |}.

(** The body that [retrieveSecret] sends. *)
Definition retrieve_requestData (secretId : string) : RequestBody :=
  {| body_encryptedData := None;
     body_maxViews := None;
     body_expirationHours := None;
     body_csrfToken := None;
     body_secretId := Some secretId |}.

(** The call of the create form and the call of [retrieveSecret]. *)
Definition create_call (encryptedData : string) (maxViews expirationHours : Z)
    (csrfToken : string) : Outgoing :=
  apiCall_request "/api/create"
    {| call_method := "POST";
       call_body := create_requestData encryptedData maxViews expirationHours |}
    csrfToken.

Definition retrieve_call (secretId csrfToken : string) : Outgoing :=
  apiCall_request "/api/retrieve"
    {| call_method := "POST"; call_body := retrieve_requestData secretId |}
    csrfToken.

(** *** Links *)

(** [s.slice(n)] *)
Definition slice (n : nat) (s : string) : string :=
  string_of_list_ascii (drop n (list_ascii_of_string s)).

(** [window.location.hash] for the page address [url]: the part from the
    first [#] on, empty when nothing follows the [#]. *)
Fixpoint location_hash (url : string) : string :=
  match url with
  | EmptyString => EmptyString
  | String c r =>
      if Ascii.eqb c "#"
      then match r with EmptyString => EmptyString | _ => url end
      else location_hash r
  end.

(** [generateSecretUrl(secretId, encryptionKey, isPasswordBased)], with
    [baseUrl] the origin and path of the page. *)
Definition generateSecretUrl (baseUrl secretId : string)
    (encryptionKey : option string) (isPasswordBased : bool) : string :=
  if isPasswordBased || falsy encryptionKey
  then baseUrl +:+ "#s/" +:+ secretId
  else baseUrl +:+ "#s/" +:+ secretId +:+ "/" +:+ field encryptionKey.

(** [handleNavigation()]: [None] stands for the create view, otherwise the
    result holds the arguments given to [retrieveSecret]. *)
Definition handleNavigation (window_location_hash : string)
    : option (string * option string) :=
  let hash := slice 1 window_location_hash in
  if String.prefix "s/" hash
  then
    let parts := Js.split_on "/" (slice 2 hash) in
    Some (nth 0 parts EmptyString, nth_error parts 1)
  else None.

(** *** Keys in links *)

(** The character class [[A-Za-z0-9+/]]. *)
Definition is_base64_char (c : ascii) : bool :=
  let n := N_of_ascii c in
  ((65 <=? n) && (n <=? 90))%N || ((97 <=? n) && (n <=? 122))%N
  || ((48 <=? n) && (n <=? 57))%N || (n =? 43)%N || (n =? 47)%N.

Fixpoint skip_class (l : list ascii) : list ascii :=
  match l with
  | c :: r => if is_base64_char c then skip_class r else l
  | [] => []
  end.

(** [/^[A-Za-z0-9+/]+=*$/.test(s)]: one class character or more, then
    nothing but [=] to the end. *)
Definition base64Pattern_test (s : string) : bool :=
  match list_ascii_of_string s with
  | c :: r => is_base64_char c && forallb (Ascii.eqb "=") (skip_class r)
  | [] => false
  end.

(** [isValidEncryptionKey(key)]; [None] is [undefined]. *)
Definition isValidEncryptionKey (key : option string) : bool :=
  match key with
  | None => false
  | Some k =>
      Js.truthy k && (32 <=? String.length k)%nat && base64Pattern_test k
  end.

(** [hasKey] of [determineEncryptionMode]. *)
Definition hasKey (encryptionKey : option string) : bool :=
  match encryptionKey with
  | None => false
  | Some k => Js.truthy k && (0 <? String.length (trim k))%nat
  end.

(** The guard of [retrieveSecret] that throws 'The encryption key in the
    URL appears to be invalid or corrupted.'; it comes before the call of
    the API. *)
Definition key_refused (encryptionKey : option string) : bool :=
  hasKey encryptionKey && negb (isValidEncryptionKey encryptionKey).

(** *** The view counter *)

(** The text of [views-remaining]: [metaData.maxViews - metaData.viewCount]. *)
Definition views_remaining (metaData : Body) : option Q :=
  match metaData with
  | SecretBody _ viewCount maxViews _ _ => Some (maxViews - viewCount)%Q
  | _ => None
  end.

(** Whether the last-view warning is shown. *)
Definition last_view_warning (metaData : Body) : bool :=
  match metaData with
  | SecretBody _ _ _ isLastView _ => isLastView
  | _ => false
  end.

End App.

(** ** Notions used in the further statements *)

Module MoreNotions.
Import Worker Runtime Notions.


(** Two outcomes of [fetch] that differ at most in the value of the
    [Access-Control-Allow-Origin] header. *)
Definition same_answer (a b : outcome Router.Reply) : Prop :=
  match a, b with
  | Returned x, Returned y =>
      Router.reply_status x = Router.reply_status y /\
      Router.content x = Router.content y /\
      Router.content_type x = Router.content_type y
  | Threw, Threw => True
  | _, _ => False
  end.

(** Every entry of the store holds a record, as [handleCreateSecret] and
    [handleRetrieveSecret] write them. *)
Definition records_only (w : World) : Prop :=
  forall k e, store w !! k = Some e -> exists d, kv_value e = Json d.

(** A lower-case hexadecimal digit. *)
Definition is_lower_hex (c : ascii) : bool := Js.has_char c "0123456789abcdef".

(** The characters that the reduced character sets of [generatePassword]
    leave out. *)
Definition is_similar (c : ascii) : bool := Js.has_char c "ILOlo01".

(** Further table facts checked for each 6-bit value [n]: the character
    of [n] is untouched by the decoder's substitutions, and its URL-safe
    form is in the class [[A-Za-z0-9+/]] exactly when [n] is below 62, is
    [-] for 62 and [_] for 63, and is never white space. *)
Definition sextet_class_ok (n : N) : bool :=
  let c := Base64.b64char n in
  let u := Base64Notions.url c in
  Ascii.eqb (Base64Notions.unurl c) c
  && Bool.eqb (App.is_base64_char u) (n <? 62)%N
  && Bool.eqb (Ascii.eqb u "-") (n =? 62)%N
  && Bool.eqb (Ascii.eqb u "_") (n =? 63)%N
  && negb (Worker.is_js_whitespace u)
  && negb (Ascii.eqb u "=").

End MoreNotions.

(** * Facts about the model *)

(** ** Base64 *)

Module Base64Facts.
Import Base64 Base64Notions.

(** Induction on lists three elements at a time. *)
Lemma list_ind3 {A : Type} (P : list A -> Prop) :
  P [] ->
  (forall a, P [a]) ->
  (forall a b, P [a; b]) ->
  (forall a b c l, P l -> P (a :: b :: c :: l)) ->
  forall l, P l.
Proof.
  intros H0 H1 H2 H3.
  assert (Hall : forall l, P l /\ (forall a, P (a :: l)) /\ (forall a b, P (a :: b :: l))).
  { induction l as [|x l [IH0 [IH1 IH2]]]; repeat split; auto. }
  intros l. apply Hall.
Qed.

Lemma sextet_table : forallb sextet_ok (map N.of_nat (seq 0 64)) = true.
Proof. vm_compute. reflexivity. Qed.

Lemma sextet_ok_lt (n : N) : (n < 64)%N -> sextet_ok n = true.
Proof.
  intros Hn.
  pose proof sextet_table as Ht.
  rewrite forallb_forall in Ht. apply Ht.
  apply in_map_iff. exists (N.to_nat n). split; [lia|].
  apply in_seq. lia.
Qed.

Lemma sextet_facts (n : N) :
  (n < 64)%N ->
  b64index (b64char n) = Some n /\
  b64char n <> pad_char /\
  url (b64char n) <> pad_char /\
  unurl (url (b64char n)) = b64char n /\
  is_ascii_whitespace (b64char n) = false.
Proof.
  intros Hn. pose proof (sextet_ok_lt n Hn) as Hok.
  unfold sextet_ok in Hok.
  repeat (apply andb_prop in Hok; destruct Hok as [Hok ?]).
  destruct (b64index (b64char n)) as [m|] eqn:Hi; [|discriminate].
  apply N.eqb_eq in Hok. subst m.
  repeat split; auto.
  - apply Ascii.eqb_neq. now apply negb_true_iff.
  - apply Ascii.eqb_neq. now apply negb_true_iff.
  - now apply Ascii.eqb_eq.
  - now apply negb_true_iff.
Qed.

(** The URL-safe character of a 6-bit value is none of [=], [+], [/]. *)
Lemma sextet_url_safe (n : N) :
  (n < 64)%N ->
  Ascii.eqb (url (b64char n)) "=" = false /\
  Ascii.eqb (url (b64char n)) "+" = false /\
  Ascii.eqb (url (b64char n)) "/" = false.
Proof.
  intros Hn. pose proof (sextet_ok_lt n Hn) as Hok.
  unfold sextet_ok in Hok.
  repeat (apply andb_prop in Hok; destruct Hok as [Hok ?]).
  repeat split; now apply negb_true_iff.
Qed.

Ltac div_lia := zify; Z.to_euclidean_division_equations; lia.

Ltac each_small := repeat (apply List.Forall_cons; [cbv beta; div_lia|]); try apply List.Forall_nil.

Lemma sextets_small (l : list N) : small 256 l -> small 64 (sextets_of l).
Proof.
  unfold small. induction l using list_ind3; intros Hl.
  - constructor.
  - inversion_clear Hl. cbn [sextets_of]. each_small.
  - inversion_clear Hl as [|? ? ? Hb]. inversion_clear Hb.
    cbn [sextets_of]. each_small.
  - inversion_clear Hl as [|? ? ? Hb]. inversion_clear Hb as [|? ? ? Hc].
    inversion_clear Hc.
    cbn [sextets_of app]. each_small. now apply IHl.
Qed.

Lemma octets_sextets (l : list N) : small 256 l -> octets_of (sextets_of l) = l.
Proof.
  unfold small. induction l using list_ind3; intros Hl.
  - reflexivity.
  - inversion_clear Hl. cbn [sextets_of octets_of]. f_equal. div_lia.
  - inversion_clear Hl as [|? ? ? Hb]. inversion_clear Hb.
    cbn [sextets_of octets_of]. repeat f_equal; div_lia.
  - inversion_clear Hl as [|? ? ? Hb]. inversion_clear Hb as [|? ? ? Hc].
    inversion_clear Hc.
    cbn [sextets_of octets_of app]. rewrite IHl by assumption.
    repeat f_equal; div_lia.
Qed.

(** How the number of sextets follows the number of bytes. *)
Lemma sextets_shape (l : list N) :
  (length l mod 3 = 0 /\ length (sextets_of l) mod 4 = 0)%nat \/
  (length l mod 3 = 1 /\ length (sextets_of l) mod 4 = 2)%nat \/
  (length l mod 3 = 2 /\ length (sextets_of l) mod 4 = 3)%nat.
Proof.
  induction l using list_ind3; cbn [sextets_of length app].
  - left. split; reflexivity.
  - right. left. split; reflexivity.
  - right. right. split; reflexivity.
  - change (S (S (S (length l)))) with (3 + length l)%nat.
    change (S (S (S (S (length (sextets_of l)))))) with (4 + length (sextets_of l))%nat.
    destruct IHl as [[? ?]|[[? ?]|[? ?]]];
      [left|right; left|right; right]; split; div_lia.
Qed.

Lemma replace_url (l : list ascii) :
  Js.replace_char "/" "_" (Js.replace_char "+" "-" l) = map url l.
Proof. unfold Js.replace_char. rewrite map_map. reflexivity. Qed.

Lemma replace_unurl (l : list ascii) :
  Js.replace_char "_" "/" (Js.replace_char "-" "+" l) = map unurl l.
Proof. unfold Js.replace_char. rewrite map_map. reflexivity. Qed.

Lemma drop_leading_repeat (c : ascii) (n : nat) (l : list ascii) :
  Js.drop_leading c (repeat c n ++ l) = Js.drop_leading c l.
Proof.
  induction n as [|n IH]; [reflexivity|].
  cbn [repeat app Js.drop_leading]. now rewrite Ascii.eqb_refl.
Qed.

Lemma drop_leading_head (c : ascii) (l : list ascii) :
  Forall (fun x => x <> c) l -> Js.drop_leading c l = l.
Proof.
  intros Hl. destruct l as [|x r]; [reflexivity|].
  inversion_clear Hl as [|? ? Hx _]. cbn [Js.drop_leading].
  apply Ascii.eqb_neq in Hx. now rewrite Hx.
Qed.

Lemma rev_repeat {A : Type} (c : A) (n : nat) : rev (repeat c n) = repeat c n.
Proof.
  induction n as [|n IH]; [reflexivity|].
  cbn [repeat rev]. rewrite IH. symmetry. apply repeat_cons.
Qed.

Lemma strip_trailing_padding (c : ascii) (l : list ascii) (n : nat) :
  Forall (fun x => x <> c) l ->
  Js.strip_trailing c (l ++ repeat c n) = l.
Proof.
  intros Hl. unfold Js.strip_trailing.
  rewrite rev_app_distr, rev_repeat, drop_leading_repeat.
  rewrite drop_leading_head by (apply Forall_rev; exact Hl).
  apply rev_involutive.
Qed.

Lemma padding_repeat (n : nat) : padding_of n = repeat pad_char (pad_count n).
Proof.
  unfold padding_of, pad_count.
  destruct (n mod 3)%nat as [|[|[|?]]]; reflexivity.
Qed.

Lemma indices_chars (sx : list N) :
  small 64 sx -> indices (map b64char sx) = Some sx.
Proof.
  unfold small. induction 1 as [|n sx Hn _ IH]; [reflexivity|].
  cbn [map indices]. rewrite IH.
  destruct (sextet_facts n Hn) as [-> _]. reflexivity.
Qed.

Lemma chars_not_pad (sx : list N) :
  small 64 sx -> Forall (fun c => c <> pad_char) (map b64char sx).
Proof.
  unfold small. induction 1 as [|n sx Hn _ IH]; constructor; [|exact IH].
  now destruct (sextet_facts n Hn) as (_ & ? & _).
Qed.

Lemma url_chars_not_pad (sx : list N) :
  small 64 sx -> Forall (fun c => c <> pad_char) (map url (map b64char sx)).
Proof.
  unfold small. induction 1 as [|n sx Hn _ IH]; constructor; [|exact IH].
  now destruct (sextet_facts n Hn) as (_ & _ & ? & _).
Qed.

Lemma unurl_url_chars (sx : list N) :
  small 64 sx -> map unurl (map url (map b64char sx)) = map b64char sx.
Proof.
  unfold small. induction 1 as [|n sx Hn _ IH]; [reflexivity|].
  cbn [map]. rewrite IH.
  destruct (sextet_facts n Hn) as (_ & _ & _ & -> & _). reflexivity.
Qed.

Lemma filter_whitespace_chars (sx : list N) (k : nat) :
  small 64 sx ->
  filter (fun c => is_ascii_whitespace c = false) (map b64char sx ++ repeat pad_char k)
  = map b64char sx ++ repeat pad_char k.
Proof.
  unfold small. induction 1 as [|n sx Hn _ IH].
  - cbn [map app]. induction k as [|k IHk]; [reflexivity|].
    cbn [repeat]. rewrite filter_cons_True by reflexivity. now rewrite IHk.
  - cbn [map app]. destruct (sextet_facts n Hn) as (_ & _ & _ & _ & Hw).
    rewrite filter_cons_True by exact Hw. now rewrite IH.
Qed.

Lemma remove_padding_chars (l : list ascii) (k : nat) :
  Forall (fun c => c <> pad_char) l ->
  (k <= 2)%nat ->
  ((length l + k) mod 4 = 0)%nat ->
  remove_padding (l ++ repeat pad_char k) = l.
Proof.
  intros Hl Hk Hlen. unfold remove_padding.
  rewrite length_app, repeat_length, Hlen. cbn [Nat.eqb].
  rewrite rev_app_distr, rev_repeat.
  apply Forall_rev in Hl.
  destruct k as [|[|[|k]]]; [| | |lia]; cbn [repeat app].
  - rewrite app_nil_r.
    destruct (rev l) as [|x [|y r]] eqn:Hr; [reflexivity| |];
      inversion_clear Hl as [|? ? Hx _];
      apply Ascii.eqb_neq in Hx; now rewrite Hx.
  - rewrite Ascii.eqb_refl.
    destruct (rev l) as [|y r] eqn:Hr.
    + apply (f_equal (@rev ascii)) in Hr. rewrite rev_involutive in Hr.
      now subst l.
    + inversion_clear Hl as [|? ? Hy _].
      apply Ascii.eqb_neq in Hy. rewrite Hy.
      rewrite <- Hr. apply rev_involutive.
  - rewrite !Ascii.eqb_refl. apply rev_involutive.
Qed.

(** [atob] undoes [btoa]. *)
Lemma atob_btoa_list (l : list ascii) : atob_list (btoa_list l) = Some l.
Proof.
  unfold atob_list, btoa_list.
  set (codes := map N_of_ascii l).
  assert (Hcodes : small 256 codes).
  { unfold small, codes. apply Forall_map, Forall_forall.
    intros c _. apply N_ascii_bounded. }
  pose proof (sextets_small codes Hcodes) as Hsx.
  rewrite padding_repeat, filter_whitespace_chars by exact Hsx.
  assert (Hlen : length l = length codes) by (unfold codes; now rewrite length_map).
  assert (Hshape :
    (pad_count (length l) <= 2 /\
     (length (map b64char (sextets_of codes)) + pad_count (length l)) mod 4 = 0 /\
     length (map b64char (sextets_of codes)) mod 4 <> 1)%nat).
  { rewrite length_map, Hlen. unfold pad_count.
    destruct (sextets_shape codes) as [[-> ?]|[[-> ?]|[-> ?]]];
      repeat split; div_lia. }
  destruct Hshape as (Hk & Hmod & Hne).
  rewrite remove_padding_chars by (auto using chars_not_pad).
  apply Nat.eqb_neq in Hne. rewrite Hne.
  rewrite indices_chars by exact Hsx.
  rewrite octets_sextets by exact Hcodes.
  unfold codes. rewrite map_map. f_equal.
  rewrite <- (map_id l) at 2. apply map_ext. intros c.
  apply ascii_N_embedding.
Qed.
Lemma sextets_length (l : list N) :
  length (sextets_of l) = ((4 * length l + 2) / 3)%nat.
Proof.
  induction l using list_ind3; try reflexivity.
  cbn [sextets_of app length]. rewrite IHl.
  zify; Z.to_euclidean_division_equations; lia.
Qed.

Lemma remove_pad_chars (sx : list N) (k : nat) :
  small 64 sx ->
  Js.remove_char "=" (map url (map b64char sx) ++ repeat pad_char k)
  = map url (map b64char sx).
Proof.
  intros Hsx. unfold Js.remove_char. rewrite filter_app.
  assert (Hpad : filter (fun x : ascii => x <> "="%char) (repeat pad_char k) = []).
  { induction k as [|k IH]; [reflexivity|]. cbn [repeat].
    rewrite filter_cons_False by (intros Hc; now apply Hc). exact IH. }
  rewrite Hpad, app_nil_r.
  pose proof (url_chars_not_pad sx Hsx) as Hall.
  induction Hall as [|c l Hc _ IH]; [reflexivity|].
  rewrite filter_cons_True by exact Hc. now rewrite IH.
Qed.

End Base64Facts.

(** ** frontend/crypto.js *)

Module SecretShareCryptoFacts.
Import Base64 Base64Notions Base64Facts SecretShareCrypto SecretShareCryptoOps.

(** Decoding the text of a buffer gives the buffer. *)
Lemma text_form_inverse (buffer : list byte) :
  base64ToArrayBuffer (arrayBufferToBase64 buffer) = Some buffer.
Proof.
  unfold base64ToArrayBuffer, arrayBufferToBase64.
  rewrite list_ascii_of_string_of_list_ascii.
  set (binary := map ascii_of_byte buffer).
  pose proof (atob_btoa_list binary) as Hatob.
  unfold btoa_list in *.
  set (codes := map N_of_ascii binary) in *.
  assert (Hcodes : small 256 codes).
  { unfold small, codes. apply Forall_map, Forall_forall.
    intros c _. apply N_ascii_bounded. }
  pose proof (sextets_small codes Hcodes) as Hsx.
  rewrite padding_repeat in *.
  rewrite replace_url, map_app.
  assert (Hpad : map url (repeat pad_char (pad_count (length binary)))
                 = repeat pad_char (pad_count (length binary))).
  { generalize (pad_count (length binary)). intros k.
    induction k as [|k IH]; [reflexivity|]. cbn [repeat map]. now rewrite IH. }
  rewrite Hpad.
  rewrite strip_trailing_padding by (apply url_chars_not_pad; exact Hsx).
  rewrite replace_unurl, unurl_url_chars by exact Hsx.
  assert (Hrepad :
    (if (4 - length (map b64char (sextets_of codes)) mod 4 =? 4)%nat
     then map b64char (sextets_of codes)
     else map b64char (sextets_of codes)
            ++ Js.repeat_char "=" (4 - length (map b64char (sextets_of codes)) mod 4))
    = map b64char (sextets_of codes) ++ repeat pad_char (pad_count (length binary))).
  { assert (Hlen : length binary = length codes)
      by (unfold codes; now rewrite length_map).
    rewrite length_map, Hlen. unfold pad_count, Js.repeat_char.
    destruct (sextets_shape codes) as [[-> ->]|[[-> ->]|[-> ->]]]; cbn.
    - now rewrite app_nil_r.
    - reflexivity.
    - reflexivity. }
  rewrite Hrepad, Hatob.
  unfold binary. rewrite map_map. f_equal.
  rewrite <- (map_id buffer) at 2. apply map_ext. intros b.
  apply byte_of_ascii_of_byte.
Qed.

(** The text of a buffer is made of the URL-safe characters of its
    sextets: the padding is gone. *)
Lemma text_form_chars (buffer : list byte) :
  exists sx,
    small 64 sx /\
    arrayBufferToBase64 buffer = string_of_list_ascii (map url (map b64char sx)).
Proof.
  unfold arrayBufferToBase64, btoa_list.
  set (binary := map ascii_of_byte buffer).
  set (codes := map N_of_ascii binary).
  assert (Hcodes : small 256 codes).
  { unfold small, codes. apply Forall_map, Forall_forall.
    intros c _. apply N_ascii_bounded. }
  pose proof (sextets_small codes Hcodes) as Hsx.
  exists (sextets_of codes). split; [exact Hsx|].
  rewrite padding_repeat, replace_url, map_app. f_equal.
  assert (Hpad : forall k, map url (repeat pad_char k) = repeat pad_char k).
  { intros k. induction k as [|k IH]; [reflexivity|]. cbn [repeat map]. now rewrite IH. }
  rewrite Hpad. apply strip_trailing_padding, url_chars_not_pad, Hsx.
Qed.

(** C8: the text form of binary data round-trips exactly.  Decoding the
    text that [arrayBufferToBase64] produces for a byte sequence gives back
    that byte sequence, even though the encoder has removed the [=] padding
    and substituted [+] and [/]: none of the three occurs in the text. *)
Theorem base64_text_roundtrip (buffer : list byte) :
  base64ToArrayBuffer (arrayBufferToBase64 buffer) = Some buffer /\
  Js.has_char "=" (arrayBufferToBase64 buffer) = false /\
  Js.has_char "+" (arrayBufferToBase64 buffer) = false /\
  Js.has_char "/" (arrayBufferToBase64 buffer) = false.
Proof.
  split; [apply text_form_inverse|].
  destruct (text_form_chars buffer) as (sx & Hsx & ->).
  unfold small in Hsx.
  induction Hsx as [|n sx Hn _ IH]; [repeat split; reflexivity|].
  destruct IH as (IH1 & IH2 & IH3).
  destruct (sextet_url_safe n Hn) as (H1 & H2 & H3).
  cbn [map string_of_list_ascii Js.has_char].
  rewrite H1, H2, H3, IH1, IH2, IH3. repeat split; reflexivity.
Qed.

End SecretShareCryptoFacts.

(** ** Strings *)

Module JsFacts.
Import Js.

Lemma append_empty (s : string) : EmptyString +:+ s = s.
Proof. reflexivity. Qed.

Lemma append_String (x : ascii) (r s : string) :
  String x r +:+ s = String x (r +:+ s).
Proof. reflexivity. Qed.

Lemma split_on_nonempty (c : ascii) (s : string) : split_on c s <> [].
Proof.
  destruct s as [|x r]; cbn [split_on]; [discriminate|].
  destruct (Ascii.eqb x c); [discriminate|].
  destruct (split_on c r); discriminate.
Qed.

Lemma split_on_single (c : ascii) (s : string) :
  has_char c s = false -> split_on c s = [s].
Proof.
  induction s as [|x r IH]; cbn [has_char split_on]; [reflexivity|].
  intros Hc. apply orb_false_elim in Hc. destruct Hc as [-> Hr].
  now rewrite (IH Hr).
Qed.

Lemma split_on_pair (c : ascii) (a b : string) :
  has_char c a = false -> has_char c b = false ->
  split_on c (a +:+ String c b) = [a; b].
Proof.
  intros Ha Hb.
  induction a as [|x r IH]; rewrite ?append_empty, ?append_String; cbn [split_on].
  - rewrite Ascii.eqb_refl. now rewrite split_on_single.
  - cbn [has_char] in Ha. apply orb_false_elim in Ha. destruct Ha as [-> Hr].
    now rewrite (IH Hr).
Qed.

Lemma split_on_one (c : ascii) (s b : string) :
  split_on c s = [b] -> s = b /\ has_char c s = false.
Proof.
  revert b. induction s as [|y r IH]; intros b; cbn [split_on has_char].
  - intros Hb. inversion Hb. auto.
  - destruct (Ascii.eqb y c) eqn:Hy.
    + intros Hb. inversion Hb as [[Hb1 Hb2]].
      now destruct (split_on_nonempty c r).
    + destruct (split_on c r) as [|p ps] eqn:Hsp.
      * now destruct (split_on_nonempty c r).
      * intros Hb. inversion Hb as [[Hb1 Hb2]]. subst ps.
        destruct (IH p eq_refl) as [-> Hr]. auto.
Qed.

(** A string that splits in two is its two pieces around one separator. *)
Lemma split_on_two (c : ascii) (s a b : string) :
  split_on c s = [a; b] ->
  s = a +:+ String c b /\ has_char c a = false /\ has_char c b = false.
Proof.
  revert a. induction s as [|x r IH]; intros a; cbn [split_on]; [discriminate|].
  destruct (Ascii.eqb x c) eqn:Hx.
  - apply Ascii.eqb_eq in Hx. subst x. intros Hs. inversion Hs as [[Ha Hr]].
    destruct (split_on_one c r b Hr) as [-> Hb].
    rewrite append_empty. cbn [has_char]. auto.
  - destruct (split_on c r) as [|p ps] eqn:Hsp.
    + now destruct (split_on_nonempty c r).
    + intros Hs. inversion Hs as [[Ha Hps]]. subst ps.
      destruct (IH p eq_refl) as (-> & Hp & Hb).
      rewrite append_String. cbn [has_char]. rewrite Hx. auto.
Qed.

Lemma string_length_of_list (l : list ascii) :
  String.length (string_of_list_ascii l) = length l.
Proof. induction l as [|c l IH]; [reflexivity|]. cbn. now rewrite IH. Qed.

End JsFacts.

(** ** src/worker.ts *)

Module WorkerFacts.
Import Base64 Base64Notions Base64Facts Worker Runtime Notions.

Lemma run_bind {A B : Type} (o : Oracle) (p : prog A) (f : A -> prog B) (w : World) :
  run o (bind p f) w =
  match run o p w with
  | (Returned a, w') => run o (f a) w'
  | (Threw, w') => (Threw, w')
  end.
Proof.
  revert w. induction p as [a| |k IH|n k IH|key k IH|key v ttl k IH|key k IH];
    intros w; cbn [bind run]; try reflexivity; try apply IH.
  - destruct (do_get o w key) as [r w']. apply IH.
  - destruct (do_put o w key v ttl) as [r w']. apply IH.
  - destruct (do_delete o w key) as [r w']. apply IH.
Qed.

Lemma run_calls_app {A : Type} (o : Oracle) (a b : list (prog A)) (w : World) :
  run_calls o (a ++ b) w =
  (fst (run_calls o a w) ++ fst (run_calls o b (snd (run_calls o a w))),
   snd (run_calls o b (snd (run_calls o a w)))).
Proof.
  revert w. induction a as [|p a IH]; intros w; cbn [app run_calls fst snd].
  - now destruct (run_calls o b w).
  - destruct (run o p w) as [r w1]. rewrite IH.
    destruct (run_calls o a w1) as [ra wa]. reflexivity.
Qed.

Lemma run_calls_length {A : Type} (o : Oracle) (a : list (prog A)) (w : World) :
  length (fst (run_calls o a w)) = length a.
Proof.
  revert w. induction a as [|p a IH]; intros w; cbn [run_calls]; [reflexivity|].
  destruct (run o p w) as [r w1]. specialize (IH w1).
  destruct (run_calls o a w1) as [ra wa]. cbn in *. now rewrite IH.
Qed.

(** The answers to the first [k] calls, and to the calls after them. *)
Lemma run_calls_split {A : Type} (o : Oracle) (calls : list (prog A)) (w : World)
    (k : nat) :
  take k (fst (run_calls o calls w)) = fst (run_calls o (take k calls) w) /\
  drop k (fst (run_calls o calls w))
  = fst (run_calls o (drop k calls) (snd (run_calls o (take k calls) w))).
Proof.
  rewrite <- (take_drop k calls) at 1 3. rewrite run_calls_app. cbn [fst].
  destruct (decide (k <= length calls)%nat) as [Hk|Hk].
  - assert (Hlen : length (fst (run_calls o (take k calls) w)) = k).
    { rewrite run_calls_length, length_take. lia. }
    split.
    + rewrite take_app_length'; auto.
    + rewrite drop_app_length'; auto.
  - rewrite (take_ge calls), (drop_ge calls) by lia.
    cbn [run_calls fst]. rewrite app_nil_r.
    rewrite take_ge, drop_ge by (rewrite run_calls_length; lia). auto.
Qed.

Lemma envelopes_cons (r : outcome Response) (rs : list (outcome Response)) :
  envelopes (r :: rs)
  = ((if returns_envelope r then 1 else 0) + envelopes rs)%nat.
Proof.
  unfold envelopes. rewrite filter_cons.
  destruct (decide (returns_envelope r = true)) as [->|Hr]; [reflexivity|].
  destruct (returns_envelope r); [congruence|reflexivity].
Qed.

Lemma refused_no_envelope (r : outcome Response) :
  refused r -> returns_envelope r = false.
Proof. intros (st & msg & -> & _). reflexivity. Qed.

Lemma run_schedule_app {A : Type} (o : Oracle) (s1 s2 : list nat)
    (pool : list (prog A)) (w : World) :
  run_schedule o (s1 ++ s2) pool w =
  run_schedule o s2 (fst (run_schedule o s1 pool w)) (snd (run_schedule o s1 pool w)).
Proof.
  revert pool w. induction s1 as [|i s1 IH]; intros pool w; [reflexivity|].
  cbn [app run_schedule]. destruct (pool !! i) as [p|]; [|apply IH].
  destruct (step o p w) as [p' w']. apply IH.
Qed.

(** The write after the read completes the call with the envelope,
    whatever the store says. *)
Lemma step_write_back (o : Oracle) (w : World) (key : string) (d : SecretData) :
  fst (step o (write_back key d) w) = Ret (envelope_response d).
Proof.
  unfold write_back, envelope_response.
  cbn [encryptedData maxViews viewCount createdAt].
  destruct (Qle_bool (maxViews d) (viewCount d + 1));
    cbn [bind SECRETS_KV_delete SECRETS_KV_put step];
    unfold do_delete, do_put; destruct (rejects o (tick w)); reflexivity.
Qed.

Section WithPlatform.
Context `{WebPlatform}.

(** The token check reads the clock at most once and leaves the store
    alone; its verdict depends on the clock reading only. *)
Lemma run_validate (o : Oracle) (w : World) (token secret : string) :
  exists w',
    run o (validateCSRFToken token secret) w
    = (Returned (validates_at token secret (clock o (tick w))), w') /\
    store w' = store w /\
    (validates_at token secret (clock o (tick w)) = true ->
     w' = advance w (store w)).
Proof.
  unfold validates_at, validateCSRFToken.
  destruct (Js.split_on "." token) as [|ts [|sg [|? ?]]];
    try (exists w; cbn; repeat split; auto; discriminate).
  destruct (negb (Js.truthy ts) || negb (Js.truthy sg)) eqn:Hshape.
  - exists w. cbn. repeat split; auto; discriminate.
  - exists (advance w (store w)). cbn.
    destruct (js_gt _ _ || js_lt _ _); cbn; repeat split; auto.
Qed.

Lemma validates_truthy (token secret : string) (now : Z) :
  validates_at token secret now = true -> Js.truthy token = true.
Proof. destruct token; [discriminate|reflexivity]. Qed.

(** *** The paths of [handleRetrieveSecret] *)

Lemma run_retrieve_unparsed (o : Oracle) (w : World) (env : Env) :
  run o (handleRetrieveSecret None env) w
  = (Returned (json 400 (ErrorBody "Invalid JSON")), w).
Proof. reflexivity. Qed.

Lemma run_retrieve_missing (o : Oracle) (w : World) (env : Env)
    (data : RetrieveSecretRequest) :
  falsy (retrieve_secretId data) || falsy (retrieve_csrfToken data) = true ->
  run o (handleRetrieveSecret (Some data) env) w
  = (Returned (json 400 (ErrorBody "Missing secretId or csrfToken")), w).
Proof. intros Hf. unfold handleRetrieveSecret. rewrite Hf. reflexivity. Qed.

Lemma run_retrieve_forbidden (o : Oracle) (w : World) (env : Env)
    (data : RetrieveSecretRequest) :
  falsy (retrieve_secretId data) || falsy (retrieve_csrfToken data) = false ->
  validates_at (field (retrieve_csrfToken data)) (CSRF_SECRET env) (clock o (tick w)) = false ->
  exists w',
    run o (handleRetrieveSecret (Some data) env) w
    = (Returned (json 403 (ErrorBody "Invalid CSRF token")), w') /\
    store w' = store w.
Proof.
  intros Hf Hv. unfold handleRetrieveSecret. rewrite Hf.
  unfold mbind, prog_bind. rewrite run_bind.
  destruct (run_validate o w (field (retrieve_csrfToken data)) (CSRF_SECRET env))
    as (w' & -> & Hst & _).
  rewrite Hv. cbn. eauto.
Qed.

(** Once the token is accepted the handler reads the store; what follows
    is decided by the outcome of that read and of the write after it. *)
Lemma run_retrieve_checked (o : Oracle) (w : World) (env : Env)
    (data : RetrieveSecretRequest) :
  falsy (retrieve_secretId data) || falsy (retrieve_csrfToken data) = false ->
  validates_at (field (retrieve_csrfToken data)) (CSRF_SECRET env) (clock o (tick w)) = true ->
  let key := hashSecretId (field (retrieve_secretId data)) in
  let w1 := advance w (store w) in
  let w2 := advance w1 (store w) in
  run o (handleRetrieveSecret (Some data) env) w =
  if rejects o (tick w1)
  then (Returned (json 500 (ErrorBody "Failed to retrieve secret")), w2)
  else
    match kv_value <$> store w !! key with
    | None => (Returned (json 404 (ErrorBody "Secret not found or expired")), w2)
    | Some (NotJson raw) =>
        (Returned (if Js.truthy raw
                   then json 500 (ErrorBody "Invalid secret data")
                   else json 404 (ErrorBody "Secret not found or expired")), w2)
    | Some (Json d) =>
        if Qle_bool (maxViews d) (viewCount d)
        then
          if rejects o (tick w2) then (Threw, advance w2 (store w))
          else (Returned (json 410 (ErrorBody "Secret has exceeded maximum views")),
                advance w2 (delete key (store w)))
        else
          let count := (viewCount d + 1)%Q in
          let last := Qle_bool (maxViews d) count in
          (Returned (json 200 (SecretBody (encryptedData d) count (maxViews d) last
                                  (createdAt d))),
           advance w2
             (if rejects o (tick w2) then store w
              else if last then delete key (store w)
              else <[key := {| kv_value :=
                                 Json {| encryptedData := encryptedData d;
                                         maxViews := maxViews d;
                                         viewCount := count;
                                         createdAt := createdAt d |};
                               kv_expirationTtl := None |}]> (store w)))
    end.
Proof.
  intros Hf Hv key w1 w2. unfold handleRetrieveSecret. rewrite Hf.
  unfold mbind, prog_bind. rewrite run_bind.
  destruct (run_validate o w (field (retrieve_csrfToken data)) (CSRF_SECRET env))
    as (w' & -> & _ & Hw').
  rewrite Hv in *. specialize (Hw' eq_refl). subst w'.
  cbn [negb bind run SECRETS_KV_get]. unfold do_get. fold w1.
  destruct (rejects o (tick w1)) eqn:Hget; [reflexivity|].
  change (store w1) with (store w). fold key. fold w2.
  destruct (store w !! key) as [[[d|raw] ttl]|] eqn:Hlook; cbn; try reflexivity.
  2:{ destruct raw; reflexivity. }
  destruct (Qle_bool (maxViews d) (viewCount d)) eqn:Hfull; cbn.
  - unfold do_delete. change (tick w2) with (S (S (tick w))).
    destruct (rejects o (S (S (tick w)))); reflexivity.
  - destruct (Qle_bool (maxViews d) (viewCount d + 1)) eqn:Hlast; cbn;
      unfold do_delete, do_put; change (tick w2) with (S (S (tick w)));
      destruct (rejects o (S (S (tick w)))); reflexivity.
Qed.


(** C9: a retrieval that passes the view-count check answers with the
    envelope whatever the outcome of the store call that follows (the
    delete on the last view, the write-back otherwise): the rejection is
    not propagated, the response is the same, and the store is then left as
    it was, with the view neither counted nor the record removed. *)
Theorem retrieve_succeeds_despite_store_error (o : Oracle) (w : World)
    (env : Env) (data : RetrieveSecretRequest) (d : SecretData) (ttl : option Q) :
  falsy (retrieve_secretId data) || falsy (retrieve_csrfToken data) = false ->
  validates_at (field (retrieve_csrfToken data)) (CSRF_SECRET env) (clock o (tick w)) = true ->
  rejects o (S (tick w)) = false ->
  store w !! hashSecretId (field (retrieve_secretId data))
  = Some {| kv_value := Json d; kv_expirationTtl := ttl |} ->
  Qle_bool (maxViews d) (viewCount d) = false ->
  let result := run o (handleRetrieveSecret (Some data) env) w in
  fst result
  = Returned (json 200 (SecretBody (encryptedData d) (viewCount d + 1) (maxViews d)
                          (Qle_bool (maxViews d) (viewCount d + 1)) (createdAt d))) /\
  (rejects o (S (S (tick w))) = true -> store (snd result) = store w).
Proof.
  intros Hf Hv Hget Hlook Hcheck result. unfold result.
  rewrite (run_retrieve_checked o w env data Hf Hv). cbv zeta.
  change (tick (advance w (store w))) with (S (tick w)).
  rewrite Hget, Hlook. cbn [fmap option_fmap option_map kv_value].
  rewrite Hcheck. cbn [fst snd]. split; [reflexivity|].
  intros Hrej.
  change (tick (advance (advance w (store w)) (store w))) with (S (S (tick w))).
  rewrite Hrej. reflexivity.
Qed.

(** *** [handleCreateSecret] *)

Lemma Qlt_bool_iff (a b : Q) : Qlt_bool a b = true <-> (a < b)%Q.
Proof.
  unfold Qlt_bool. rewrite negb_true_iff. split.
  - intros Hb. apply Qnot_le_lt. intros Hle.
    apply Qle_bool_iff in Hle. congruence.
  - intros Hlt. destruct (Qle_bool b a) eqn:Hb; [|reflexivity].
    apply Qle_bool_iff in Hb. exfalso. exact (Qlt_not_le _ _ Hlt Hb).
Qed.

Lemma Qlt_bool_false (a b : Q) : Qlt_bool a b = false <-> (b <= a)%Q.
Proof.
  unfold Qlt_bool. rewrite negb_false_iff. apply Qle_bool_iff.
Qed.

(** C5: a create request whose [maxViews] lies outside [1,100] or whose
    [expirationHours] lies outside [1,8760] is answered with a validation
    error (status 400) before any effect is performed: the handler is that
    response and nothing else, so the store after the call is the store
    before it. *)
Theorem create_rejects_out_of_range (o : Oracle) (w : World) (env : Env)
    (data : CreateSecretRequest) :
  (exists mv, create_maxViews data = Some mv /\ (mv < 1 \/ 100 < mv)%Q) \/
  (exists eh, create_expirationHours data = Some eh /\ (eh < 1 \/ 8760 < eh)%Q) ->
  exists msg,
    handleCreateSecret (Some data) env = Ret (json 400 (ErrorBody msg)) /\
    run o (handleCreateSecret (Some data) env) w
    = (Returned (json 400 (ErrorBody msg)), w).
Proof.
  intros Hout.
  assert (Hret : exists msg,
            handleCreateSecret (Some data) env = Ret (json 400 (ErrorBody msg))).
  { unfold handleCreateSecret.
    destruct (create_maxViews data) as [mv|] eqn:Hmv;
      [|eexists; reflexivity].
    destruct (create_expirationHours data) as [eh|] eqn:Heh;
      [|eexists; reflexivity].
    destruct (falsy (create_encryptedData data) || falsy (create_csrfToken data));
      [eexists; reflexivity|].
    destruct (Qlt_bool mv 1 || Qlt_bool 100 mv) eqn:Hmvb;
      [eexists; reflexivity|].
    destruct (Qlt_bool eh 1 || Qlt_bool 8760 eh) eqn:Hehb;
      [eexists; reflexivity|].
    exfalso.
    apply orb_false_elim in Hmvb, Hehb.
    destruct Hmvb as [Hm1 Hm2], Hehb as [He1 He2].
    apply Qlt_bool_false in Hm1, Hm2, He1, He2.
    destruct Hout as [(mv' & Heq & Hr)|(eh' & Heq & Hr)];
      inversion Heq; subst; destruct Hr as [Hr|Hr];
      eapply Qlt_not_le; eauto. }
  destruct Hret as [msg Hret]. exists msg. split; [exact Hret|].
  rewrite Hret. reflexivity.
Qed.

(** C10: the bounds check of create looks at the numeric range only.  A
    request whose [maxViews] is any number of [1,100] and whose
    [expirationHours] is any number of [1,8760], whole or not, with its
    other fields present and a valid token, is accepted: when the store
    takes the write, the record is stored under the hashed identifier with
    [maxViews] unchanged and a view count of 0, and the response is a
    success that repeats [maxViews]. *)
Theorem create_accepts_any_number_in_range (o : Oracle) (w : World) (env : Env)
    (envelope token : string) (mv eh : Q) :
  Js.truthy envelope = true ->
  (1 <= mv /\ mv <= 100)%Q ->
  (1 <= eh /\ eh <= 8760)%Q ->
  validates_at token (CSRF_SECRET env) (clock o (tick w)) = true ->
  rejects o (3 + tick w) = false ->
  let data := {| create_encryptedData := Some envelope;
                 create_maxViews := Some mv;
                 create_expirationHours := Some eh;
                 create_csrfToken := Some token |} in
  let secretId := base64urlEncode (getRandomValues (entropy o (1 + tick w)) 32) in
  let record := {| encryptedData := envelope;
                   maxViews := mv;
                   viewCount := 0;
                   createdAt := clock o (2 + tick w) |} in
  let result := run o (handleCreateSecret (Some data) env) w in
  (exists expiresAt,
      fst result = Returned (json 200 (CreatedBody secretId expiresAt mv))) /\
  kv_value <$> store (snd result) !! hashSecretId secretId = Some (Json record).
Proof.
  intros Henv [Hm1 Hm2] [He1 He2] Hv Hput data secretId record result.
  unfold result, handleCreateSecret, data.
  cbn [create_maxViews create_expirationHours create_encryptedData create_csrfToken
       falsy field].
  rewrite Henv, (validates_truthy _ _ _ Hv). cbn [negb orb].
  apply Qlt_bool_false in Hm1, Hm2, He1, He2.
  rewrite Hm1, Hm2, He1, He2. cbn [orb].
  unfold mbind, prog_bind. rewrite run_bind.
  destruct (run_validate o w token (CSRF_SECRET env)) as (w' & -> & _ & Hw').
  rewrite Hv in *. specialize (Hw' eq_refl). subst w'.
  unfold generateSecretId, crypto_getRandomValues, Date_now, SECRETS_KV_put,
    mbind, mret, prog_bind, prog_ret.
  cbn [negb bind run advance tick store]. unfold do_put.
  cbn [advance tick store]. change (S (S (S (tick w)))) with (3 + tick w)%nat.
  rewrite Hput. cbn [run advance tick store fst snd]. split.
  - eexists. reflexivity.
  - fold secretId. rewrite lookup_insert_eq. reflexivity.
Qed.

(** *** Sequential retrievals *)

Lemma views_left_nonneg (m : Z) (key : string) (w : World) (n : Z) :
  views_left m key w n -> (0 <= n)%Z.
Proof.
  unfold views_left. destruct (store w !! key) as [e|].
  - intros (d & v & _ & _ & _ & ->). lia.
  - intros ->. lia.
Qed.

Lemma views_left_store (m : Z) (key : string) (w w' : World) (n : Z) :
  store w' = store w -> views_left m key w n -> views_left m key w' n.
Proof. unfold views_left. now intros ->. Qed.

Lemma Qle_bool_inject (a b : Q) (x y : Z) :
  (a == inject_Z x)%Q -> (b == inject_Z y)%Q ->
  Qle_bool a b = (x <=? y)%Z.
Proof.
  intros Ha Hb. destruct (x <=? y)%Z eqn:Hxy.
  - apply Qle_bool_iff. rewrite Ha, Hb. rewrite <- Zle_Qle. lia.
  - destruct (Qle_bool a b) eqn:Hab; [|reflexivity].
    apply Qle_bool_iff in Hab. rewrite Ha, Hb in Hab.
    rewrite <- Zle_Qle in Hab. lia.
Qed.

(** One call: either it returns the envelope and one view less is left, or
    it is refused and what is left stays. *)
Lemma retrieve_once (o : Oracle) (w : World) (env : Env)
    (data : RetrieveSecretRequest) (m n : Z) :
  reliable o ->
  views_left m (hashSecretId (field (retrieve_secretId data))) w n ->
  let result := run o (handleRetrieveSecret (Some data) env) w in
  (returns_envelope (fst result) = true /\
   views_left m (hashSecretId (field (retrieve_secretId data))) (snd result) (n - 1)) \/
  (returns_envelope (fst result) = false /\ refused (fst result) /\
   views_left m (hashSecretId (field (retrieve_secretId data))) (snd result) n).
Proof.
  intros Hrel Hleft result. unfold result.
  set (key := hashSecretId (field (retrieve_secretId data))) in *.
  destruct (falsy (retrieve_secretId data) || falsy (retrieve_csrfToken data)) eqn:Hf.
  { rewrite run_retrieve_missing by exact Hf. right. cbn [fst snd].
    repeat split; [|exact Hleft]. eexists _, _. split; [reflexivity|]. lia. }
  destruct (validates_at (field (retrieve_csrfToken data)) (CSRF_SECRET env)
              (clock o (tick w))) eqn:Hv.
  2:{ destruct (run_retrieve_forbidden o w env data Hf Hv) as (w' & -> & Hst).
      right. cbn [fst snd]. repeat split.
      - eexists _, _. split; [reflexivity|]. lia.
      - exact (views_left_store _ _ _ _ _ Hst Hleft). }
  rewrite (run_retrieve_checked o w env data Hf Hv). cbv zeta. fold key.
  rewrite !Hrel. unfold views_left in *.
  destruct (store w !! key) as [[[d|raw] ttl]|] eqn:Hlook;
    cbn [fmap option_fmap option_map kv_value].
  - destruct Hleft as (d0 & v & Hd & Hm & Hc & ->).
    cbn in Hd. inversion Hd; subst d0; clear Hd.
    rewrite (Qle_bool_inject _ _ m v Hm Hc).
    assert (Hc' : (viewCount d + 1 == inject_Z (v + 1))%Q).
    { rewrite Hc, inject_Z_plus. reflexivity. }
    rewrite (Qle_bool_inject _ _ m (v + 1) Hm Hc').
    destruct (m <=? v)%Z eqn:Hfull.
    + right. cbn [fst snd advance store]. rewrite lookup_delete_eq.
      repeat split; [|lia]. eexists _, _. split; [reflexivity|]. lia.
    + left. cbn [fst snd returns_envelope carries_envelope json body status].
      split; [reflexivity|].
      destruct (m <=? v + 1)%Z eqn:Hlast; cbn [advance store].
      * rewrite lookup_delete_eq. lia.
      * rewrite lookup_insert_eq. eexists _, (v + 1)%Z. cbn.
        repeat split; [assumption|assumption|lia].
  - destruct Hleft as (d0 & v & Hd & _). discriminate Hd.
  - subst n. right. cbn [fst snd advance store]. rewrite Hlook.
    repeat split. eexists _, _. split; [reflexivity|]. lia.
Qed.

(** A sequence of calls for one key: each envelope returned uses up one of
    the views left, and every answer is the envelope or a refusal. *)
Lemma retrieve_many (o : Oracle) (env : Env) (key : string) (m : Z) :
  reliable o ->
  forall (reqs : list RetrieveSecretRequest) (w : World) (n : Z),
    Forall (fun data => hashSecretId (field (retrieve_secretId data)) = key) reqs ->
    views_left m key w n ->
    let result := run_calls o (retrievals env reqs) w in
    views_left m key (snd result) (n - Z.of_nat (envelopes (fst result))) /\
    Forall (fun r => returns_envelope r = true \/ refused r) (fst result).
Proof.
  intros Hrel reqs. induction reqs as [|data reqs IH]; intros w n Hkey Hleft.
  - cbn. rewrite Z.sub_0_r. auto.
  - inversion_clear Hkey as [|? ? Hk Hks]. cbn [retrievals map run_calls].
    pose proof (retrieve_once o w env data m n Hrel) as Hone.
    rewrite Hk in Hone. specialize (Hone Hleft). cbv zeta in Hone.
    destruct (run o (handleRetrieveSecret (Some data) env) w) as [r w1].
    cbn [fst snd] in Hone.
    fold (retrievals env reqs).
    destruct Hone as [[Hr Hl]|(Hr & Href & Hl)];
      specialize (IH w1 _ Hks Hl); cbv zeta in IH;
      destruct (run_calls o (retrievals env reqs) w1) as [rs w2];
      cbn [fst snd] in *; destruct IH as [IHl IHr];
      rewrite envelopes_cons, Hr; split.
    + replace (n - Z.of_nat (1 + envelopes rs))%Z
        with (n - 1 - Z.of_nat (envelopes rs))%Z by lia. exact IHl.
    + constructor; auto.
    + exact IHl.
    + constructor; auto.
Qed.

(** C1 (as amended): take a record whose [maxViews] and [viewCount] are
    whole numbers with [0 <= viewCount <= maxViews], and any sequence of
    retrieve calls for its identifier handled one after the other while no
    store call is rejected.  The calls that return the envelope number at
    most [maxViews - viewCount], hence at most [maxViews]; and once that
    many have returned it, every later call is answered with an error (not
    found, exhausted or a refused request), never with the envelope. *)
Theorem view_limit_sequential (o : Oracle) (env : Env) (secretId : string)
    (reqs : list RetrieveSecretRequest) (w : World) (d : SecretData)
    (ttl : option Q) (m v : Z) :
  reliable o ->
  Forall (fun data => retrieve_secretId data = Some secretId) reqs ->
  store w !! hashSecretId secretId
  = Some {| kv_value := Json d; kv_expirationTtl := ttl |} ->
  (maxViews d == inject_Z m)%Q ->
  (viewCount d == inject_Z v)%Q ->
  (0 <= v <= m)%Z ->
  let answers := fst (run_calls o (retrievals env reqs) w) in
  (Z.of_nat (envelopes answers) <= m - v)%Z /\
  (Z.of_nat (envelopes answers) <= m)%Z /\
  (forall k : nat,
      Z.of_nat (envelopes (take k answers)) = (m - v)%Z ->
      Forall refused (drop k answers)).
Proof.
  intros Hrel Hreqs Hlook Hm Hv Hrange answers.
  set (key := hashSecretId secretId) in *.
  assert (Hkeys : forall l,
            Forall (fun data => retrieve_secretId data = Some secretId) l ->
            Forall (fun data => hashSecretId (field (retrieve_secretId data)) = key) l).
  { intros l Hl. eapply Forall_impl; [exact Hl|].
    intros data Hd. cbv beta in *. rewrite Hd. reflexivity. }
  assert (Hleft : views_left m key w (m - v)).
  { unfold views_left. rewrite Hlook. exists d, v. repeat split; auto. lia. }
  assert (Hbound : (Z.of_nat (envelopes answers) <= m - v)%Z).
  { destruct (retrieve_many o env key m Hrel reqs w _ (Hkeys _ Hreqs) Hleft)
      as [Hl _].
    apply views_left_nonneg in Hl. unfold answers. lia. }
  split; [exact Hbound|]. split; [lia|].
  intros k Hk. unfold answers in *.
  destruct (run_calls_split o (retrievals env reqs) w k) as [Htake Hdrop].
  rewrite Hdrop. rewrite Htake in Hk.
  unfold retrievals in *. rewrite firstn_map in Hk. rewrite firstn_map, skipn_map.
  fold (retrievals env (take k reqs)) in *. fold (retrievals env (drop k reqs)).
  assert (Htk : Forall (fun data => retrieve_secretId data = Some secretId) (take k reqs))
    by (now apply Forall_take).
  assert (Hdk : Forall (fun data => retrieve_secretId data = Some secretId) (drop k reqs))
    by (now apply Forall_drop).
  destruct (retrieve_many o env key m Hrel (take k reqs) w _ (Hkeys _ Htk) Hleft)
    as [Hl1 _].
  rewrite Hk, Z.sub_diag in Hl1.
  destruct (retrieve_many o env key m Hrel (drop k reqs) _ _ (Hkeys _ Hdk) Hl1)
    as [Hl2 Hall].
  apply views_left_nonneg in Hl2.
  revert Hl2 Hall.
  generalize (fst (run_calls o (retrievals env (drop k reqs))
                     (snd (run_calls o (retrievals env (take k reqs)) w)))).
  intros rs. induction rs as [|r rs IHrs]; intros Hzero Hall; [constructor|].
  rewrite envelopes_cons in Hzero. inversion_clear Hall as [|? ? Hr Hrs].
  destruct Hr as [Hr|Hr].
  - rewrite Hr in Hzero. lia.
  - constructor; [exact Hr|]. apply IHrs; [|exact Hrs].
    rewrite (refused_no_envelope r Hr) in Hzero. lia.
Qed.

(** *** Identifiers *)

(** The text of [n] bytes has [ceil (4 n / 3)] characters. *)
Lemma base64urlEncode_length (buffer : list byte) :
  String.length (base64urlEncode buffer) = ((4 * length buffer + 2) / 3)%nat.
Proof.
  unfold base64urlEncode, btoa_list.
  set (codes := map N_of_ascii (map ascii_of_byte buffer)).
  assert (Hcodes : small 256 codes).
  { unfold small, codes. apply Forall_map, Forall_forall.
    intros c _. apply N_ascii_bounded. }
  pose proof (sextets_small codes Hcodes) as Hsx.
  rewrite padding_repeat, replace_url, map_app.
  assert (Hpad : forall k, map url (repeat pad_char k) = repeat pad_char k).
  { intros k. induction k as [|k IH]; [reflexivity|]. cbn [repeat map]. now rewrite IH. }
  rewrite Hpad, remove_pad_chars by exact Hsx.
  rewrite JsFacts.string_length_of_list, !length_map, sextets_length.
  unfold codes. now rewrite !length_map.
Qed.

(** Identifier and store key have the same shape, 43 URL-safe characters,
    when the digest has 32 bytes; an identifier of another length is not
    its own key. *)
Lemma hashSecretId_shape (secretId : string) :
  length (SHA256 (TextEncoder_encode secretId)) = 32%nat ->
  String.length (hashSecretId secretId) = 43%nat /\
  (String.length secretId <> 43%nat -> hashSecretId secretId <> secretId).
Proof.
  intros Hlen.
  assert (Hkey : String.length (hashSecretId secretId) = 43%nat).
  { unfold hashSecretId. rewrite base64urlEncode_length, Hlen. reflexivity. }
  split; [exact Hkey|]. intros Hne Heq. rewrite Heq in Hkey. contradiction.
Qed.

Lemma generateSecretId_shape (o : Oracle) (w : World) :
  exists secretId,
    fst (run o generateSecretId w) = Returned secretId /\
    String.length secretId = 43%nat.
Proof.
  eexists. split; [reflexivity|].
  rewrite base64urlEncode_length. unfold getRandomValues.
  rewrite length_map, length_seq. reflexivity.
Qed.
(** *** The anti-forgery token *)

Lemma leading_digits_uint (d : Decimal.uint) :
  leading_digits 10 (list_ascii_of_string (NilEmpty.string_of_uint d)) = digits_of d.
Proof.
  induction d; cbn [NilEmpty.string_of_uint list_ascii_of_string leading_digits digits_of];
    try reflexivity;
    (match goal with |- context [digit_value 10 ?c] =>
       change (digit_value 10 c) with (Some (Z.of_N (N_of_ascii c) - 48)%Z) end);
    cbn [N_of_ascii]; rewrite IHd; reflexivity.
Qed.

Lemma digits_value_acc (d : Decimal.uint) (acc : positive) :
  fold_left (fun a x => a * 10 + x)%Z (digits_of d) (Z.pos acc)
  = Z.pos (Pos.of_uint_acc d acc).
Proof.
  revert acc. induction d; intros acc; cbn [digits_of fold_left Pos.of_uint_acc];
    try reflexivity;
    (match goal with |- context [(Z.pos acc * 10 + ?k)%Z] =>
       match goal with |- context [Pos.of_uint_acc d ?a] =>
         replace (Z.pos acc * 10 + k)%Z with (Z.pos a) by lia end end);
    apply IHd.
Qed.

Lemma digits_value_uint (d : Decimal.uint) :
  digits_value 10 (digits_of d) = Z.of_N (Pos.of_uint d).
Proof.
  unfold digits_value.
  induction d; cbn [digits_of fold_left Pos.of_uint]; try reflexivity;
    try apply IHd;
    (match goal with |- context [Pos.of_uint_acc d ?a] =>
       change (0 * 10 + _)%Z with (Z.pos a) end);
    rewrite digits_value_acc; reflexivity.
Qed.

Lemma digit_code (c : ascii) (d : Z) :
  digit_value 10 c = Some d -> (48 <= N_of_ascii c <= 57)%N.
Proof.
  unfold digit_value.
  destruct ((48 <=? Z.of_N (N_of_ascii c)) && (Z.of_N (N_of_ascii c) <=? 57))%Z eqn:Hr;
    [|discriminate].
  intros _. apply andb_prop in Hr. lia.
Qed.

Lemma eqb_code (c c' : ascii) :
  N_of_ascii c <> N_of_ascii c' -> Ascii.eqb c c' = false.
Proof. intros Hne. apply Ascii.eqb_neq. congruence. Qed.

Lemma digit_not_whitespace (c : ascii) (d : Z) :
  digit_value 10 c = Some d -> is_js_whitespace c = false.
Proof.
  intros Hd. apply digit_code in Hd. unfold is_js_whitespace.
  repeat (apply orb_false_intro); apply N.eqb_neq; lia.
Qed.

Lemma parseInt_decimal (l : list ascii) :
  l <> [] ->
  Forall (fun c => is_Some (digit_value 10 c)) l ->
  parseInt (string_of_list_ascii l) = Some (digits_value 10 (leading_digits 10 l)).
Proof.
  intros Hne Hall. unfold parseInt. rewrite list_ascii_of_string_of_list_ascii.
  destruct l as [|c r]; [congruence|].
  inversion_clear Hall as [|? ? [d Hd] Hr].
  cbn [skip_whitespace]. rewrite (digit_not_whitespace c d Hd).
  pose proof (digit_code c d Hd) as Hc.
  rewrite (eqb_code c "-"), (eqb_code c "+") by (cbn; lia).
  assert (Hprefix :
    match c :: r with
    | c0 :: cx :: r0 =>
        if Ascii.eqb c0 "0" && (Ascii.eqb cx "x" || Ascii.eqb cx "X")
        then (16%Z, r0) else (10%Z, c :: r)
    | _ => (10%Z, c :: r)
    end = (10%Z, c :: r)).
  { destruct r as [|cx r]; [reflexivity|].
    inversion_clear Hr as [|? ? [dx Hdx] _].
    pose proof (digit_code cx dx Hdx) as Hcx.
    rewrite (eqb_code cx "x"), (eqb_code cx "X") by (cbn; lia).
    now rewrite andb_false_r. }
  rewrite Hprefix. cbn [leading_digits]. rewrite Hd.
  now rewrite Z.mul_1_l.
Qed.
(** The characters of a printed numeral: decimal digits, no dot. *)
Lemma uint_chars (d : Decimal.uint) :
  Forall (fun c => is_Some (digit_value 10 c))
    (list_ascii_of_string (NilEmpty.string_of_uint d)) /\
  Js.has_char "." (NilEmpty.string_of_uint d) = false.
Proof.
  induction d as [|d [IH1 IH2]|d [IH1 IH2]|d [IH1 IH2]|d [IH1 IH2]|d [IH1 IH2]
                  |d [IH1 IH2]|d [IH1 IH2]|d [IH1 IH2]|d [IH1 IH2]|d [IH1 IH2]];
    cbn [NilEmpty.string_of_uint list_ascii_of_string Js.has_char];
    (split; [|try exact IH2; reflexivity]);
    try constructor; try exact IH1; eexists; reflexivity.
Qed.

Lemma parseInt_uint (d : Decimal.uint) :
  d <> Decimal.Nil ->
  parseInt (NilEmpty.string_of_uint d) = Some (Z.of_N (Pos.of_uint d)).
Proof.
  intros Hd.
  rewrite <- (string_of_list_ascii_of_string (NilEmpty.string_of_uint d)).
  rewrite parseInt_decimal.
  - now rewrite leading_digits_uint, digits_value_uint.
  - destruct d; cbn; congruence.
  - apply uint_chars.
Qed.

(** [parseInt] reads back the time that [toString] printed. *)
Lemma toString_facts (t : Z) :
  (0 <= t)%Z ->
  parseInt (toString t) = Some t /\
  Js.has_char "." (toString t) = false /\
  toString t <> EmptyString.
Proof.
  intros Ht. unfold toString. destruct t as [|p|p]; [repeat split; discriminate| |lia].
  cbn [Z.to_int NilZero.string_of_int].
  pose proof (DecimalPos.Unsigned.to_uint_nonnil p) as Hnil.
  assert (Hs : NilZero.string_of_uint (Pos.to_uint p)
               = NilEmpty.string_of_uint (Pos.to_uint p)).
  { destruct (Pos.to_uint p); [congruence|reflexivity..]. }
  rewrite Hs. repeat split.
  - rewrite parseInt_uint by exact Hnil.
    now rewrite DecimalPos.Unsigned.of_to.
  - apply uint_chars.
  - destruct (Pos.to_uint p); [congruence|discriminate..].
Qed.


Lemma hex_digit_not_dot (n : N) : Ascii.eqb (hex_digit n) "." = false.
Proof.
  unfold hex_digit. generalize (N.to_nat n). intros k.
  do 16 (destruct k as [|k]; [reflexivity|]). destruct k; reflexivity.
Qed.

Lemma hex_no_dot (bytes : list byte) :
  Js.has_char "." (hex_of_bytes bytes) = false.
Proof.
  unfold hex_of_bytes. induction bytes as [|b bytes IH]; [reflexivity|].
  cbn [flat_map app string_of_list_ascii Js.has_char].
  now rewrite !hex_digit_not_dot, IH.
Qed.

Lemma hex_truthy (bytes : list byte) :
  bytes <> [] -> Js.truthy (hex_of_bytes bytes) = true.
Proof. destruct bytes; [congruence|reflexivity]. Qed.

(** The verdict on a token made of two pieces around one dot. *)
Lemma validates_at_pieces (ts sg secret : string) (now : Z) :
  Js.has_char "." ts = false -> Js.has_char "." sg = false ->
  validates_at (ts +:+ String "." sg) secret now
  = Js.truthy ts && Js.truthy sg
    && negb (js_gt (js_sub now (parseInt ts)) (30 * 60 * 1000)
             || js_lt (js_sub now (parseInt ts)) 0)
    && String.eqb (signatureHex secret ts) sg.
Proof.
  intros Hts Hsg. unfold validates_at, validateCSRFToken.
  rewrite (JsFacts.split_on_pair _ _ _ Hts Hsg).
  destruct (Js.truthy ts); [|reflexivity].
  destruct (Js.truthy sg); [|reflexivity].
  cbn [negb orb andb mbind mret prog_bind prog_ret Date_now bind run fst
       at_time clock tick fresh].
  destruct (js_gt _ _ || js_lt _ _); reflexivity.
Qed.

(** What the code accepts, for every token and every time: the token has
    exactly one dot, with a non-empty piece on each side; the second piece
    is the hex signature of the first; and the first piece either does not
    parse as a number at all, or parses to a time at most 30 minutes before
    [now] and not after it. *)
Lemma validates_at_iff (token secret : string) (now : Z) :
  validates_at token secret now = true <->
  exists ts sg,
    token = ts +:+ String "." sg /\
    Js.has_char "." ts = false /\ Js.has_char "." sg = false /\
    ts <> EmptyString /\ sg <> EmptyString /\
    sg = signatureHex secret ts /\
    match parseInt ts with
    | Some issuedAt => (0 <= now - issuedAt <= 30 * 60 * 1000)%Z
    | None => True
    end.
Proof.
  split.
  - intros Hv.
    assert (Hsplit : exists ts sg, Js.split_on "." token = [ts; sg]).
    { unfold validates_at, validateCSRFToken in Hv.
      destruct (Js.split_on "." token) as [|ts [|sg [|? ?]]]; try discriminate.
      eauto. }
    destruct Hsplit as (ts & sg & Hsplit).
    destruct (JsFacts.split_on_two _ _ _ _ Hsplit) as (-> & Hts & Hsg).
    rewrite (validates_at_pieces _ _ _ _ Hts Hsg) in Hv.
    repeat (apply andb_prop in Hv; destruct Hv as [Hv ?]).
    exists ts, sg. repeat split; auto.
    + intros ->. discriminate.
    + intros ->. discriminate.
    + symmetry. now apply String.eqb_eq.
    + destruct (parseInt ts) as [t|]; [|exact I].
      match goal with Hw : negb _ = true |- _ =>
        apply negb_true_iff, orb_false_elim in Hw; destruct Hw as [Hgt Hlt] end.
      cbn [js_sub js_gt js_lt] in Hgt, Hlt. lia.
  - intros (ts & sg & -> & Hts & Hsg & Hne1 & Hne2 & -> & Hage).
    rewrite (validates_at_pieces _ _ _ _ Hts Hsg).
    rewrite String.eqb_refl.
    destruct ts as [|c ts]; [congruence|].
    destruct (signatureHex secret (String c ts)) as [|c' sg] eqn:Hsig; [congruence|].
    cbn [Js.truthy andb].
    destruct (parseInt (String c ts)) as [t|]; [|reflexivity].
    cbn [js_sub js_gt js_lt].
    replace (30 * 60 * 1000 <? now - t)%Z with false by lia.
    replace (now - t <? 0)%Z with false by lia. reflexivity.
Qed.


(** A token issued at [t] validates at the times from [t] to [t] plus 30
    minutes, and at no other time. *)
Lemma issued_token_window (secret : string) (t now : Z) :
  (0 <= t)%Z ->
  HMAC_SHA256 (TextEncoder_encode secret) (TextEncoder_encode (toString t)) <> [] ->
  validates_at (issued secret t) secret now = true <->
  (0 <= now - t <= 30 * 60 * 1000)%Z.
Proof.
  intros Ht Hmac. destruct (toString_facts t Ht) as (Hparse & Hdot & Hne).
  unfold issued.
  change ("." +:+ signatureHex secret (toString t))
    with (String "." (signatureHex secret (toString t))).
  rewrite validates_at_pieces by (auto; unfold signatureHex; apply hex_no_dot).
  rewrite Hparse, String.eqb_refl, andb_true_r.
  assert (Hts : Js.truthy (toString t) = true)
    by (destruct (toString t); [congruence|reflexivity]).
  assert (Hsg : Js.truthy (signatureHex secret (toString t)) = true)
    by (unfold signatureHex; now apply hex_truthy).
  rewrite Hts, Hsg. cbn [andb js_sub js_gt js_lt].
  rewrite negb_true_iff, orb_false_iff, !Z.ltb_ge. lia.
Qed.

(** The three times of the claim: 29m59s after issue, 30m01s after issue,
    and any time before issue. *)
Lemma issued_token_examples (secret : string) (t : Z) :
  (0 <= t)%Z ->
  HMAC_SHA256 (TextEncoder_encode secret) (TextEncoder_encode (toString t)) <> [] ->
  validates_at (issued secret t) secret (t + (29 * 60 + 59) * 1000) = true /\
  validates_at (issued secret t) secret (t + (30 * 60 + 1) * 1000) = false /\
  (forall now, (now < t)%Z -> validates_at (issued secret t) secret now = false).
Proof.
  intros Ht Hmac. repeat split.
  - apply issued_token_window; auto. lia.
  - apply not_true_is_false. rewrite issued_token_window by auto. lia.
  - intros now Hnow. apply not_true_is_false.
    rewrite issued_token_window by auto. lia.
Qed.

(** C4: the code against the claim.  A token whose first piece does not
    parse as a number carries no issue time, so by the claim it must not
    validate; the code computes its age as [NaN], on which both window
    comparisons are false, and accepts it at every time once the signature
    matches.  [ts] can be ["abc"]. *)
Theorem validate_accepts_unparsable_timestamp (secret ts : string) (now : Z) :
  ts <> EmptyString ->
  Js.has_char "." ts = false ->
  parseInt ts = None ->
  HMAC_SHA256 (TextEncoder_encode secret) (TextEncoder_encode ts) <> [] ->
  validates_at (ts +:+ "." +:+ signatureHex secret ts) secret now = true.
Proof.
  intros Hne Hdot Hnan Hmac.
  apply validates_at_iff. exists ts, (signatureHex secret ts).
  unfold signatureHex at 2 3. rewrite hex_no_dot, Hnan.
  repeat split; auto.
  intros Hsig. apply (f_equal Js.truthy) in Hsig.
  unfold signatureHex in Hsig. rewrite hex_truthy in Hsig by exact Hmac.
  discriminate.
Qed.

(** *** Retrievals in flight together *)

Lemma validate_shape (token secret : string) (now : Z) :
  validates_at token secret now = true ->
  exists k, validateCSRFToken token secret = DateNow k /\
            forall t, k t = Ret (validates_at token secret t).
Proof.
  unfold validates_at, validateCSRFToken.
  destruct (Js.split_on "." token) as [|ts [|sg [|? ?]]]; try discriminate.
  destruct (negb (Js.truthy ts) || negb (Js.truthy sg)); [discriminate|].
  intros _. eexists. split; [reflexivity|].
  intros t. cbn. destruct (js_gt _ _ || js_lt _ _); reflexivity.
Qed.

(** The first two effects of a retrieval: the clock reading of the token
    check and the read of the store, which leave the store as it is. *)
Lemma retrieve_reads (o : Oracle) (w : World) (env : Env)
    (data : RetrieveSecretRequest) (d : SecretData) (ttl : option Q) :
  falsy (retrieve_secretId data) || falsy (retrieve_csrfToken data) = false ->
  validates_at (field (retrieve_csrfToken data)) (CSRF_SECRET env) (clock o (tick w)) = true ->
  rejects o (S (tick w)) = false ->
  store w !! hashSecretId (field (retrieve_secretId data))
  = Some {| kv_value := Json d; kv_expirationTtl := ttl |} ->
  Qle_bool (maxViews d) (viewCount d) = false ->
  let first := step o (handleRetrieveSecret (Some data) env) w in
  snd first = advance w (store w) /\
  step o (fst first) (snd first)
  = (write_back (hashSecretId (field (retrieve_secretId data))) d,
     advance (advance w (store w)) (store w)).
Proof.
  intros Hf Hv Hget Hlook Hcheck. unfold handleRetrieveSecret. rewrite Hf.
  destruct (validate_shape _ _ _ Hv) as (k & -> & Hk).
  unfold mbind, prog_bind. cbn [bind step fst snd]. split; [reflexivity|].
  rewrite Hk, Hv. cbn [bind negb SECRETS_KV_get step].
  unfold do_get. cbn [advance tick store]. rewrite Hget, Hlook.
  cbn [fmap option_fmap option_map kv_value bind JSON_parse empty_text].
  rewrite Hcheck. reflexivity.
Qed.

Lemma pool_insert {A : Type} (x y : A) (a : nat) (l : list A) (p : A) :
  <[a := p]> (repeat x a ++ y :: l) = repeat x a ++ p :: l.
Proof.
  rewrite insert_app_r_alt by (rewrite repeat_length; lia).
  rewrite repeat_length, Nat.sub_diag. reflexivity.
Qed.

Lemma pool_shift {A : Type} (x : A) (a : nat) (l : list A) :
  repeat x a ++ x :: l = repeat x (S a) ++ l.
Proof.
  change (repeat x (S a) ++ l) with ((x :: repeat x a) ++ l).
  rewrite (repeat_cons a x), <- app_assoc. reflexivity.
Qed.

Section InFlight.
Variables (o : Oracle) (env : Env) (data : RetrieveSecretRequest)
          (d : SecretData) (ttl : option Q).
Hypothesis Hfields :
  falsy (retrieve_secretId data) || falsy (retrieve_csrfToken data) = false.
Hypothesis Htoken :
  forall t, validates_at (field (retrieve_csrfToken data)) (CSRF_SECRET env)
              (clock o t) = true.
Hypothesis Hstore : reliable o.
Hypothesis Hviews : Qle_bool (maxViews d) (viewCount d) = false.

Let key := hashSecretId (field (retrieve_secretId data)).
Let call := handleRetrieveSecret (Some data) env.

(** The calls from [a] on check their token and read, one after the
    other; the store is not written. *)
Lemma all_read (n : nat) :
  forall (a : nat) (w : World),
    store w !! key = Some {| kv_value := Json d; kv_expirationTtl := ttl |} ->
    exists w',
      run_schedule o (flat_map (fun i => [i; i]) (seq a n))
        (repeat (write_back key d) a ++ repeat call n) w
      = (repeat (write_back key d) (a + n), w') /\
      store w' = store w.
Proof.
  induction n as [|n IH]; intros a w Hlook.
  - exists w. cbn. rewrite app_nil_r, Nat.add_0_r. auto.
  - cbn [seq flat_map repeat]. cbn [app run_schedule].
    rewrite list_lookup_middle by (now rewrite repeat_length).
    destruct (retrieve_reads o w env data d ttl Hfields (Htoken _) (Hstore _)
                Hlook Hviews) as [Hw1 Hsecond].
    fold call in Hw1, Hsecond.
    destruct (step o call w) as [p1 w1]. cbn [fst snd] in Hw1, Hsecond. subst w1.
    rewrite pool_insert.
    rewrite list_lookup_middle by (now rewrite repeat_length).
    rewrite Hsecond. rewrite pool_insert, pool_shift.
    fold key.
    destruct (IH (S a) (advance (advance w (store w)) (store w)) Hlook)
      as (w' & Hrun & Hst).
    exists w'. rewrite Hrun. split; [|exact Hst].
    f_equal. f_equal. lia.
Qed.

(** The calls from [a] on write, one after the other; each one completes
    with the envelope. *)
Lemma all_write (n : nat) :
  forall (a : nat) (w : World),
    fst (run_schedule o (seq a n)
           (repeat (Ret (envelope_response d)) a ++ repeat (write_back key d) n) w)
    = repeat (Ret (envelope_response d)) (a + n).
Proof.
  induction n as [|n IH]; intros a w.
  - cbn. now rewrite app_nil_r, Nat.add_0_r.
  - cbn [seq repeat run_schedule].
    rewrite list_lookup_middle by (now rewrite repeat_length).
    pose proof (step_write_back o w key d) as Hstep.
    destruct (step o (write_back key d) w) as [p' w']. cbn [fst] in Hstep. subst p'.
    rewrite pool_insert, pool_shift, IH. f_equal. lia.
Qed.

(** C2 (as amended): the retrieval is an unprotected read followed by a
    write, with no conditional update and no lock, and concurrent calls are
    not bounded by [maxViews].  For every [n], when [n] calls for a record
    that still has views to spare are in flight together and each of them
    reads the store before any of them writes, all [n] calls return the
    stored envelope. *)
Theorem concurrent_retrievals_all_succeed (n : nat) (w : World) :
  store w !! key = Some {| kv_value := Json d; kv_expirationTtl := ttl |} ->
  let pool := fst (run_schedule o (reads_before_writes n) (repeat call n) w) in
  pool = repeat (Ret (envelope_response d)) n /\
  length (filter (fun p => finished_with_envelope p = true) pool) = n.
Proof.
  intros Hlook pool.
  assert (Hpool : pool = repeat (Ret (envelope_response d)) n).
  { unfold pool, reads_before_writes. rewrite run_schedule_app.
    destruct (all_read n 0 w Hlook) as (w' & Hreads & _).
    cbn [repeat app Nat.add] in Hreads. rewrite Hreads. cbn [fst snd].
    apply (all_write n 0 w'). }
  split; [exact Hpool|]. rewrite Hpool.
  clear. induction n as [|n IH]; [reflexivity|].
  cbn [repeat]. rewrite filter_cons_True by reflexivity.
  cbn [length]. now rewrite IH.
Qed.

End InFlight.

End WithPlatform.

(** *** The statements at concrete inputs (test platform) *)

Import Fixtures.

Lemma view_limit_sequential_witness :
  let answers :=
    fst (run_calls (TestPlatform.oracle 1000 x01%byte [])
           (retrievals env (repeat request 4)) (holding 2 0)) in
  (Z.of_nat (envelopes answers) <= 2 - 0)%Z /\
  (Z.of_nat (envelopes answers) <= 2)%Z /\
  (forall k : nat,
      Z.of_nat (envelopes (take k answers)) = (2 - 0)%Z ->
      Forall refused (drop k answers)).
Proof.
  apply (view_limit_sequential (TestPlatform.oracle 1000 x01%byte []) env secretId
           (repeat request 4) (holding 2 0) (record 2 0) (Some 3600%Q) 2 0).
  - intros n. reflexivity.
  - repeat constructor.
  - vm_compute. reflexivity.
  - reflexivity.
  - reflexivity.
  - lia.
Defined.

(** C1 fails as stated, in two ways.  With a limit of 2 and a store that
    rejects the write-back of the first two calls, four calls in a row
    return the envelope; with a limit of 5/2 and no store failure, three
    calls return it.  In both runs the calls that return the envelope
    outnumber [maxViews]. *)
Lemma view_limit_counterexample :
  let failing := TestPlatform.oracle 1000 x01%byte [2; 5]%nat in
  let sound := TestPlatform.oracle 1000 x01%byte [] in
  let calls := retrievals env (repeat request 4) in
  envelopes (fst (run_calls failing calls (holding 2 0))) = 4%nat /\
  ~ (inject_Z 4 <= maxViews (record 2 0))%Q /\
  envelopes (fst (run_calls sound calls (holding (5 # 2) 0))) = 3%nat /\
  ~ (inject_Z 3 <= maxViews (record (5 # 2) 0))%Q.
Proof.
  cbv zeta.
  split; [vm_compute; reflexivity|].
  split; [intros Hle; vm_compute in Hle; apply Hle; reflexivity|].
  split; [vm_compute; reflexivity|].
  intros Hle. vm_compute in Hle. apply Hle. reflexivity.
Qed.



Lemma retrieve_succeeds_despite_store_error_witness :
  let o := TestPlatform.oracle 1000 x01%byte [2%nat] in
  let result := run o (handleRetrieveSecret (Some request) env) (holding 3 0) in
  fst result
  = Returned (json 200 (SecretBody "ENVELOPE" (0 + 1) 3 (Qle_bool 3 (0 + 1)) 1000)) /\
  (rejects o 2 = true -> store (snd result) = store (holding 3 0)).
Proof.
  apply (retrieve_succeeds_despite_store_error
           (TestPlatform.oracle 1000 x01%byte [2%nat]) (holding 3 0) env request
           (record 3 0) (Some 3600%Q)).
  - reflexivity.
  - vm_compute. reflexivity.
  - vm_compute. reflexivity.
  - vm_compute. reflexivity.
  - reflexivity.
Defined.

Lemma create_rejects_out_of_range_witness :
  let data := {| create_encryptedData := Some "ENVELOPE";
                 create_maxViews := Some 101%Q;
                 create_expirationHours := Some 24%Q;
                 create_csrfToken := Some token |} in
  exists msg,
    handleCreateSecret (Some data) env = Ret (json 400 (ErrorBody msg)) /\
    run (TestPlatform.oracle 1000 x01%byte []) (handleCreateSecret (Some data) env)
      (holding 3 0)
    = (Returned (json 400 (ErrorBody msg)), holding 3 0).
Proof.
  apply (create_rejects_out_of_range (TestPlatform.oracle 1000 x01%byte [])
           (holding 3 0) env).
  left. exists 101%Q. split; [reflexivity|]. right. vm_compute. reflexivity.
Defined.

Lemma create_accepts_any_number_in_range_witness :
  let o := TestPlatform.oracle 1000 x01%byte [] in
  let data := {| create_encryptedData := Some "ENVELOPE";
                 create_maxViews := Some (5 # 2);
                 create_expirationHours := Some (3 # 2);
                 create_csrfToken := Some token |} in
  let secretId := base64urlEncode (getRandomValues (entropy o 1) 32) in
  let result := run o (handleCreateSecret (Some data) env) fresh in
  (exists expiresAt,
      fst result = Returned (json 200 (CreatedBody secretId expiresAt (5 # 2)))) /\
  kv_value <$> store (snd result) !! hashSecretId secretId
  = Some (Json (record (5 # 2) 0)).
Proof.
  apply (create_accepts_any_number_in_range (TestPlatform.oracle 1000 x01%byte [])
           fresh env "ENVELOPE" token (5 # 2) (3 # 2)).
  - reflexivity.
  - split; intros Hc; vm_compute in Hc; discriminate Hc.
  - split; intros Hc; vm_compute in Hc; discriminate Hc.
  - vm_compute. reflexivity.
  - reflexivity.
Defined.

Lemma concurrent_retrievals_all_succeed_witness :
  let o := TestPlatform.oracle 1000 x01%byte [] in
  let pool :=
    fst (run_schedule o (reads_before_writes 3)
           (repeat (handleRetrieveSecret (Some request) env) 3) (holding 1 0)) in
  pool = repeat (Ret (envelope_response (record 1 0))) 3 /\
  length (filter (fun p => finished_with_envelope p = true) pool) = 3%nat.
Proof.
  apply (@concurrent_retrievals_all_succeed TestPlatform.platform
           (TestPlatform.oracle 1000 x01%byte []) env request (record 1 0)
           (Some 3600%Q)).
  - reflexivity.
  - intros t. vm_compute. reflexivity.
  - intros n. reflexivity.
  - reflexivity.
  - vm_compute. reflexivity.
Defined.

(** C2 fails as stated: with a limit of one view, two calls in flight
    together that both read the store before either writes both return the
    envelope, so two calls succeed where [maxViews] is 1. *)
Lemma concurrent_view_limit_counterexample :
  let o := TestPlatform.oracle 1000 x01%byte [] in
  let call := handleRetrieveSecret (Some request) env in
  let pool := fst (run_schedule o [0; 0; 1; 1; 0; 1]%nat [call; call] (holding 1 0)) in
  pool = [Ret (json 200 (SecretBody "ENVELOPE" 1 1 true 1000));
          Ret (json 200 (SecretBody "ENVELOPE" 1 1 true 1000))] /\
  length (filter (fun p => finished_with_envelope p = true) pool) = 2%nat /\
  ~ (inject_Z 2 <= maxViews (record 1 0))%Q.
Proof.
  cbv zeta.
  split; [vm_compute; reflexivity|].
  split; [vm_compute; reflexivity|].
  intros Hle. vm_compute in Hle. apply Hle. reflexivity.
Qed.

Lemma validate_accepts_unparsable_timestamp_witness :
  validates_at ("abc" +:+ "." +:+ signatureHex "s" "abc") "s" 99 = true.
Proof.
  apply (@validate_accepts_unparsable_timestamp TestPlatform.platform "s" "abc" 99).
  - discriminate.
  - reflexivity.
  - reflexivity.
  - vm_compute. discriminate.
Defined.

End WorkerFacts.

(** * The text codec *)

Module TextFacts.
Import Base64 Base64Notions Base64Facts SecretShareCrypto SecretShareCryptoFacts.
Import JsText SecretShareCryptoText.

Ltac arith := zify; Z.to_euclidean_division_equations; lia.

Lemma utf8_small (c : N) :
  scalar c -> Forall (fun b => (b < 256)%N) (utf8_of c).
Proof.
  intros [Hmax Hs]. unfold utf8_of.
  destruct (N.ltb_spec c 128); [|destruct (N.ltb_spec c 2048);
    [|destruct (N.ltb_spec c 65536)]];
    repeat (apply List.Forall_cons; [cbv beta; arith|]); apply List.Forall_nil.
Qed.

Lemma to_N_to_byte (n : N) : (n < 256)%N -> Byte.to_N (to_byte n) = n.
Proof.
  intros Hn. unfold to_byte.
  destruct (Byte.of_N n) as [b|] eqn:Hb.
  - now apply Byte.to_of_N.
  - apply Byte.of_N_None_iff in Hb. lia.
Qed.

Lemma bytes_back (l : list N) :
  Forall (fun b => (b < 256)%N) l -> map Byte.to_N (map to_byte l) = l.
Proof.
  intros Hl. induction Hl as [|b l Hb _ IH]; [reflexivity|].
  cbn [map]. now rewrite to_N_to_byte, IH.
Qed.

(** The decoder reads back the bytes of one scalar value. *)
Lemma decode_one (c : N) (rest : list N) :
  scalar c ->
  decode_from initial (utf8_of c ++ rest) = c :: decode_from initial rest.
Proof.
  intros [Hmax Hs]. unfold utf8_of.
  destruct (N.ltb_spec c 128) as [H1|H1].
  { cbn [app decode_from]. unfold decode_byte, initial at 1, first_byte.
    cbn [bytes_expected].
    destruct (N.leb_spec c 127); [reflexivity|lia]. }
  destruct (N.ltb_spec c 2048) as [H2|H2].
  { cbn [app decode_from]. unfold decode_byte at 1, initial at 1, first_byte.
    cbn [bytes_expected].
    destruct (N.leb_spec (192 + c / 64) 127); [arith|].
    destruct (N.leb_spec 194 (192 + c / 64)); [|arith].
    destruct (N.leb_spec (192 + c / 64) 223); [|arith].
    cbn [andb app decode_from]. unfold decode_byte.
    cbn [bytes_expected lower_boundary upper_boundary code_point].
    destruct (N.leb_spec 128 (128 + c mod 64)); [|arith].
    destruct (N.leb_spec (128 + c mod 64) 191); [|arith].
    cbn [andb app]. f_equal. arith. }
  destruct (N.ltb_spec c 65536) as [H3|H3].
  { cbn [app decode_from]. unfold decode_byte at 1, initial at 1, first_byte.
    cbn [bytes_expected].
    destruct (N.leb_spec (224 + c / 4096) 127); [arith|].
    destruct (N.leb_spec 194 (224 + c / 4096)); [|arith].
    destruct (N.leb_spec (224 + c / 4096) 223); [arith|].
    destruct (N.leb_spec 224 (224 + c / 4096)); [|arith].
    destruct (N.leb_spec (224 + c / 4096) 239); [|arith].
    cbn [andb app decode_from]. unfold decode_byte at 1.
    cbn [bytes_expected lower_boundary upper_boundary code_point].
    assert (Hlow : ((if (224 + c / 4096 =? 224)%N then 160 else 128)
                    <=? 128 + (c / 64) mod 64)%N = true).
    { apply N.leb_le. destruct (N.eqb_spec (224 + c / 4096) 224); arith. }
    assert (Hup : (128 + (c / 64) mod 64
                   <=? (if (224 + c / 4096 =? 237)%N then 159 else 191))%N = true).
    { apply N.leb_le. destruct (N.eqb_spec (224 + c / 4096) 237); arith. }
    rewrite Hlow, Hup. cbn [andb app decode_from]. unfold decode_byte.
    cbn [bytes_expected lower_boundary upper_boundary code_point].
    destruct (N.leb_spec 128 (128 + c mod 64)); [|arith].
    destruct (N.leb_spec (128 + c mod 64) 191); [|arith].
    cbn [andb app]. f_equal. arith. }
  cbn [app decode_from]. unfold decode_byte at 1, initial at 1, first_byte.
  cbn [bytes_expected].
  destruct (N.leb_spec (240 + c / 262144) 127); [arith|].
  destruct (N.leb_spec 194 (240 + c / 262144)); [|arith].
  destruct (N.leb_spec (240 + c / 262144) 223); [arith|].
  destruct (N.leb_spec 224 (240 + c / 262144)); [|arith].
  destruct (N.leb_spec (240 + c / 262144) 239); [arith|].
  destruct (N.leb_spec 240 (240 + c / 262144)); [|arith].
  destruct (N.leb_spec (240 + c / 262144) 244); [|arith].
  cbn [andb app decode_from]. unfold decode_byte at 1.
  cbn [bytes_expected lower_boundary upper_boundary code_point].
  assert (Hlow : ((if (240 + c / 262144 =? 240)%N then 144 else 128)
                  <=? 128 + (c / 4096) mod 64)%N = true).
  { apply N.leb_le. destruct (N.eqb_spec (240 + c / 262144) 240); arith. }
  assert (Hup : (128 + (c / 4096) mod 64
                 <=? (if (240 + c / 262144 =? 244)%N then 143 else 191))%N = true).
  { apply N.leb_le. destruct (N.eqb_spec (240 + c / 262144) 244); arith. }
  rewrite Hlow, Hup. cbn [andb app decode_from]. unfold decode_byte at 1.
  cbn [bytes_expected lower_boundary upper_boundary code_point].
  destruct (N.leb_spec 128 (128 + (c / 64) mod 64)); [|arith].
  destruct (N.leb_spec (128 + (c / 64) mod 64) 191); [|arith].
  cbn [andb app decode_from]. unfold decode_byte.
  cbn [bytes_expected lower_boundary upper_boundary code_point].
  destruct (N.leb_spec 128 (128 + c mod 64)); [|arith].
  destruct (N.leb_spec (128 + c mod 64) 191); [|arith].
  cbn [andb app]. f_equal. arith.
Qed.

Lemma decode_all (cs : list N) :
  Forall scalar cs -> decode_from initial (flat_map utf8_of cs) = cs.
Proof.
  intros Hcs. induction Hcs as [|c cs Hc _ IH]; [reflexivity|].
  cbn [flat_map]. now rewrite (decode_one c _ Hc), IH.
Qed.

(** A well-formed string is the UTF-16 form of its scalar values. *)
Lemma scalars_of_well_formed (n : nat) :
  forall s : text,
    (length s <= n)%nat -> code_units s -> well_formed s = true ->
    Forall scalar (scalar_values s) /\ flat_map utf16_of (scalar_values s) = s.
Proof.
  induction n as [|n IH]; intros s Hlen Hcu Hwf.
  { destruct s; [split; [constructor|reflexivity]|cbn in Hlen; lia]. }
  destruct s as [|u r]; [split; [constructor|reflexivity]|].
  inversion Hcu as [|? ? Hu Hr]; subst.
  cbn [well_formed scalar_values] in *.
  destruct (is_lead u) eqn:Hlead.
  - destruct r as [|l r']; [discriminate|].
    apply andb_prop in Hwf. destruct Hwf as [Htrail Hwf]. rewrite Htrail.
    inversion Hr as [|? ? Hl Hr']; subst.
    destruct (IH r' ltac:(cbn in Hlen; lia) Hr' Hwf) as [IHs IHt].
    unfold is_lead in Hlead. unfold is_trail in Htrail.
    apply andb_prop in Hlead, Htrail.
    destruct Hlead as [Hl1 Hl2], Htrail as [Ht1 Ht2].
    apply N.leb_le in Hl1, Hl2, Ht1, Ht2.
    split.
    + constructor; [|exact IHs]. unfold scalar. lia.
    + cbn [flat_map]. rewrite IHt. unfold utf16_of.
      destruct (N.ltb_spec (65536 + (u - 55296) * 1024 + (l - 56320)) 65536);
        [lia|].
      cbn [app]. f_equal; [arith|]. f_equal. arith.
  - apply andb_prop in Hwf. destruct Hwf as [Htrail Hwf].
    apply negb_true_iff in Htrail. rewrite Htrail.
    destruct (IH r ltac:(cbn in Hlen; lia) Hr Hwf) as [IHs IHt].
    unfold is_lead in Hlead. unfold is_trail in Htrail.
    split.
    + constructor; [|exact IHs]. unfold scalar. cbv beta in Hu.
      destruct (N.leb_spec 55296 u), (N.leb_spec u 56319),
        (N.leb_spec 56320 u), (N.leb_spec u 57343);
        cbn [andb] in Hlead, Htrail; try discriminate; lia.
    + cbn [flat_map]. rewrite IHt. unfold utf16_of.
      cbv beta in Hu. destruct (N.ltb_spec u 65536); [reflexivity|lia].
Qed.

(** The first scalar value of a well-formed string that does not start
    with U+FEFF is not U+FEFF. *)
Lemma no_bom_in_scalars (s : text) :
  starts_with_bom s = false -> drop_bom (scalar_values s) = scalar_values s.
Proof.
  destruct s as [|u r]; [reflexivity|].
  cbn [starts_with_bom scalar_values]. intros Hu.
  destruct (is_lead u) eqn:Hlead.
  - destruct r as [|l r']; [reflexivity|].
    destruct (is_trail l) eqn:Htrail; [|reflexivity].
    unfold is_lead in Hlead. unfold is_trail in Htrail.
    apply andb_prop in Hlead, Htrail.
    destruct Hlead as [Hl1 Hl2], Htrail as [Ht1 Ht2].
    apply N.leb_le in Hl1, Hl2, Ht1, Ht2.
    unfold drop_bom.
    destruct (N.eqb_spec (65536 + (u - 55296) * 1024 + (l - 56320)) 65279);
      [lia|reflexivity].
  - destruct (is_trail u); [reflexivity|].
    unfold drop_bom. now rewrite Hu.
Qed.

(** The text codec returns a well-formed string that does not start with
    U+FEFF. *)
Lemma codec_roundtrip (s : text) :
  code_units s -> well_formed s = true -> starts_with_bom s = false ->
  TextDecoder_decode (TextEncoder_encode s) = s.
Proof.
  intros Hcu Hwf Hbom.
  destruct (scalars_of_well_formed (length s) s (le_n _) Hcu Hwf) as [Hsc Htext].
  unfold TextDecoder_decode, TextEncoder_encode.
  rewrite bytes_back.
  - now rewrite (decode_all _ Hsc), (no_bom_in_scalars s Hbom).
  - clear -Hsc. induction Hsc as [|c cs Hc _ IH]; [constructor|].
    cbn [flat_map]. apply Forall_app. split; [now apply utf8_small|exact IH].
Qed.

(** *** The round trip of a secret *)

(** C7: decrypting what [encrypt] produced, with the same key, returns the
    plaintext, for every plaintext that is well-formed text (every
    surrogate is half of a pair) and does not start with U+FEFF.  The round
    trip through the text codec is proved, not assumed; the text that
    [encrypt] returns decodes to the 12-byte nonce followed by the AEAD
    output, and [decrypt] hands exactly these two parts to the AEAD.  The
    one hypothesis on the platform is the contract of AES-GCM on this
    input: decryption inverts encryption under the same key and nonce. *)
Theorem encrypt_decrypt_roundtrip `{WebPlatform} (source : nat -> byte)
    (P : text) (K : CryptoKey) :
  let nonce := getRandomValues source ivLength in
  let sealed := AES_GCM_encrypt K nonce (JsText.TextEncoder_encode P) in
  code_units P ->
  well_formed P = true ->
  starts_with_bom P = false ->
  AES_GCM_decrypt K nonce sealed = Some (JsText.TextEncoder_encode P) ->
  SecretShareCryptoText.decrypt (SecretShareCryptoText.encrypt source P K) K = Some P /\
  length nonce = 12%nat /\
  base64ToArrayBuffer (SecretShareCryptoText.encrypt source P K) = Some (nonce ++ sealed) /\
  take ivLength (nonce ++ sealed) = nonce /\
  drop ivLength (nonce ++ sealed) = sealed.
Proof.
  intros nonce sealed Hunits Hwf Hbom Haead.
  assert (Hlen : length nonce = ivLength).
  { unfold nonce, getRandomValues. now rewrite length_map, length_seq. }
  assert (Htake : take ivLength (nonce ++ sealed) = nonce).
  { rewrite <- Hlen. apply take_app_length. }
  assert (Hdrop : drop ivLength (nonce ++ sealed) = sealed).
  { rewrite <- Hlen. apply drop_app_length. }
  assert (Hwire : base64ToArrayBuffer (SecretShareCryptoText.encrypt source P K) = Some (nonce ++ sealed)).
  { unfold SecretShareCryptoText.encrypt. apply text_form_inverse. }
  repeat split; try assumption.
  unfold SecretShareCryptoText.decrypt. rewrite Hwire, Htake, Hdrop, Haead.
  now rewrite (codec_roundtrip P Hunits Hwf Hbom).
Qed.

(** *** The statements at concrete inputs (test platform) *)

(** The plaintext is "hé😀": a letter, a letter beyond ASCII and a
    surrogate pair. *)
Lemma encrypt_decrypt_roundtrip_witness :
  let K : @CryptoKey TestPlatform.platform := repeat x07%byte 32 in
  let P : text := [104; 233; 55357; 56832]%N in
  let nonce := getRandomValues (fun _ => x01%byte) ivLength in
  let sealed := AES_GCM_encrypt K nonce (JsText.TextEncoder_encode P) in
  SecretShareCryptoText.decrypt (SecretShareCryptoText.encrypt (fun _ => x01%byte) P K) K = Some P /\
  length nonce = 12%nat /\
  base64ToArrayBuffer (SecretShareCryptoText.encrypt (fun _ => x01%byte) P K) = Some (nonce ++ sealed) /\
  take ivLength (nonce ++ sealed) = nonce /\
  drop ivLength (nonce ++ sealed) = sealed.
Proof.
  intros K P.
  apply (@encrypt_decrypt_roundtrip TestPlatform.platform (fun _ => x01%byte) P K).
  - repeat constructor.
  - reflexivity.
  - reflexivity.
  - vm_compute. reflexivity.
Defined.

(** C7 fails as stated, for all plaintexts.  The plaintext U+FEFF "hi"
    is encrypted and decrypted under the same key and comes back as "hi":
    the encoder writes the bytes EF BB BF 68 69 and the decoder, built
    with its defaults, leaves the leading U+FEFF out.  The plaintext made
    of the lone surrogate D83D comes back as U+FFFD, which the encoder
    put in its place. *)
Lemma encrypt_decrypt_counterexample :
  let K : @CryptoKey TestPlatform.platform := repeat x07%byte 32 in
  let source := fun _ : nat => x01%byte in
  map Byte.to_N (JsText.TextEncoder_encode [65279; 104; 105]%N) = [239; 187; 191; 104; 105]%N /\
  SecretShareCryptoText.decrypt (SecretShareCryptoText.encrypt source [65279; 104; 105]%N K) K = Some [104; 105]%N /\
  ([104; 105]%N : text) <> [65279; 104; 105]%N /\
  SecretShareCryptoText.decrypt (SecretShareCryptoText.encrypt source [55357]%N K) K = Some [65533]%N /\
  ([65533]%N : text) <> [55357]%N.
Proof.
  cbv zeta.
  split; [vm_compute; reflexivity|].
  split; [vm_compute; reflexivity|].
  split; [discriminate|].
  split; [vm_compute; reflexivity|].
  discriminate.
Qed.

End TextFacts.

(** * Further facts about the handlers *)

Module LifecycleFacts.
Import Base64 Base64Notions Base64Facts Worker Runtime Notions MoreNotions WorkerFacts.

Section WithPlatform.
Context `{WebPlatform}.

(** X1: a create call writes once or not at all.  For a worker whose
    [CSRF_SECRET] is not empty and a request whose body is not JSON or is
    a JSON object whose fields, where present, have the declared types, the
    call does not throw and does one of two things: it answers 200 after
    writing exactly one entry, the new record with a view count of 0 under
    the hash of the identifier it returns, with an expiry that is
    [expirationHours * 3600] when [expirationHours] is a whole number; or
    it answers an error (400, 403 or 500) and leaves the store as it
    was. *)
Theorem create_writes_once_or_not_at_all (o : Oracle) (w : World) (env : Env)
    (request : option CreateSecretRequest) :
  CSRF_SECRET env <> EmptyString ->
  let result := run o (handleCreateSecret request env) w in
  (exists data secretId expiresAt mv eh createdAt ttl,
      request = Some data /\
      create_maxViews data = Some mv /\
      create_expirationHours data = Some eh /\
      fst result = Returned (json 200 (CreatedBody secretId expiresAt mv)) /\
      store (snd result)
      = <[hashSecretId secretId :=
            {| kv_value := Json {| encryptedData := field (create_encryptedData data);
                                   maxViews := mv;
                                   viewCount := 0;
                                   createdAt := createdAt |};
               kv_expirationTtl := Some ttl |}]> (store w) /\
      (forall hours : Z, eh = inject_Z hours -> ttl = inject_Z (hours * 3600))) \/
  (exists st msg,
      fst result = Returned (json st (ErrorBody msg)) /\
      (st = 400 \/ st = 403 \/ st = 500)%Z /\
      store (snd result) = store w).
Proof.
  intros _ result. unfold result, handleCreateSecret.
  destruct request as [data|];
    [|right; eexists _, _; cbn; repeat split; auto].
  destruct (create_maxViews data) as [mv|] eqn:Hmv;
    [|right; eexists _, _; cbn; repeat split; auto].
  destruct (create_expirationHours data) as [eh|] eqn:Heh;
    [|right; eexists _, _; cbn; repeat split; auto].
  destruct (falsy (create_encryptedData data) || falsy (create_csrfToken data));
    [right; eexists _, _; cbn; repeat split; auto|].
  destruct (Qlt_bool mv 1 || Qlt_bool 100 mv);
    [right; eexists _, _; cbn; repeat split; auto|].
  destruct (Qlt_bool eh 1 || Qlt_bool 8760 eh);
    [right; eexists _, _; cbn; repeat split; auto|].
  unfold mbind, prog_bind. rewrite run_bind.
  destruct (run_validate o w (field (create_csrfToken data)) (CSRF_SECRET env))
    as (w' & -> & Hstore & Hw').
  destruct (validates_at _ _ _).
  2:{ right. eexists _, _. cbn [negb run mret prog_ret fst snd].
      repeat split; auto. }
  specialize (Hw' eq_refl). subst w'. clear Hstore.
  unfold generateSecretId, crypto_getRandomValues, Date_now, SECRETS_KV_put,
    mbind, mret, prog_bind, prog_ret.
  cbn [negb bind run advance tick store]. unfold do_put.
  cbn [advance tick store].
  destruct (rejects o (S (S (S (tick w))))).
  - right. eexists _, _. cbn [run fst snd advance store]. repeat split; auto.
  - left. cbn [run fst snd advance store tick].
    eexists data, _, _, mv, eh, _, _.
    split; [reflexivity|]. split; [exact Hmv|]. split; [exact Heh|].
    split; [reflexivity|]. split; [reflexivity|].
    intros hours ->. reflexivity.
Qed.

(** A retrieval whose request is unreadable or incomplete, whose token is
    refused or whose read of the store fails or finds nothing changes
    nothing: only a call that returns the envelope, or that finds the
    record already exhausted, touches the store. *)
Lemma run_retrieve_cases (o : Oracle) (w : World) (env : Env)
    (request : option RetrieveSecretRequest) :
  let result := run o (handleRetrieveSecret request env) w in
  returns_envelope (fst result) = true \/
  fst result = Returned (json 410 (ErrorBody "Secret has exceeded maximum views")) \/
  ((fst result = Threw \/
    exists st msg, fst result = Returned (json st (ErrorBody msg)) /\
                   (st = 400 \/ st = 403 \/ st = 404 \/ st = 500)%Z) /\
   store (snd result) = store w).
Proof.
  intros result. unfold result.
  destruct request as [data|].
  2:{ right. right. rewrite run_retrieve_unparsed. split; [right|reflexivity].
      eexists _, _. split; [reflexivity|]. auto. }
  destruct (falsy (retrieve_secretId data) || falsy (retrieve_csrfToken data)) eqn:Hf.
  { right. right. rewrite run_retrieve_missing by exact Hf.
    split; [right|reflexivity]. eexists _, _. split; [reflexivity|]. auto. }
  destruct (validates_at (field (retrieve_csrfToken data)) (CSRF_SECRET env)
              (clock o (tick w))) eqn:Hv.
  2:{ destruct (run_retrieve_forbidden o w env data Hf Hv) as (w' & -> & Hst).
      right. right. split; [right|exact Hst].
      eexists _, _. split; [reflexivity|]. auto. }
  rewrite (run_retrieve_checked o w env data Hf Hv). cbv zeta.
  destruct (rejects o _).
  { right. right. split; [right|reflexivity].
    eexists _, _. split; [reflexivity|]. auto. }
  destruct (store w !! _) as [[[d|raw] ttl]|];
    cbn [fmap option_fmap option_map kv_value].
  - destruct (Qle_bool (maxViews d) (viewCount d)).
    + destruct (rejects o _).
      * right. right. split; [left|]; reflexivity.
      * right. left. reflexivity.
    + left. reflexivity.
  - right. right. split; [right|reflexivity].
    destruct (Js.truthy raw); eexists _, _; (split; [reflexivity|]); auto.
  - right. right. split; [right|reflexivity].
    eexists _, _. split; [reflexivity|]. auto.
Qed.

(** X2: a retrieval that does not return the envelope consumes no view:
    unless the call answers with the envelope or finds the record already
    exhausted (410), the store after the call is the store before it.  This
    covers unreadable and incomplete requests, refused tokens, unknown
    identifiers and failed reads. *)
Theorem retrieve_without_envelope_changes_nothing (o : Oracle) (w : World)
    (env : Env) (request : option RetrieveSecretRequest) :
  let result := run o (handleRetrieveSecret request env) w in
  returns_envelope (fst result) = false ->
  fst result <> Returned (json 410 (ErrorBody "Secret has exceeded maximum views")) ->
  store (snd result) = store w.
Proof.
  intros result Hno H410.
  destruct (run_retrieve_cases o w env request) as [Henv|[Hgone|[_ Hst]]].
  - fold result in Henv. congruence.
  - fold result in Hgone. contradiction.
  - exact Hst.
Qed.

(** X3: a retrieval never touches an entry other than the one stored under
    the hash of the identifier it was asked for, whatever the store answers. *)
Theorem retrieve_touches_one_key (o : Oracle) (w : World) (env : Env)
    (data : RetrieveSecretRequest) (k : string) :
  k <> hashSecretId (field (retrieve_secretId data)) ->
  store (snd (run o (handleRetrieveSecret (Some data) env) w)) !! k = store w !! k.
Proof.
  intros Hk.
  destruct (falsy (retrieve_secretId data) || falsy (retrieve_csrfToken data)) eqn:Hf.
  { now rewrite run_retrieve_missing by exact Hf. }
  destruct (validates_at (field (retrieve_csrfToken data)) (CSRF_SECRET env)
              (clock o (tick w))) eqn:Hv.
  2:{ destruct (run_retrieve_forbidden o w env data Hf Hv) as (w' & -> & Hst).
      cbn [snd]. now rewrite Hst. }
  rewrite (run_retrieve_checked o w env data Hf Hv). cbv zeta.
  destruct (rejects o _); [reflexivity|].
  destruct (store w !! hashSecretId _) as [[[d|raw] ttl]|];
    cbn [fmap option_fmap option_map kv_value]; try reflexivity.
  destruct (Qle_bool (maxViews d) (viewCount d)).
  - destruct (rejects o _); cbn [snd advance store]; [reflexivity|].
    now rewrite lookup_delete_ne.
  - cbn [snd advance store]. destruct (rejects o _); [reflexivity|].
    destruct (Qle_bool _ _).
    + now rewrite lookup_delete_ne.
    + now rewrite lookup_insert_ne.
Qed.

(** X4: the write-back of a view that is not the last stores the record
    without an expiry: whatever time-to-live the entry had (the one that
    create set), the entry left by the retrieval has none. *)
Theorem retrieve_write_back_drops_expiry (o : Oracle) (w : World) (env : Env)
    (data : RetrieveSecretRequest) (d : SecretData) (ttl : option Q) :
  falsy (retrieve_secretId data) || falsy (retrieve_csrfToken data) = false ->
  validates_at (field (retrieve_csrfToken data)) (CSRF_SECRET env) (clock o (tick w)) = true ->
  rejects o (S (tick w)) = false ->
  rejects o (S (S (tick w))) = false ->
  store w !! hashSecretId (field (retrieve_secretId data))
  = Some {| kv_value := Json d; kv_expirationTtl := ttl |} ->
  Qle_bool (maxViews d) (viewCount d + 1) = false ->
  let result := run o (handleRetrieveSecret (Some data) env) w in
  returns_envelope (fst result) = true /\
  exists d',
    store (snd result) !! hashSecretId (field (retrieve_secretId data))
    = Some {| kv_value := Json d'; kv_expirationTtl := None |} /\
    viewCount d' = (viewCount d + 1)%Q /\
    maxViews d' = maxViews d /\
    encryptedData d' = encryptedData d /\
    createdAt d' = createdAt d.
Proof.
  intros Hf Hv Hget Hput Hlook Hlast result. unfold result.
  rewrite (run_retrieve_checked o w env data Hf Hv). cbv zeta.
  change (tick (advance w (store w))) with (S (tick w)).
  change (tick (advance (advance w (store w)) (store w))) with (S (S (tick w))).
  rewrite Hget, Hput, Hlook. cbn [fmap option_fmap option_map kv_value].
  assert (Hcheck : Qle_bool (maxViews d) (viewCount d) = false).
  { destruct (Qle_bool (maxViews d) (viewCount d)) eqn:Hc; [|reflexivity].
    apply Qle_bool_iff in Hc.
    assert (Hl : Qle_bool (maxViews d) (viewCount d + 1) = true).
    { apply Qle_bool_iff. eapply Qle_trans; [exact Hc|].
      rewrite <- (Qplus_0_r (viewCount d)) at 1.
      apply Qplus_le_r. discriminate. }
    congruence. }
  rewrite Hcheck, Hlast. cbn [fst snd advance store]. split; [reflexivity|].
  eexists. rewrite lookup_insert_eq. split; [reflexivity|].
  repeat split.
Qed.

(** X5: a record whose stored count has reached its limit is never served:
    the call answers 410, removes the entry, and leaves the key absent. *)
Theorem retrieve_exhausted_record_is_removed (o : Oracle) (w : World) (env : Env)
    (data : RetrieveSecretRequest) (d : SecretData) (ttl : option Q) :
  falsy (retrieve_secretId data) || falsy (retrieve_csrfToken data) = false ->
  validates_at (field (retrieve_csrfToken data)) (CSRF_SECRET env) (clock o (tick w)) = true ->
  rejects o (S (tick w)) = false ->
  rejects o (S (S (tick w))) = false ->
  store w !! hashSecretId (field (retrieve_secretId data))
  = Some {| kv_value := Json d; kv_expirationTtl := ttl |} ->
  (maxViews d <= viewCount d)%Q ->
  let result := run o (handleRetrieveSecret (Some data) env) w in
  fst result = Returned (json 410 (ErrorBody "Secret has exceeded maximum views")) /\
  store (snd result) = delete (hashSecretId (field (retrieve_secretId data))) (store w) /\
  store (snd result) !! hashSecretId (field (retrieve_secretId data)) = None.
Proof.
  intros Hf Hv Hget Hdel Hlook Hfull result. unfold result.
  rewrite (run_retrieve_checked o w env data Hf Hv). cbv zeta.
  change (tick (advance w (store w))) with (S (tick w)).
  change (tick (advance (advance w (store w)) (store w))) with (S (S (tick w))).
  rewrite Hget, Hdel, Hlook. cbn [fmap option_fmap option_map kv_value].
  apply Qle_bool_iff in Hfull. rewrite Hfull. cbn [fst snd advance store].
  repeat split. apply lookup_delete_eq.
Qed.


Section Sequence.
Variables (o : Oracle) (env : Env) (secretId token : string).
Hypothesis Hid : Js.truthy secretId = true.
Hypothesis Htoken : forall t, validates_at token (CSRF_SECRET env) (clock o t) = true.
Hypothesis Hstore : reliable o.

Let call := handleRetrieveSecret (retrieval secretId token) env.
Let key := hashSecretId secretId.



End Sequence.




(** X25: the one way in which a retrieve call throws.  For a worker whose
    [CSRF_SECRET] is not empty, a request whose body is not JSON or is a
    JSON object whose fields, where present, are strings, and a store that
    holds nothing but records, the handler's promise is rejected exactly
    when the request is complete, the token is accepted, the read returns
    a record whose count has reached its limit, and the store rejects the
    delete of that record, which is awaited outside any [try]; in every
    other case the handler returns a response. *)
Theorem retrieve_throws_only_on_failed_cleanup (o : Oracle) (w : World) (env : Env)
    (request : option RetrieveSecretRequest) :
  CSRF_SECRET env <> EmptyString ->
  records_only w ->
  (fst (run o (handleRetrieveSecret request env) w) = Threw <->
   exists data d ttl,
     request = Some data /\
     falsy (retrieve_secretId data) || falsy (retrieve_csrfToken data) = false /\
     validates_at (field (retrieve_csrfToken data)) (CSRF_SECRET env) (clock o (tick w))
     = true /\
     rejects o (S (tick w)) = false /\
     store w !! hashSecretId (field (retrieve_secretId data))
     = Some {| kv_value := Json d; kv_expirationTtl := ttl |} /\
     (maxViews d <= viewCount d)%Q /\
     rejects o (S (S (tick w))) = true).
Proof.
  intros _ Hrecords. split.
  - destruct request as [data|];
      [|rewrite run_retrieve_unparsed; intros Hc; discriminate Hc].
    destruct (falsy (retrieve_secretId data) || falsy (retrieve_csrfToken data)) eqn:Hf.
    { rewrite run_retrieve_missing by exact Hf. intros Hc. discriminate Hc. }
    destruct (validates_at (field (retrieve_csrfToken data)) (CSRF_SECRET env)
                (clock o (tick w))) eqn:Hv.
    2:{ destruct (run_retrieve_forbidden o w env data Hf Hv) as (w' & -> & _).
        intros Hc. discriminate Hc. }
    rewrite (run_retrieve_checked o w env data Hf Hv). cbv zeta.
    change (tick (advance w (store w))) with (S (tick w)).
    change (tick (advance (advance w (store w)) (store w))) with (S (S (tick w))).
    destruct (rejects o (S (tick w))) eqn:Hget; [intros Hc; discriminate Hc|].
    destruct (store w !! _) as [[[d|raw] ttl]|] eqn:Hlook;
      cbn [fmap option_fmap option_map kv_value].
    + destruct (Qle_bool (maxViews d) (viewCount d)) eqn:Hfull;
        [|intros Hc; discriminate Hc].
      destruct (rejects o (S (S (tick w)))) eqn:Hdel; [|intros Hc; discriminate Hc].
      intros _. exists data, d, ttl. apply Qle_bool_iff in Hfull.
      repeat split; auto.
    + destruct (Hrecords _ _ Hlook) as [d Hd]. discriminate Hd.
    + intros Hc. discriminate Hc.
  - intros (data & d & ttl & -> & Hf & Hv & Hget & Hlook & Hfull & Hdel).
    rewrite (run_retrieve_checked o w env data Hf Hv). cbv zeta.
    change (tick (advance w (store w))) with (S (tick w)).
    change (tick (advance (advance w (store w)) (store w))) with (S (S (tick w))).
    rewrite Hget, Hlook. cbn [fmap option_fmap option_map kv_value].
    apply Qle_bool_iff in Hfull. rewrite Hfull, Hdel. reflexivity.
Qed.

End WithPlatform.

(** *** The statements at concrete inputs (test platform) *)

Import Fixtures.

Lemma retrieve_without_envelope_changes_nothing_witness :
  store (snd (run (TestPlatform.oracle 1000 x01%byte [])
                (handleRetrieveSecret (retrieval secretId "stale") env) (holding 3 0)))
  = store (holding 3 0).
Proof.
  apply (retrieve_without_envelope_changes_nothing
           (TestPlatform.oracle 1000 x01%byte []) (holding 3 0) env
           (retrieval secretId "stale")).
  - vm_compute. reflexivity.
  - intros Hc. vm_compute in Hc. discriminate Hc.
Defined.

Lemma retrieve_touches_one_key_witness :
  store (snd (run (TestPlatform.oracle 1000 x01%byte [])
                (handleRetrieveSecret (Some request) env) (holding 1 0))) !! "other"
  = store (holding 1 0) !! "other".
Proof.
  apply (retrieve_touches_one_key (TestPlatform.oracle 1000 x01%byte [])
           (holding 1 0) env request "other").
  intros Hc. vm_compute in Hc. discriminate Hc.
Defined.

Lemma retrieve_write_back_drops_expiry_witness :
  let result := run (TestPlatform.oracle 1000 x01%byte [])
                  (handleRetrieveSecret (Some request) env) (holding 3 0) in
  returns_envelope (fst result) = true /\
  exists d',
    store (snd result) !! hashSecretId (field (retrieve_secretId request))
    = Some {| kv_value := Json d'; kv_expirationTtl := None |} /\
    viewCount d' = (viewCount (record 3 0) + 1)%Q /\
    maxViews d' = maxViews (record 3 0) /\
    encryptedData d' = encryptedData (record 3 0) /\
    createdAt d' = createdAt (record 3 0).
Proof.
  apply (retrieve_write_back_drops_expiry (TestPlatform.oracle 1000 x01%byte [])
           (holding 3 0) env request (record 3 0) (Some 3600%Q)).
  - reflexivity.
  - vm_compute. reflexivity.
  - reflexivity.
  - reflexivity.
  - vm_compute. reflexivity.
  - reflexivity.
Defined.

Lemma retrieve_exhausted_record_is_removed_witness :
  let result := run (TestPlatform.oracle 1000 x01%byte [])
                  (handleRetrieveSecret (Some request) env) (holding 2 2) in
  fst result = Returned (json 410 (ErrorBody "Secret has exceeded maximum views")) /\
  store (snd result) = delete (hashSecretId (field (retrieve_secretId request)))
                         (store (holding 2 2)) /\
  store (snd result) !! hashSecretId (field (retrieve_secretId request)) = None.
Proof.
  apply (retrieve_exhausted_record_is_removed (TestPlatform.oracle 1000 x01%byte [])
           (holding 2 2) env request (record 2 2) (Some 3600%Q)).
  - reflexivity.
  - vm_compute. reflexivity.
  - reflexivity.
  - reflexivity.
  - vm_compute. reflexivity.
  - intros Hc. vm_compute in Hc. discriminate Hc.
Defined.



Lemma retrieve_throws_only_on_failed_cleanup_witness :
  fst (run (TestPlatform.oracle 1000 x01%byte [2%nat])
         (handleRetrieveSecret (Some request) env) (holding 2 2))
  = Threw.
Proof.
  apply (proj2 (retrieve_throws_only_on_failed_cleanup
                  (TestPlatform.oracle 1000 x01%byte [2%nat]) (holding 2 2) env
                  (Some request)
                  ltac:(discriminate)
                  ltac:(intros k e Hk; unfold holding in Hk; cbn [store] in Hk;
                        apply lookup_singleton_Some in Hk;
                        destruct Hk as [_ <-]; eexists; reflexivity))).
  exists request, (record 2 2), (Some 3600%Q).
  split; [reflexivity|].
  split; [reflexivity|].
  split; [vm_compute; reflexivity|].
  split; [reflexivity|].
  split; [vm_compute; reflexivity|].
  split; [intros Hc; vm_compute in Hc; discriminate Hc|].
  reflexivity.
Defined.

Lemma create_writes_once_or_not_at_all_witness :
  let request := Some {| create_encryptedData := Some "ENVELOPE";
                         create_maxViews := Some 3%Q;
                         create_expirationHours := Some (inject_Z 24);
                         create_csrfToken := Some token |} in
  let result := run (TestPlatform.oracle 1000 x01%byte [])
                  (handleCreateSecret request env) fresh in
  (exists data secretId expiresAt mv eh createdAt ttl,
      request = Some data /\
      create_maxViews data = Some mv /\
      create_expirationHours data = Some eh /\
      fst result = Returned (json 200 (CreatedBody secretId expiresAt mv)) /\
      store (snd result)
      = <[hashSecretId secretId :=
            {| kv_value := Json {| encryptedData := field (create_encryptedData data);
                                   maxViews := mv;
                                   viewCount := 0;
                                   createdAt := createdAt |};
               kv_expirationTtl := Some ttl |}]> (store fresh) /\
      (forall hours : Z, eh = inject_Z hours -> ttl = inject_Z (hours * 3600))) \/
  (exists st msg,
      fst result = Returned (json st (ErrorBody msg)) /\
      (st = 400 \/ st = 403 \/ st = 500)%Z /\
      store (snd result) = store fresh).
Proof.
  apply (create_writes_once_or_not_at_all (TestPlatform.oracle 1000 x01%byte [])
           fresh env
           (Some {| create_encryptedData := Some "ENVELOPE";
                    create_maxViews := Some 3%Q;
                    create_expirationHours := Some (inject_Z 24);
                    create_csrfToken := Some token |})).
  discriminate.
Defined.

End LifecycleFacts.

(** * The text form of identifiers and the anti-forgery token *)

Module CodecFacts.
Import Base64 Base64Notions Base64Facts SecretShareCrypto SecretShareCryptoFacts.
Import Worker Runtime Notions MoreNotions WorkerFacts.


(** The two encoders give the same text. *)
Lemma encoders_agree (buffer : list byte) :
  base64urlEncode buffer = arrayBufferToBase64 buffer.
Proof.
  unfold base64urlEncode, arrayBufferToBase64, btoa_list.
  set (codes := map N_of_ascii (map ascii_of_byte buffer)).
  assert (Hcodes : small 256 codes).
  { unfold small, codes. apply Forall_map, Forall_forall.
    intros c _. apply N_ascii_bounded. }
  pose proof (sextets_small codes Hcodes) as Hsx.
  rewrite padding_repeat, replace_url, map_app.
  assert (Hpad : forall k, map url (repeat pad_char k) = repeat pad_char k).
  { intros k. induction k as [|k IH]; [reflexivity|]. cbn [repeat map]. now rewrite IH. }
  rewrite Hpad, remove_pad_chars by exact Hsx.
  rewrite strip_trailing_padding by (apply url_chars_not_pad; exact Hsx).
  reflexivity.
Qed.

(** The two decoders add the same padding. *)
Lemma decoders_agree (text : string) :
  base64urlDecode text = base64ToArrayBuffer text.
Proof.
  unfold base64urlDecode, base64ToArrayBuffer, Js.replace_char, Js.repeat_char.
  rewrite !length_map.
  set (chars := list_ascii_of_string text).
  assert (Hmod : (length chars mod 4 < 4)%nat) by (apply Nat.mod_upper_bound; lia).
  destruct (length chars mod 4)%nat as [|[|[|[|k]]]] eqn:Hm; try lia.
  - cbn [Nat.sub Nat.modulo Nat.eqb repeat]. rewrite app_nil_r. reflexivity.
  - reflexivity.
  - reflexivity.
  - reflexivity.
Qed.

(** X7: the worker's own decoder inverts its encoder: decoding the text
    that [base64urlEncode] gives for a byte sequence returns that byte
    sequence, for every byte sequence of at most 32768 bytes.  The bound
    keeps the one call [String.fromCharCode(...buffer)] of the encoder
    within the number of arguments that a call takes; the worker itself
    encodes 32 bytes. *)
Theorem worker_codec_roundtrip (buffer : list byte) :
  (N.of_nat (length buffer) <= 32768)%N ->
  base64urlDecode (base64urlEncode buffer) = Some buffer.
Proof.
  intros _. rewrite decoders_agree, encoders_agree. apply text_form_inverse.
Qed.

(** X8: the worker and the frontend use the same text form.  Their
    encoders give the same text for every byte sequence of at most 32768
    bytes (within the limit of the call made by the worker's encoder),
    although one removes every [=] and the other the closing run of [=]
    only; their decoders give the same result on every text, although they
    compute the padding differently; so each side reads what the other
    wrote. *)
Theorem worker_and_frontend_codecs_agree (buffer : list byte) (text : string) :
  (N.of_nat (length buffer) <= 32768)%N ->
  base64urlEncode buffer = arrayBufferToBase64 buffer /\
  base64urlDecode text = base64ToArrayBuffer text /\
  base64ToArrayBuffer (base64urlEncode buffer) = Some buffer /\
  base64urlDecode (arrayBufferToBase64 buffer) = Some buffer.
Proof.
  intros _.
  split; [apply encoders_agree|].
  split; [apply decoders_agree|].
  split.
  - rewrite encoders_agree. apply text_form_inverse.
  - rewrite decoders_agree. apply text_form_inverse.
Qed.

(** The URL-safe text of sextets holds none of [=], [+], [/]. *)
Lemma url_text_safe (sx : list N) :
  small 64 sx ->
  Js.has_char "=" (string_of_list_ascii (map url (map b64char sx))) = false /\
  Js.has_char "+" (string_of_list_ascii (map url (map b64char sx))) = false /\
  Js.has_char "/" (string_of_list_ascii (map url (map b64char sx))) = false.
Proof.
  unfold small. intros Hsx.
  induction Hsx as [|n sx Hn _ IH]; [repeat split; reflexivity|].
  destruct IH as (IH1 & IH2 & IH3).
  destruct (sextet_url_safe n Hn) as (H1 & H2 & H3).
  cbn [map string_of_list_ascii Js.has_char].
  rewrite H1, H2, H3, IH1, IH2, IH3. repeat split; reflexivity.
Qed.

(** X9: the identifier that [generateSecretId] returns is the text of
    the 32 bytes drawn from the random source and of nothing else: it has
    43 characters, none of which is [=], [+] or [/], and it decodes to
    exactly those 32 bytes.  The call draws once and touches no entry of
    the store. *)
Theorem generated_id_shape (o : Oracle) (w : World) :
  let randomBytes := getRandomValues (entropy o (tick w)) 32 in
  let secretId := base64urlEncode randomBytes in
  run o generateSecretId w = (Returned secretId, advance w (store w)) /\
  String.length secretId = 43%nat /\
  Js.has_char "=" secretId = false /\
  Js.has_char "+" secretId = false /\
  Js.has_char "/" secretId = false /\
  length randomBytes = 32%nat /\
  base64urlDecode secretId = Some randomBytes.
Proof.
  intros randomBytes secretId.
  assert (Hlen : length randomBytes = 32%nat).
  { unfold randomBytes, getRandomValues. now rewrite length_map, length_seq. }
  split; [reflexivity|].
  split; [unfold secretId; now rewrite base64urlEncode_length, Hlen|].
  unfold secretId. rewrite decoders_agree, encoders_agree.
  destruct (text_form_chars randomBytes) as (sx & Hsx & Htext).
  rewrite text_form_inverse, Htext.
  destruct (url_text_safe sx Hsx) as (H1 & H2 & H3).
  repeat split; assumption.
Qed.

Section WithPlatform.
Context `{WebPlatform}.


(** X23: the store key is the text of the digest and of nothing else:
    it decodes to the SHA-256 digest of the encoded identifier, so two
    identifiers share a store key exactly when their digests are equal. *)
Theorem store_key_is_digest_text (a b : string) :
  base64urlDecode (hashSecretId a) = Some (SHA256 (TextEncoder_encode a)) /\
  (hashSecretId a = hashSecretId b <->
   SHA256 (TextEncoder_encode a) = SHA256 (TextEncoder_encode b)).
Proof.
  assert (Hdecode : forall s,
             base64urlDecode (hashSecretId s) = Some (SHA256 (TextEncoder_encode s))).
  { intros s. unfold hashSecretId.
    rewrite decoders_agree, encoders_agree. apply text_form_inverse. }
  split; [apply Hdecode|]. split.
  - intros Heq. apply (f_equal base64urlDecode) in Heq.
    rewrite !Hdecode in Heq. now injection Heq.
  - intros Heq. unfold hashSecretId. now rewrite Heq.
Qed.

End WithPlatform.


(** *** The statements at concrete inputs (test platform) *)

Import Fixtures.

Lemma worker_codec_roundtrip_witness :
  base64urlDecode (base64urlEncode [xfb%byte; xff%byte; x00%byte; x41%byte])
  = Some [xfb%byte; xff%byte; x00%byte; x41%byte].
Proof.
  apply (worker_codec_roundtrip [xfb%byte; xff%byte; x00%byte; x41%byte]).
  intros Hc. vm_compute in Hc. discriminate Hc.
Defined.

Lemma worker_and_frontend_codecs_agree_witness :
  let buffer := [xfb%byte; xff%byte; x00%byte; x41%byte] in
  base64urlEncode buffer = arrayBufferToBase64 buffer /\
  base64urlDecode "-_8AQQ" = base64ToArrayBuffer "-_8AQQ" /\
  base64ToArrayBuffer (base64urlEncode buffer) = Some buffer /\
  base64urlDecode (arrayBufferToBase64 buffer) = Some buffer.
Proof.
  apply (worker_and_frontend_codecs_agree
           [xfb%byte; xff%byte; x00%byte; x41%byte] "-_8AQQ").
  intros Hc. vm_compute in Hc. discriminate Hc.
Defined.


End CodecFacts.

(** * The router *)

Module RouterFacts.
Import Worker Router Runtime Notions MoreNotions WorkerFacts.

Section WithPlatform.
Context `{WebPlatform}.

(** Running a handler and attaching the headers to its response. *)
Lemma run_then {A B : Type} (o : Oracle) (p : prog A) (f : A -> B) (w : World) :
  run o (r ← p; mret (f r)) w
  = (match fst (run o p w) with Returned a => Returned (f a) | Threw => Threw end,
     snd (run o p w)).
Proof.
  unfold mbind, prog_bind. rewrite run_bind.
  destruct (run o p w) as [[a|] w']; reflexivity.
Qed.



(** X12: the origin list does not restrict a request that carries no
    [Origin] header.  Whatever [ALLOWED_ORIGINS] holds, such a request is
    routed and answered as if the variable were unset: same status, same
    body, same effects on the store; only the value of the
    [Access-Control-Allow-Origin] header may differ. *)
Theorem origin_list_spares_requests_without_origin (o : Oracle) (w : World)
    (request : Request) (env : FetchEnv) :
  falsy (origin request) = true ->
  let open := {| bindings := bindings env; ALLOWED_ORIGINS := None |} in
  same_answer (fst (run o (fetch request env) w)) (fst (run o (fetch request open) w)) /\
  snd (run o (fetch request env) w) = snd (run o (fetch request open) w).
Proof.
  intros Horigin open. unfold fetch. rewrite Horigin.
  rewrite !andb_false_r. cbn [bindings open].
  generalize (allowOriginHeader request env) (allowOriginHeader request open).
  intros a b.
  destruct (String.eqb (method request) "OPTIONS"); [repeat split|].
  destruct (String.prefix "/api/" (pathname request)); [|repeat split].
  destruct (String.eqb (route request) "GET /api/csrf-token").
  { rewrite !run_then. destruct (fst (run o _ w)); repeat split. }
  destruct (String.eqb (route request) "POST /api/create").
  { rewrite !run_then. destruct (fst (run o _ w)); repeat split. }
  destruct (String.eqb (route request) "POST /api/retrieve").
  { rewrite !run_then. destruct (fst (run o _ w)); repeat split. }
  destruct (String.eqb (route request) "GET /api/health"); repeat split.
Qed.

End WithPlatform.

(** *** The statements at concrete inputs (test platform) *)

Import Fixtures.


Lemma origin_list_spares_requests_without_origin_witness :
  let request := {| method := "POST"; pathname := "/api/retrieve"; origin := None;
                    request_json :=
                      Some {| body_encryptedData := None; body_maxViews := None;
                              body_expirationHours := None;
                              body_csrfToken := Some token;
                              body_secretId := Some secretId |} |} in
  let env := {| bindings := Fixtures.env;
                ALLOWED_ORIGINS := Some "https://app.example" |} in
  let open := {| bindings := bindings env; ALLOWED_ORIGINS := None |} in
  let o := TestPlatform.oracle 1000 x01%byte [] in
  same_answer (fst (run o (fetch request env) (holding 3 0)))
    (fst (run o (fetch request open) (holding 3 0))) /\
  snd (run o (fetch request env) (holding 3 0))
  = snd (run o (fetch request open) (holding 3 0)).
Proof.
  apply (@origin_list_spares_requests_without_origin TestPlatform.platform
           (TestPlatform.oracle 1000 x01%byte []) (holding 3 0)
           {| method := "POST"; pathname := "/api/retrieve"; origin := None;
              request_json :=
                Some {| body_encryptedData := None; body_maxViews := None;
                        body_expirationHours := None;
                        body_csrfToken := Some token;
                        body_secretId := Some secretId |} |}
           {| bindings := Fixtures.env;
              ALLOWED_ORIGINS := Some "https://app.example" |}).
  reflexivity.
Defined.

(** *** The origin list *)


Lemma split_on_app (c : ascii) (a b : string) :
  Js.has_char c a = false ->
  Js.split_on c (a +:+ String c b) = a :: Js.split_on c b.
Proof.
  intros Ha.
  induction a as [|x r IH];
    rewrite ?JsFacts.append_empty, ?JsFacts.append_String; cbn [Js.split_on].
  - now rewrite Ascii.eqb_refl.
  - cbn [Js.has_char] in Ha. apply orb_false_elim in Ha. destruct Ha as [-> Hr].
    now rewrite (IH Hr).
Qed.

Lemma trim_space (s : string) : trim (String " " s) = trim s.
Proof. reflexivity. Qed.

(** The entries of a list written with a comma and a space between them. *)
Lemma allowed_of_concat (entries : list string) :
  entries <> [] ->
  Forall (fun e => Js.has_char "," e = false /\ trim e = e) entries ->
  map trim (Js.split_on "," (String.concat ", " entries)) = entries.
Proof.
  intros Hne Hall. induction Hall as [|e r [Hc Ht] Hr IH]; [congruence|].
  destruct r as [|e' r'].
  - cbn [String.concat]. rewrite (JsFacts.split_on_single "," e Hc).
    cbn [map]. now rewrite Ht.
  - change (String.concat ", " (e :: e' :: r'))
      with (e +:+ String "," (String " " (String.concat ", " (e' :: r')))).
    rewrite (split_on_app "," e _ Hc). cbn [map]. rewrite Ht. f_equal.
    specialize (IH ltac:(discriminate)).
    cbn [Js.split_on]. change (Ascii.eqb " " ",") with false. cbv iota.
    destruct (Js.split_on "," (String.concat ", " (e' :: r'))) as [|p ps] eqn:Hsp.
    { now destruct (JsFacts.split_on_nonempty "," (String.concat ", " (e' :: r'))). }
    cbn [map] in *. now rewrite trim_space.
Qed.

Lemma includes_In (x : string) (l : list string) :
  includes x l = true <-> In x l.
Proof.
  unfold includes. rewrite existsb_exists. split.
  - intros (y & Hy & Heq). apply String.eqb_eq in Heq. now subst.
  - intros Hx. exists x. split; [exact Hx|apply String.eqb_refl].
Qed.

Section OriginList.
Context `{WebPlatform}.

(** X24: the origin list is read as a list of exact origins.  When
    [ALLOWED_ORIGINS] is written as entries separated by a comma and a
    space, a request that carries an [Origin] header and is not a preflight
    is let through exactly when its origin is one of the entries or the
    list holds [*]: then the origin is echoed in
    [Access-Control-Allow-Origin]; otherwise the answer is 403 with the
    header set to [null], and nothing is run. *)
Theorem origin_list_is_exact (o : Oracle) (w : World) (request : Request)
    (env : FetchEnv) (entries : list string) (site : string) :
  entries <> [] ->
  Forall (fun e => Js.has_char "," e = false /\ trim e = e) entries ->
  ALLOWED_ORIGINS env = Some (String.concat ", " entries) ->
  origin request = Some site ->
  Js.truthy site = true ->
  method request <> "OPTIONS" ->
  (In site entries \/ In "*" entries ->
   isOriginAllowed request env = true /\ allowOriginHeader request env = site) /\
  (~ (In site entries \/ In "*" entries) ->
   run o (fetch request env) w
   = (Returned (with_cors "null" (json 403 (ErrorBody "Origin not allowed"))), w)).
Proof.
  intros Hne Hall Henv Horigin Hsite Hmethod.
  assert (Hlist : allowedOrigins env = entries).
  { unfold allowedOrigins. rewrite Henv. now apply allowed_of_concat. }
  assert (Hallowed : isOriginAllowed request env = true <->
                     In site entries \/ In "*" entries).
  { unfold isOriginAllowed. rewrite Hlist, Horigin. cbn [falsy field].
    rewrite Hsite. cbn [negb andb].
    rewrite orb_true_iff, !includes_In. tauto. }
  split.
  - intros Hin. apply Hallowed in Hin. split; [exact Hin|].
    unfold allowOriginHeader. rewrite Hin, Horigin. cbn [falsy field].
    now rewrite Hsite.
  - intros Hout.
    assert (Hno : isOriginAllowed request env = false).
    { destruct (isOriginAllowed request env); [|reflexivity].
      exfalso. apply Hout, Hallowed. reflexivity. }
    unfold fetch, allowOriginHeader. rewrite Hno, Horigin. cbn [falsy].
    rewrite Hsite. cbn [negb andb].
    destruct (String.eqb_spec (method request) "OPTIONS") as [Heq|_];
      [contradiction|].
    reflexivity.
Qed.

End OriginList.

Lemma origin_list_is_exact_witness :
  let request := {| method := "GET"; pathname := "/api/csrf-token";
                    origin := Some "https://b.example"; request_json := None |} in
  let env := {| bindings := Fixtures.env;
                ALLOWED_ORIGINS := Some "https://a.example, https://b.example" |} in
  let entries := ["https://a.example"; "https://b.example"]%string in
  let site := "https://b.example"%string in
  (In site entries \/ In "*"%string entries ->
   isOriginAllowed request env = true /\ allowOriginHeader request env = site) /\
  (~ (In site entries \/ In "*"%string entries) ->
   run (TestPlatform.oracle 1000 x01%byte []) (fetch request env) fresh
   = (Returned (with_cors "null" (json 403 (ErrorBody "Origin not allowed"))), fresh)).
Proof.
  apply (@origin_list_is_exact TestPlatform.platform
           (TestPlatform.oracle 1000 x01%byte []) fresh
           {| method := "GET"; pathname := "/api/csrf-token";
              origin := Some "https://b.example"; request_json := None |}
           {| bindings := Fixtures.env;
              ALLOWED_ORIGINS := Some "https://a.example, https://b.example" |}
           ["https://a.example"; "https://b.example"]%string
           "https://b.example"%string).
  - discriminate.
  - repeat constructor.
  - reflexivity.
  - reflexivity.
  - reflexivity.
  - discriminate.
Defined.


End RouterFacts.

(** * Keys, passwords and random strings of the frontend *)

Module KeyFacts.
Import Base64 Base64Notions Base64Facts SecretShareCrypto SecretShareCryptoOps.
Import SecretShareCryptoFacts SecretShareCryptoKeys MoreNotions.

Lemma sextet_class_table : forallb sextet_class_ok (map N.of_nat (seq 0 64)) = true.
Proof. vm_compute. reflexivity. Qed.

Lemma sextet_class_facts (n : N) :
  (n < 64)%N ->
  unurl (b64char n) = b64char n /\
  App.is_base64_char (url (b64char n)) = (n <? 62)%N /\
  Ascii.eqb (url (b64char n)) "-" = (n =? 62)%N /\
  Ascii.eqb (url (b64char n)) "_" = (n =? 63)%N /\
  Worker.is_js_whitespace (url (b64char n)) = false /\
  Ascii.eqb (url (b64char n)) "=" = false.
Proof.
  intros Hn.
  assert (Hok : sextet_class_ok n = true).
  { pose proof sextet_class_table as Ht.
    rewrite forallb_forall in Ht. apply Ht.
    apply in_map_iff. exists (N.to_nat n). split; [lia|].
    apply in_seq. lia. }
  unfold sextet_class_ok in Hok.
  repeat (apply andb_prop in Hok; destruct Hok as [Hok ?]).
  repeat split.
  - now apply Ascii.eqb_eq.
  - now apply Bool.eqb_prop.
  - now apply Bool.eqb_prop.
  - now apply Bool.eqb_prop.
  - now apply negb_true_iff.
  - now apply negb_true_iff.
Qed.

Lemma length_list_ascii (s : string) :
  length (list_ascii_of_string s) = String.length s.
Proof. induction s as [|c s IH]; [reflexivity|]. cbn. now rewrite IH. Qed.

(** The text of [btoa] is left alone by the decoder's substitutions and
    needs no padding. *)
Lemma btoa_plain (l : list ascii) :
  map unurl (btoa_list l) = btoa_list l /\ (length (btoa_list l) mod 4 = 0)%nat.
Proof.
  unfold btoa_list.
  set (codes := map N_of_ascii l).
  assert (Hcodes : small 256 codes).
  { unfold small, codes. apply Forall_map, Forall_forall.
    intros c _. apply N_ascii_bounded. }
  pose proof (sextets_small codes Hcodes) as Hsx.
  split.
  - rewrite map_app. f_equal.
    + unfold small in Hsx. induction Hsx as [|n sx Hn _ IH]; [reflexivity|].
      cbn [map]. rewrite IH.
      destruct (sextet_class_facts n Hn) as (-> & _). reflexivity.
    + unfold padding_of. destruct (length l mod 3)%nat as [|[|[|k]]]; reflexivity.
  - rewrite length_app, length_map.
    assert (Hlen : length l = length codes) by (unfold codes; now rewrite length_map).
    rewrite padding_repeat, repeat_length, Hlen. unfold pad_count.
    destruct (sextets_shape codes) as [[H3 H4]|[[H3 H4]|[H3 H4]]]; rewrite H3;
      cbn [Nat.add]; rewrite ?Nat.add_0_r.
    + exact H4.
    + rewrite <- Nat.Div0.add_mod_idemp_l, H4. reflexivity.
    + rewrite <- Nat.Div0.add_mod_idemp_l, H4. reflexivity.
Qed.

(** X13: the frontend decoder also reads ordinary base64.  Given the
    padded text that [btoa] produces for a byte sequence, with [+] and [/]
    and closing [=], [base64ToArrayBuffer] returns that byte sequence: the
    substitutions leave the text alone and no padding is added. *)
Theorem decoder_reads_standard_base64 (buffer : list byte) :
  base64ToArrayBuffer (btoa (string_of_list_ascii (map ascii_of_byte buffer)))
  = Some buffer.
Proof.
  unfold base64ToArrayBuffer, btoa.
  rewrite !list_ascii_of_string_of_list_ascii.
  set (binary := map ascii_of_byte buffer).
  destruct (btoa_plain binary) as [Hplain Hlen].
  rewrite replace_unurl, Hplain, Hlen. cbn [Nat.sub Nat.eqb].
  rewrite atob_btoa_list.
  unfold binary. rewrite map_map. f_equal.
  rewrite <- (map_id buffer) at 2. apply map_ext. intros b.
  apply byte_of_ascii_of_byte.
Qed.

(** *** Random identifiers and passwords *)

Lemma hex_digit_lower (n : N) : is_lower_hex (Worker.hex_digit n) = true.
Proof.
  unfold Worker.hex_digit. generalize (N.to_nat n). intros k.
  do 16 (destruct k as [|k]; [reflexivity|]). destruct k; reflexivity.
Qed.

Lemma hex_of_bytes_shape (bytes : list byte) :
  String.length (Worker.hex_of_bytes bytes) = (2 * length bytes)%nat /\
  Forall (fun c => is_lower_hex c = true)
    (list_ascii_of_string (Worker.hex_of_bytes bytes)).
Proof.
  unfold Worker.hex_of_bytes.
  rewrite JsFacts.string_length_of_list, list_ascii_of_string_of_list_ascii.
  induction bytes as [|b bytes [IHl IHf]]; [split; [reflexivity|constructor]|].
  cbn [flat_map app length]. split; [rewrite IHl; lia|].
  repeat (apply List.Forall_cons; [apply hex_digit_lower|]). exact IHf.
Qed.

(** X14: [generateRandomId(n)] returns two lower-case hexadecimal digits
    per byte, [2 n] characters in all, when [n] is at most 65536; for a
    larger [n] it returns no string (the call fails). *)
Theorem random_id_shape (source : nat -> byte) (n : nat) :
  ((N.of_nat n <= 65536)%N ->
   exists id,
     generateRandomId source n = Done id /\
     String.length id = (2 * n)%nat /\
     Forall (fun c => is_lower_hex c = true) (list_ascii_of_string id)) /\
  ((65536 < N.of_nat n)%N ->
   forall id, generateRandomId source n <> Done id).
Proof.
  unfold generateRandomId, getRandomValues_checked.
  destruct (N.leb_spec (N.of_nat n) 65536) as [Hle|Hgt].
  - split; [|lia]. intros _.
    destruct (hex_of_bytes_shape (getRandomValues source n)) as [Hl Hf].
    unfold getRandomValues in Hl at 2. rewrite length_map, length_seq in Hl.
    eexists. split; [reflexivity|]. split; assumption.
  - split; [lia|]. intros _ id Hc. discriminate Hc.
Qed.

Lemma pick_in_charset (charset : string) (b : byte) :
  charset <> EmptyString ->
  Js.has_char (pick charset b) charset = true.
Proof.
  intros Hne. unfold pick. rewrite <- length_list_ascii.
  assert (Hin : forall (l : list ascii) (k : nat),
             (k < length l)%nat ->
             Js.has_char (nth k l "000"%char) (string_of_list_ascii l) = true).
  { induction l as [|c l IH]; intros k Hk; [cbn in Hk; lia|].
    destruct k as [|k]; cbn [nth string_of_list_ascii Js.has_char].
    - now rewrite Ascii.eqb_refl.
    - rewrite IH by (cbn in Hk; lia). apply orb_true_r. }
  rewrite <- (string_of_list_ascii_of_string charset) at 3.
  apply Hin. apply Nat.mod_upper_bound.
  destruct charset; [congruence|cbn; lia].
Qed.

Lemma no_class_no_charset (options : PasswordOptions) :
  String.eqb (charset_of options) EmptyString
  = negb (includeUppercase options || includeLowercase options
          || includeNumbers options || includeSymbols options).
Proof. destruct options as [[] [] [] [] []]; reflexivity. Qed.

(** X15: [generatePassword] fails exactly when no character type is
    selected (for a length within the quota of the random source);
    otherwise the password has the requested length and each of its
    characters is taken from the character set that the options select. *)
Theorem password_shape (source : nat -> byte) (n : nat) (options : PasswordOptions) :
  (N.of_nat n <= 65536)%N ->
  match generatePassword source n options with
  | Done password =>
      includeUppercase options || includeLowercase options
      || includeNumbers options || includeSymbols options = true /\
      String.length password = n /\
      Forall (fun c => Js.has_char c (charset_of options) = true)
        (list_ascii_of_string password)
  | Failed e =>
      e = NoCharacterType /\
      includeUppercase options || includeLowercase options
      || includeNumbers options || includeSymbols options = false
  end.
Proof.
  intros Hn. unfold generatePassword.
  rewrite no_class_no_charset.
  destruct (includeUppercase options || includeLowercase options
            || includeNumbers options || includeSymbols options) eqn:Hany;
    cbn [negb]; [|split; reflexivity].
  assert (Hne : charset_of options <> EmptyString).
  { intros Heq. pose proof (no_class_no_charset options) as Hc.
    rewrite Heq, Hany in Hc. discriminate Hc. }
  unfold getRandomValues_checked.
  destruct (N.leb_spec (N.of_nat n) 65536) as [_|Hgt]; [|lia].
  split; [reflexivity|].
  rewrite JsFacts.string_length_of_list, list_ascii_of_string_of_list_ascii.
  unfold getRandomValues. rewrite !length_map, length_seq.
  split; [reflexivity|].
  apply Forall_map, Forall_forall. intros b _.
  apply pick_in_charset, Hne.
Qed.

Lemma reduced_charsets (options : PasswordOptions) :
  excludeSimilar options = true ->
  forallb (fun c => negb (is_similar c)) (list_ascii_of_string (charset_of options))
  = true.
Proof.
  destruct options as [[] [] [] [] []]; intros Hx; try discriminate Hx;
    vm_compute; reflexivity.
Qed.

Lemma has_char_in (c : ascii) (s : string) :
  Js.has_char c s = true -> In c (list_ascii_of_string s).
Proof.
  induction s as [|x s IH]; cbn [Js.has_char list_ascii_of_string]; [discriminate|].
  intros Hc. apply orb_prop in Hc. destruct Hc as [Hc|Hc].
  - left. now apply Ascii.eqb_eq.
  - right. now apply IH.
Qed.

(** X16: with [excludeSimilar] set, no generated password contains any of
    the characters I, L, O, l, o, 0, 1, whatever the other options, the
    length and the random bytes. *)
Theorem password_excludes_similar (source : nat -> byte) (n : nat)
    (options : PasswordOptions) (password : string) :
  excludeSimilar options = true ->
  generatePassword source n options = Done password ->
  Forall (fun c => is_similar c = false) (list_ascii_of_string password).
Proof.
  intros Hx. unfold generatePassword.
  destruct (String.eqb_spec (charset_of options) EmptyString) as [|Hne];
    [discriminate|].
  destruct (getRandomValues_checked source n) as [bytes|]; [|discriminate].
  intros [= <-]. rewrite list_ascii_of_string_of_list_ascii.
  apply Forall_map, Forall_forall. intros b _.
  pose proof (reduced_charsets options Hx) as Hall.
  rewrite forallb_forall in Hall.
  apply negb_true_iff, Hall, has_char_in, pick_in_charset, Hne.
Qed.

(** *** Round trips through a password and through a key in a link *)

Section WithPlatform.
Context `{KeyPlatform}.

(** What [decrypt] makes of the output of [encrypt] when the AEAD, under
    the key given to [decrypt], opens what was sealed. *)
Lemma decrypt_of_encrypt (source : nat -> byte) (P : string) (K K' : CryptoKey) :
  let nonce := getRandomValues source ivLength in
  AES_GCM_decrypt K' nonce (AES_GCM_encrypt K nonce (TextEncoder_encode P))
  = Some (TextEncoder_encode P) ->
  TextDecoder_decode (TextEncoder_encode P) = P ->
  decrypt (encrypt source P K) K' = Some P.
Proof.
  intros nonce Haead Htext.
  assert (Hlen : length nonce = ivLength).
  { unfold nonce, getRandomValues. now rewrite length_map, length_seq. }
  unfold decrypt, encrypt. rewrite text_form_inverse. fold nonce.
  rewrite <- Hlen at 1 2. rewrite take_app_length, drop_app_length.
  rewrite Haead, Htext. reflexivity.
Qed.

(** X17: a secret encrypted under a password is recovered with the same
    password and the salt text returned.  The salt is 32 bytes drawn at
    encryption; its text decodes to those bytes, so decryption derives the
    key from the same password, salt and iteration count, and the random
    source plays no part in it.  The two hypotheses on the platform are the
    contract of AES-GCM under the derived key and of the text codec on the
    secret. *)
Theorem password_roundtrip (browser : Browser) (saltSource ivSource source : nat -> byte)
    (P password : string) :
  let salt := getRandomValues saltSource 32 in
  let key := PBKDF2_deriveKey (TextEncoder_encode password) salt 100000 in
  let nonce := getRandomValues ivSource ivLength in
  isWebCryptoAvailable browser = true ->
  AES_GCM_decrypt key nonce (AES_GCM_encrypt key nonce (TextEncoder_encode P))
  = Some (TextEncoder_encode P) ->
  TextDecoder_decode (TextEncoder_encode P) = P ->
  exists encryptedData saltText,
    encryptSecretWithPassword browser saltSource ivSource P password
    = Done (encryptedData, saltText) /\
    length salt = 32%nat /\
    base64ToArrayBuffer saltText = Some salt /\
    decryptSecretWithPassword browser source encryptedData password saltText = Done P.
Proof.
  intros salt key nonce Havail Haead Htext.
  unfold encryptSecretWithPassword, decryptSecretWithPassword.
  rewrite Havail. cbn [negb].
  unfold encryptWithPassword, deriveKeyFromPassword.
  fold salt. change pbkdf2Iterations with 100000%N. fold key.
  eexists _, _. split; [reflexivity|].
  split; [unfold salt, getRandomValues; now rewrite length_map, length_seq|].
  split; [apply text_form_inverse|].
  unfold decryptWithPassword, deriveKeyFromPassword.
  rewrite text_form_inverse. change pbkdf2Iterations with 100000%N. fold key.
  rewrite (decrypt_of_encrypt ivSource P key key Haead Htext). reflexivity.
Qed.

(** X18: a secret encrypted for a link is recovered from the key text of
    the link.  [encryptSecret] returns the text of the raw bytes of the
    generated key; [decryptSecret] decodes that text to the same raw bytes
    and imports them, and decrypting with the imported key gives the secret
    whenever that key opens what the generated key sealed. *)
Theorem key_link_roundtrip (browser : Browser) (generated imported : CryptoKey)
    (source : nat -> byte) (P : string) (raw : list byte) :
  let nonce := getRandomValues source ivLength in
  isWebCryptoAvailable browser = true ->
  exportKey_raw generated = Some raw ->
  importKey_raw raw = Some imported ->
  AES_GCM_decrypt imported nonce (AES_GCM_encrypt generated nonce (TextEncoder_encode P))
  = Some (TextEncoder_encode P) ->
  TextDecoder_decode (TextEncoder_encode P) = P ->
  exists encryptedData keyText,
    encryptSecret browser generated source P = Done (encryptedData, keyText) /\
    keyText = arrayBufferToBase64 raw /\
    importKeyFromBase64 keyText = Done imported /\
    decryptSecret browser encryptedData keyText = Done P.
Proof.
  intros nonce Havail Hexport Himport Haead Htext.
  unfold encryptSecret, decryptSecret, exportKeyToBase64.
  rewrite Havail, Hexport. cbn [negb].
  eexists _, _. split; [reflexivity|]. split; [reflexivity|].
  unfold importKeyFromBase64. rewrite text_form_inverse, Himport.
  split; [reflexivity|].
  rewrite (decrypt_of_encrypt source P generated imported Haead Htext). reflexivity.
Qed.

End WithPlatform.

(** *** The statements at concrete inputs (test platform) *)

Lemma random_id_shape_witness :
  exists id,
    generateRandomId (fun _ => x0f%byte) 3 = Done id /\
    String.length id = (2 * 3)%nat /\
    Forall (fun c => is_lower_hex c = true) (list_ascii_of_string id).
Proof.
  apply (proj1 (random_id_shape (fun _ => x0f%byte) 3)).
  intros Hc. vm_compute in Hc. discriminate Hc.
Defined.

Lemma password_shape_witness :
  match generatePassword (fun _ => x2a%byte) 16 defaultOptions with
  | Done password =>
      includeUppercase defaultOptions || includeLowercase defaultOptions
      || includeNumbers defaultOptions || includeSymbols defaultOptions = true /\
      String.length password = 16%nat /\
      Forall (fun c => Js.has_char c (charset_of defaultOptions) = true)
        (list_ascii_of_string password)
  | Failed e =>
      e = NoCharacterType /\
      includeUppercase defaultOptions || includeLowercase defaultOptions
      || includeNumbers defaultOptions || includeSymbols defaultOptions = false
  end.
Proof.
  apply (password_shape (fun _ => x2a%byte) 16 defaultOptions).
  vm_compute. discriminate.
Defined.

Lemma password_excludes_similar_witness :
  Forall (fun c => is_similar c = false) (list_ascii_of_string "vvvvvvvvvvvvvvvv").
Proof.
  apply (password_excludes_similar (fun _ => x2a%byte) 16 defaultOptions
           "vvvvvvvvvvvvvvvv").
  - reflexivity.
  - vm_compute. reflexivity.
Defined.

Lemma password_roundtrip_witness :
  exists encryptedData saltText,
    encryptSecretWithPassword TestKeys.browser (fun _ => x05%byte) (fun _ => x01%byte)
      "hello" "pw"
    = Done (encryptedData, saltText) /\
    length (getRandomValues (fun _ => x05%byte) 32) = 32%nat /\
    base64ToArrayBuffer saltText = Some (getRandomValues (fun _ => x05%byte) 32) /\
    decryptSecretWithPassword TestKeys.browser (fun _ => x09%byte) encryptedData
      "pw" saltText
    = Done "hello".
Proof.
  apply (@password_roundtrip TestPlatform.platform TestKeys.keys TestKeys.browser
           (fun _ => x05%byte) (fun _ => x01%byte) (fun _ => x09%byte) "hello" "pw").
  - reflexivity.
  - vm_compute. reflexivity.
  - reflexivity.
Defined.

Lemma key_link_roundtrip_witness :
  let K : @CryptoKey TestPlatform.platform := repeat x07%byte 32 in
  exists encryptedData keyText,
    encryptSecret TestKeys.browser K (fun _ => x01%byte) "hello"
    = Done (encryptedData, keyText) /\
    keyText = arrayBufferToBase64 K /\
    importKeyFromBase64 keyText = Done K /\
    decryptSecret TestKeys.browser encryptedData keyText = Done "hello".
Proof.
  intros K.
  apply (@key_link_roundtrip TestPlatform.platform TestKeys.keys TestKeys.browser
           K K (fun _ => x01%byte) "hello" K).
  - reflexivity.
  - reflexivity.
  - reflexivity.
  - vm_compute. reflexivity.
  - reflexivity.
Defined.

End KeyFacts.

(** * The frontend application against the worker *)

Module AppFacts.
Import Base64 Base64Notions Base64Facts SecretShareCrypto SecretShareCryptoFacts.
Import Worker Router Runtime Notions MoreNotions WorkerFacts CodecFacts KeyFacts App.

(** *** Links *)

Lemma location_hash_append (baseUrl : string) (c : ascii) (r : string) :
  Js.has_char "#" baseUrl = false ->
  location_hash (baseUrl +:+ String "#" (String c r)) = String "#" (String c r).
Proof.
  induction baseUrl as [|x b IH]; intros Hno.
  - reflexivity.
  - cbn [Js.has_char] in Hno. apply orb_false_elim in Hno. destruct Hno as [Hx Hb].
    rewrite JsFacts.append_String. cbn [location_hash]. rewrite Hx. now apply IH.
Qed.

Lemma slice_tail (c : ascii) (s : string) : slice 1 (String c s) = s.
Proof.
  unfold slice. cbn [list_ascii_of_string drop].
  apply string_of_list_ascii_of_string.
Qed.

Lemma slice_two (c d : ascii) (s : string) : slice 2 (String c (String d s)) = s.
Proof.
  unfold slice. cbn [list_ascii_of_string drop].
  apply string_of_list_ascii_of_string.
Qed.

Lemma prefix_marker (r : string) :
  String.prefix "s/" (String "s" (String "/" r)) = true.
Proof.
  cbn [String.prefix].
  destruct (ascii_dec "s" "s") as [_|Hn]; [|congruence].
  destruct (ascii_dec "/" "/") as [_|Hn]; [|congruence].
  destruct r; reflexivity.
Qed.

(** The text of a byte sequence holds no [/]. *)
Lemma text_no_slash (buffer : list byte) :
  Js.has_char "/" (arrayBufferToBase64 buffer) = false.
Proof.
  destruct (text_form_chars buffer) as (sx & Hsx & ->).
  now destruct (url_text_safe sx Hsx) as (_ & _ & ?).
Qed.

Lemma text_truthy (buffer : list byte) :
  buffer <> [] -> Js.truthy (arrayBufferToBase64 buffer) = true.
Proof.
  intros Hne.
  assert (Hlen : String.length (arrayBufferToBase64 buffer)
                 = ((4 * length buffer + 2) / 3)%nat).
  { rewrite <- encoders_agree. apply base64urlEncode_length. }
  destruct (arrayBufferToBase64 buffer); [|reflexivity].
  destruct buffer; [congruence|]. cbn [String.length length] in Hlen.
  exfalso. div_lia.
Qed.

(** X19: a link opens the secret it was made for.  For an identifier as
    the worker issues it and the text of a key that is not empty, the
    address that [generateSecretUrl] builds is taken apart by
    [handleNavigation] into exactly that identifier and that key text; the
    address built for a password-protected secret gives the identifier and
    no key.  The page address is assumed to hold no [#] of its own. *)
Theorem link_roundtrip (baseUrl : string) (idBytes keyBytes : list byte) :
  Js.has_char "#" baseUrl = false ->
  keyBytes <> [] ->
  let secretId := base64urlEncode idBytes in
  let keyText := arrayBufferToBase64 keyBytes in
  handleNavigation
    (location_hash (generateSecretUrl baseUrl secretId (Some keyText) false))
  = Some (secretId, Some keyText) /\
  handleNavigation (location_hash (generateSecretUrl baseUrl secretId None true))
  = Some (secretId, None).
Proof.
  intros Hbase Hkey secretId keyText.
  assert (Hid : Js.has_char "/" secretId = false).
  { unfold secretId. rewrite encoders_agree. apply text_no_slash. }
  assert (Hk : Js.has_char "/" keyText = false) by apply text_no_slash.
  assert (Ht : Js.truthy keyText = true) by exact (text_truthy keyBytes Hkey).
  clearbody secretId keyText.
  unfold generateSecretUrl, handleNavigation. cbn [orb falsy field].
  rewrite Ht. cbn [negb].
  change (baseUrl +:+ "#s/" +:+ secretId +:+ "/" +:+ keyText)
    with (baseUrl +:+ String "#" (String "s" (String "/" (secretId +:+ String "/" keyText)))).
  change (baseUrl +:+ "#s/" +:+ secretId)
    with (baseUrl +:+ String "#" (String "s" (String "/" secretId))).
  rewrite !location_hash_append by exact Hbase.
  rewrite !slice_tail, !prefix_marker, !slice_two.
  rewrite (JsFacts.split_on_pair "/" secretId keyText Hid Hk).
  rewrite (JsFacts.split_on_single "/" secretId Hid).
  split; reflexivity.
Qed.

(** *** Keys in links *)

(** The pattern test, and the two characters it stumbles on, on the
    URL-safe text of sextets. *)
Lemma pattern_on_text (sx : list N) :
  small 64 sx ->
  forallb (Ascii.eqb "=") (skip_class (map url (map b64char sx)))
  = forallb (fun n => (n <? 62)%N) sx /\
  Js.has_char "-" (string_of_list_ascii (map url (map b64char sx)))
  = existsb (fun n => (n =? 62)%N) sx /\
  Js.has_char "_" (string_of_list_ascii (map url (map b64char sx)))
  = existsb (fun n => (n =? 63)%N) sx /\
  skip_whitespace (map url (map b64char sx)) = map url (map b64char sx).
Proof.
  unfold small. intros Hsx.
  induction Hsx as [|n sx Hn _ (IH1 & IH2 & IH3 & IH4)]; [repeat split|].
  destruct (sextet_class_facts n Hn) as (_ & Hc & Hd & Hu & Hw & He).
  cbn [map skip_class skip_whitespace string_of_list_ascii Js.has_char forallb existsb].
  rewrite Hc, Hd, Hu, Hw, IH2, IH3.
  split; [|repeat split].
  destruct (n <? 62)%N; [exact IH1|].
  cbn [forallb]. rewrite Ascii.eqb_sym, He. reflexivity.
Qed.

Lemma class_or_marks (sx : list N) :
  small 64 sx ->
  forallb (fun n => (n <? 62)%N) sx
  = negb (existsb (fun n => (n =? 62)%N) sx || existsb (fun n => (n =? 63)%N) sx).
Proof.
  unfold small. intros Hsx.
  induction Hsx as [|n sx Hn _ IH]; [reflexivity|].
  cbn [forallb existsb]. rewrite IH.
  destruct (N.ltb_spec n 62), (N.eqb_spec n 62), (N.eqb_spec n 63); try lia;
    cbn [andb orb negb]; try reflexivity.
Qed.

Lemma forall_rev_skip (l : list ascii) :
  Forall (fun c => is_js_whitespace c = false) l -> skip_whitespace l = l.
Proof. intros Hl. destruct Hl as [|c l Hc _]; [reflexivity|]. cbn. now rewrite Hc. Qed.

Lemma text_not_blank (sx : list N) :
  small 64 sx ->
  trim (string_of_list_ascii (map url (map b64char sx)))
  = string_of_list_ascii (map url (map b64char sx)).
Proof.
  intros Hsx. unfold trim. rewrite list_ascii_of_string_of_list_ascii.
  assert (Hall : Forall (fun c => is_js_whitespace c = false)
                   (map url (map b64char sx))).
  { unfold small in Hsx. rewrite !Forall_map.
    eapply Forall_impl; [exact Hsx|]. cbv beta. intros n Hn.
    now destruct (sextet_class_facts n Hn) as (_ & _ & _ & _ & ? & _). }
  rewrite (forall_rev_skip _ Hall).
  rewrite (forall_rev_skip (rev _)) by (apply Forall_rev; exact Hall).
  now rewrite rev_involutive.
Qed.

(** X20: the key check of the retrieval page against the keys that the
    page itself exports.  For the text of a raw key of 24 bytes or more (a
    generated key has 32), [isValidEncryptionKey] accepts the text exactly
    when it contains neither [-] nor [_], the two characters that
    [arrayBufferToBase64] substitutes for [+] and [/]; in the other case
    [retrieveSecret] gives up with the invalid-key error before it calls
    the API. *)
Theorem exported_key_check (raw : list byte) :
  (24 <= length raw)%nat ->
  let keyText := arrayBufferToBase64 raw in
  isValidEncryptionKey (Some keyText)
  = negb (Js.has_char "-" keyText || Js.has_char "_" keyText) /\
  key_refused (Some keyText) = Js.has_char "-" keyText || Js.has_char "_" keyText.
Proof.
  intros Hlen keyText.
  assert (Hsize : String.length keyText = ((4 * length raw + 2) / 3)%nat).
  { unfold keyText. rewrite <- encoders_agree. apply base64urlEncode_length. }
  assert (Hlong : (32 <=? String.length keyText)%nat = true).
  { apply Nat.leb_le. rewrite Hsize. div_lia. }
  assert (Htruthy : Js.truthy keyText = true).
  { apply text_truthy. destruct raw; [cbn in Hlen; lia|discriminate]. }
  destruct (text_form_chars raw) as (sx & Hsx & Htext). fold keyText in Htext.
  destruct (pattern_on_text sx Hsx) as (Hp & Hd & Hu & _).
  assert (Hvalid : isValidEncryptionKey (Some keyText)
                   = negb (Js.has_char "-" keyText || Js.has_char "_" keyText)).
  { unfold isValidEncryptionKey. rewrite Htruthy, Hlong. cbn [andb].
    rewrite Htext, Hd, Hu, <- (class_or_marks sx Hsx).
    unfold base64Pattern_test. rewrite list_ascii_of_string_of_list_ascii.
    destruct sx as [|n sx].
    { rewrite Htext in Htruthy. discriminate Htruthy. }
    inversion Hsx as [|? ? Hn Hrest]; subst.
    destruct (pattern_on_text sx Hrest) as (Hp' & _).
    destruct (sextet_class_facts n Hn) as (_ & Hc & _).
    cbn [map forallb]. rewrite Hc, Hp'. reflexivity. }
  split; [exact Hvalid|].
  unfold key_refused. rewrite Hvalid, negb_involutive.
  unfold hasKey. rewrite Htruthy, Htext, (text_not_blank sx Hsx), <- Htext.
  replace (0 <? String.length keyText)%nat with true
    by (symmetry; apply Nat.ltb_lt; apply Nat.leb_le in Hlong; lia).
  reflexivity.
Qed.

(** *** Requests *)

Section WithPlatform.
Context `{WebPlatform}.

(** X21: the worker accepts no request that the frontend builds.
    [apiCall] puts the token in the [X-CSRF-Token] header and sends the
    caller's body as it is; the bodies built by the create form and by
    [retrieveSecret] hold no [csrfToken] field, and the worker reads the
    token from the body only.  So whatever the token, the contents and the
    origin, [fetch] answers 400 for a missing field (or 403 when the origin
    is not allowed) and performs no effect at all: nothing is stored and no
    view is counted. *)
Theorem frontend_calls_are_refused (o : Oracle) (w : World) (env : FetchEnv)
    (page_origin : option string) (csrfToken encryptedData secretId : string)
    (maxViews expirationHours : Z) :
  let create :=
    arriving page_origin (create_call encryptedData maxViews expirationHours csrfToken) in
  let retrieve := arriving page_origin (retrieve_call secretId csrfToken) in
  (exists st msg,
      run o (fetch create env) w
      = (Returned (with_cors (allowOriginHeader create env) (json st (ErrorBody msg))), w) /\
      ((st = 400 /\ msg = "Missing required fields") \/
       (st = 403 /\ msg = "Origin not allowed"))%Z) /\
  (exists st msg,
      run o (fetch retrieve env) w
      = (Returned (with_cors (allowOriginHeader retrieve env) (json st (ErrorBody msg))), w) /\
      ((st = 400 /\ msg = "Missing secretId or csrfToken") \/
       (st = 403 /\ msg = "Origin not allowed"))%Z).
Proof.
  intros create retrieve. split.
  - unfold fetch.
    change (method create) with "POST"%string.
    change (pathname create) with "/api/create"%string.
    change (route create) with "POST /api/create"%string.
    change (String.eqb "POST" "OPTIONS") with false.
    destruct (negb (isOriginAllowed create env) && negb (falsy (origin create))).
    { eexists _, _. split; [reflexivity|]. right. split; reflexivity. }
    change (String.prefix "/api/" "/api/create") with true.
    change (String.eqb "POST /api/create" "GET /api/csrf-token") with false.
    change (String.eqb "POST /api/create" "POST /api/create") with true.
    cbv iota.
    unfold handleCreateSecret, create, arriving, create_call, apiCall_request,
      create_requestData.
    cbn [request_json out_body call_body fmap option_fmap option_map as_create
         body_encryptedData body_maxViews body_expirationHours body_csrfToken
         create_encryptedData create_maxViews create_expirationHours create_csrfToken
         falsy].
    rewrite orb_true_r.
    eexists _, _. split; [reflexivity|]. left. split; reflexivity.
  - unfold fetch.
    change (method retrieve) with "POST"%string.
    change (pathname retrieve) with "/api/retrieve"%string.
    change (route retrieve) with "POST /api/retrieve"%string.
    change (String.eqb "POST" "OPTIONS") with false.
    destruct (negb (isOriginAllowed retrieve env) && negb (falsy (origin retrieve))).
    { eexists _, _. split; [reflexivity|]. right. split; reflexivity. }
    change (String.prefix "/api/" "/api/retrieve") with true.
    change (String.eqb "POST /api/retrieve" "GET /api/csrf-token") with false.
    change (String.eqb "POST /api/retrieve" "POST /api/create") with false.
    change (String.eqb "POST /api/retrieve" "POST /api/retrieve") with true.
    cbv iota.
    unfold handleRetrieveSecret, retrieve, arriving, retrieve_call, apiCall_request,
      retrieve_requestData.
    cbn [request_json out_body call_body fmap option_fmap option_map as_retrieve
         body_secretId body_csrfToken retrieve_secretId retrieve_csrfToken falsy].
    rewrite orb_true_r.
    eexists _, _. split; [reflexivity|]. left. split; reflexivity.
Qed.

(** X22: what the retrieval page shows for a record with whole numbers.
    When the stored count [v] is below the limit [m] and the read
    succeeds, the value shown as views remaining, [maxViews - viewCount] of
    the response, is [m - v - 1], which is not negative, and the last-view
    warning is shown exactly when that value is 0. *)
Theorem views_remaining_shown (o : Oracle) (w : World) (env : Env)
    (data : RetrieveSecretRequest) (d : SecretData) (ttl : option Q) (m v : Z) :
  falsy (retrieve_secretId data) || falsy (retrieve_csrfToken data) = false ->
  validates_at (field (retrieve_csrfToken data)) (CSRF_SECRET env) (clock o (tick w)) = true ->
  rejects o (S (tick w)) = false ->
  store w !! hashSecretId (field (retrieve_secretId data))
  = Some {| kv_value := Json d; kv_expirationTtl := ttl |} ->
  (maxViews d == inject_Z m)%Q ->
  (viewCount d == inject_Z v)%Q ->
  (v < m)%Z ->
  exists metaData remaining,
    fst (run o (handleRetrieveSecret (Some data) env) w) = Returned (json 200 metaData) /\
    views_remaining metaData = Some remaining /\
    (remaining == inject_Z (m - v - 1))%Q /\
    (0 <= m - v - 1)%Z /\
    last_view_warning metaData = (m - v - 1 =? 0)%Z.
Proof.
  intros Hf Hv Hget Hlook Hm Hc Hlt.
  rewrite (run_retrieve_checked o w env data Hf Hv). cbv zeta.
  change (tick (advance w (store w))) with (S (tick w)).
  rewrite Hget, Hlook. cbn [fmap option_fmap option_map kv_value].
  rewrite (Qle_bool_inject _ _ m v Hm Hc).
  replace (m <=? v)%Z with false by lia.
  assert (Hc1 : (viewCount d + 1 == inject_Z (v + 1))%Q).
  { rewrite Hc. unfold Qeq, Qplus, inject_Z. cbn. lia. }
  rewrite (Qle_bool_inject _ _ m (v + 1) Hm Hc1).
  eexists _, _. cbn [fst views_remaining last_view_warning].
  split; [reflexivity|]. split; [reflexivity|].
  split; [|split; [lia|]].
  - rewrite Hm, Hc1. unfold Qeq, Qminus, Qplus, Qopp, inject_Z. cbn. lia.
  - destruct (Z.leb_spec m (v + 1)), (Z.eqb_spec (m - v - 1) 0); try lia; reflexivity.
Qed.

End WithPlatform.

(** *** The statements at concrete inputs (test platform) *)

Import Fixtures.

Lemma link_roundtrip_witness :
  let secretId := base64urlEncode [x01%byte; x02%byte] in
  let keyText := arrayBufferToBase64 (repeat x07%byte 32) in
  handleNavigation
    (location_hash (generateSecretUrl "https://app.example/" secretId (Some keyText) false))
  = Some (secretId, Some keyText) /\
  handleNavigation
    (location_hash (generateSecretUrl "https://app.example/" secretId None true))
  = Some (secretId, None).
Proof.
  apply (link_roundtrip "https://app.example/" [x01%byte; x02%byte]
           (repeat x07%byte 32)).
  - reflexivity.
  - discriminate.
Defined.

Lemma exported_key_check_witness :
  let keyText := arrayBufferToBase64 (repeat xff%byte 32) in
  isValidEncryptionKey (Some keyText)
  = negb (Js.has_char "-" keyText || Js.has_char "_" keyText) /\
  key_refused (Some keyText) = Js.has_char "-" keyText || Js.has_char "_" keyText.
Proof.
  apply (exported_key_check (repeat xff%byte 32)).
  cbn. lia.
Defined.

Lemma views_remaining_shown_witness :
  exists metaData remaining,
    fst (run (TestPlatform.oracle 1000 x01%byte [])
           (handleRetrieveSecret (Some request) env) (holding 3 1))
    = Returned (json 200 metaData) /\
    views_remaining metaData = Some remaining /\
    (remaining == inject_Z (3 - 1 - 1))%Q /\
    (0 <= 3 - 1 - 1)%Z /\
    last_view_warning metaData = (3 - 1 - 1 =? 0)%Z.
Proof.
  apply (views_remaining_shown (TestPlatform.oracle 1000 x01%byte []) (holding 3 1)
           env request (record 3 1) (Some 3600%Q) 3 1).
  - reflexivity.
  - vm_compute. reflexivity.
  - reflexivity.
  - vm_compute. reflexivity.
  - reflexivity.
  - reflexivity.
  - lia.
Defined.

End AppFacts.
